(** * DashBuilder devstack automation: provider client wrapper and batch
      orchestrator

    A shallow embedding of
      - [src/devstack/automation/python/openstack_automation.py]
        (class [OpenStackAutomation]) and
      - [src/devstack/automation/python/batch_operations.py]
        (class [BatchOperations]).

    The cloud SDK behind [self.conn] is an external collaborator: it is a
    record of operations over an abstract backend state.  The Python methods
    are programs over the SDK's calls (a free monad with exceptions); the
    [ThreadPoolExecutor] of the batch layer is a small-step worker pool driven
    by an explicit schedule. *)

From Stdlib Require Import ZArith String Ascii List Permutation Lia.
From stdpp Require Import base tactics option list gmap strings pretty.

Open Scope string_scope.
Open Scope list_scope.
Open Scope Z_scope.

(** ** Provider resources

    Only the attributes that the two modules read are kept.  Attributes that
    the code guards with a truth test ([volume.name and ...],
    [not fip.fixed_ip_address]) are optional strings. *)

Record Server := {
  srv_id : string;
  srv_name : string;
  srv_status : string;
  srv_addresses : gmap string (list string);
  srv_flavor : gmap string string;
  srv_networks : list (gmap string string)
}.

Record Image := { image_id : string }.
Record Flavor := { flavor_id : string }.
Record Network := {
  network_id : string;
  network_name : option string;
  is_router_external : bool
}.
Record SecurityGroup := { sg_id : string; sg_name : option string }.
Record Volume := { volume_id : string; volume_name : option string }.
Record FloatingIp := {
  fip_id : string;
  floating_ip_address : string;
  fixed_ip_address : option string
}.
Record Router := { router_id : string; router_name : option string }.
Record Port := { port_id : string; device_owner : string }.

(** Keyword arguments of [conn.compute.create_server]. *)
Record CreateServerArgs := {
  cs_name : string;
  cs_image_id : string;
  cs_flavor_id : string;
  cs_networks : list (gmap string string);
  cs_security_groups : list (gmap string (option string));
  cs_key_name : option string;
  cs_user_data : option string
}.

(** ** Exceptions and outcomes *)

Inductive exn :=
| ValueError (msg : string)
| TypeError (msg : string)
| KeyError (key : string)
| SdkError (msg : string).

Inductive outcome (A : Type) :=
| Ok (a : A)
| Exn (e : exn).
Arguments Ok {A} a.
Arguments Exn {A} e.

(** ** Log records

    The f-strings of the logger calls, kept structured: the literal part and
    the interpolated values. *)

Inductive level := INFO | WARNING | ERROR.

Inductive log_msg :=
| Msg (text : string)
| MsgStr (text : string) (arg : string)
| MsgStr2 (text : string) (arg1 arg2 : string)
| MsgExn (text : string) (e : exn)
| MsgStrExn (text : string) (arg : string) (e : exn)
| MsgNames (text : string) (names : list string).

(** ** The calls a method can make

    SDK calls ([self.conn.compute], [self.conn.network], [self.conn.volume]),
    and the ambient ones: [os.getenv], [time.time], [time.sleep] and the
    logger. *)

Inductive call :=
(* lookups by name *)
| FindServer (name : string)
| FindFlavor (name : string)
| FindImage (name : string)
| FindNetwork (name : string)
| FindSecurityGroup (name : string)
| FindVolume (name : string)
(* listings *)
| ListServers
| ListVolumes
| ListIps
| ListRouters
| ListNetworks
| ListSecurityGroups
| ListPorts (device_id : string)
(* commands *)
| CreateServer (args : CreateServerArgs)
| WaitForServer (s : Server) (status : option string) (wait : option Z)
| ResizeServer (s : Server) (f : Flavor)
| ConfirmResizeServer (s : Server)
| CreateServerImage (s : Server) (name : string)
| DeleteServer (s : Server)
| WaitForDelete (s : Server)
| CreateIp (floating_network_id : string)
| AddFloatingIpToServer (s : Server) (address : string)
| CreateVolumeAttachment (s : Server) (vol_id : string)
| DeleteVolume (v : Volume)
| DeleteIp (ip : FloatingIp)
| RemoveInterfaceFromRouter (r : Router) (pid : string)
| DeleteRouter (r : Router)
| DeleteNetwork (n : Network)
| DeleteSecurityGroup (g : SecurityGroup)
(* ambient *)
| GetEnv (key : string)
| Now
| Sleep (seconds : Z)
| Log (lvl : level) (msg : log_msg).

(** The type of the value a call returns. *)
Definition answer (c : call) : Type :=
  match c with
  | FindServer _ => option Server
  | FindFlavor _ => option Flavor
  | FindImage _ => option Image
  | FindNetwork _ => option Network
  | FindSecurityGroup _ => option SecurityGroup
  | FindVolume _ => option Volume
  | ListServers => list Server
  | ListVolumes => list Volume
  | ListIps => list FloatingIp
  | ListRouters => list Router
  | ListNetworks => list Network
  | ListSecurityGroups => list SecurityGroup
  | ListPorts _ => list Port
  | CreateServer _ => Server
  | WaitForServer _ _ _ => Server
  | ResizeServer _ _ => unit
  | ConfirmResizeServer _ => unit
  | CreateServerImage _ _ => string
  | DeleteServer _ => unit
  | WaitForDelete _ => unit
  | CreateIp _ => FloatingIp
  | AddFloatingIpToServer _ _ => unit
  | CreateVolumeAttachment _ _ => unit
  | DeleteVolume _ => unit
  | DeleteIp _ => unit
  | RemoveInterfaceFromRouter _ _ => unit
  | DeleteRouter _ => unit
  | DeleteNetwork _ => unit
  | DeleteSecurityGroup _ => unit
  | GetEnv _ => option string
  | Now => Z
  | Sleep _ => unit
  | Log _ _ => unit
  end.

(** Calls that only observe the backend: lookups, listings, the environment,
    the clock and the logger. *)
Definition is_query (c : call) : bool :=
  match c with
  | FindServer _ | FindFlavor _ | FindImage _ | FindNetwork _
  | FindSecurityGroup _ | FindVolume _
  | ListServers | ListVolumes | ListIps | ListRouters | ListNetworks
  | ListSecurityGroups | ListPorts _
  | GetEnv _ | Now | Log _ _ => true
  | _ => false
  end.

(** ** The SDK as a record of operations over a backend state [B]

    Lookups and listings read the state and may raise; commands may raise and
    may change the state. *)

Record Sdk (B : Type) := {
  find_server : B -> string -> outcome (option Server);
  find_flavor : B -> string -> outcome (option Flavor);
  find_image : B -> string -> outcome (option Image);
  find_network : B -> string -> outcome (option Network);
  find_security_group : B -> string -> outcome (option SecurityGroup);
  find_volume : B -> string -> outcome (option Volume);
  servers : B -> outcome (list Server);
  volumes : B -> outcome (list Volume);
  ips : B -> outcome (list FloatingIp);
  routers : B -> outcome (list Router);
  networks : B -> outcome (list Network);
  security_groups : B -> outcome (list SecurityGroup);
  ports : B -> string -> outcome (list Port);
  create_server : B -> CreateServerArgs -> outcome Server * B;
  wait_for_server : B -> Server -> option string -> option Z -> outcome Server * B;
  resize_server : B -> Server -> Flavor -> outcome unit * B;
  confirm_resize_server : B -> Server -> outcome unit * B;
  create_server_image : B -> Server -> string -> outcome string * B;
  delete_server : B -> Server -> outcome unit * B;
  wait_for_delete : B -> Server -> outcome unit * B;
  create_ip : B -> string -> outcome FloatingIp * B;
  add_floating_ip_to_server : B -> Server -> string -> outcome unit * B;
  create_volume_attachment : B -> Server -> string -> outcome unit * B;
  delete_volume : B -> Volume -> outcome unit * B;
  delete_ip : B -> FloatingIp -> outcome unit * B;
  remove_interface_from_router : B -> Router -> string -> outcome unit * B;
  delete_router : B -> Router -> outcome unit * B;
  delete_network : B -> Network -> outcome unit * B;
  delete_security_group : B -> SecurityGroup -> outcome unit * B;
  getenv : B -> string -> option string;
  now : B -> Z;
  sleep : B -> Z -> B
}.
Arguments find_server {B}. Arguments find_flavor {B}. Arguments find_image {B}.
Arguments find_network {B}. Arguments find_security_group {B}.
Arguments find_volume {B}. Arguments servers {B}. Arguments volumes {B}.
Arguments ips {B}. Arguments routers {B}. Arguments networks {B}.
Arguments security_groups {B}. Arguments ports {B}.
Arguments create_server {B}. Arguments wait_for_server {B}.
Arguments resize_server {B}. Arguments confirm_resize_server {B}.
Arguments create_server_image {B}. Arguments delete_server {B}.
Arguments wait_for_delete {B}. Arguments create_ip {B}.
Arguments add_floating_ip_to_server {B}.
Arguments create_volume_attachment {B}. Arguments delete_volume {B}.
Arguments delete_ip {B}. Arguments remove_interface_from_router {B}.
Arguments delete_router {B}. Arguments delete_network {B}.
Arguments delete_security_group {B}. Arguments getenv {B}. Arguments now {B}.
Arguments sleep {B}.

(** The world a method runs in: the backend and the calls issued so far. *)
Record world (B : Type) := World { backend : B; trace : list call }.
Arguments World {B}. Arguments backend {B}. Arguments trace {B}.

(** What one call returns and how it changes the backend. *)
Definition handle {B} (sdk : Sdk B) (c : call) (b : B) : outcome (answer c) * B :=
  match c return outcome (answer c) * B with
  | FindServer n => (find_server sdk b n, b)
  | FindFlavor n => (find_flavor sdk b n, b)
  | FindImage n => (find_image sdk b n, b)
  | FindNetwork n => (find_network sdk b n, b)
  | FindSecurityGroup n => (find_security_group sdk b n, b)
  | FindVolume n => (find_volume sdk b n, b)
  | ListServers => (servers sdk b, b)
  | ListVolumes => (volumes sdk b, b)
  | ListIps => (ips sdk b, b)
  | ListRouters => (routers sdk b, b)
  | ListNetworks => (networks sdk b, b)
  | ListSecurityGroups => (security_groups sdk b, b)
  | ListPorts d => (ports sdk b d, b)
  | CreateServer a => create_server sdk b a
  | WaitForServer s st wt => wait_for_server sdk b s st wt
  | ResizeServer s f => resize_server sdk b s f
  | ConfirmResizeServer s => confirm_resize_server sdk b s
  | CreateServerImage s n => create_server_image sdk b s n
  | DeleteServer s => delete_server sdk b s
  | WaitForDelete s => wait_for_delete sdk b s
  | CreateIp n => create_ip sdk b n
  | AddFloatingIpToServer s a => add_floating_ip_to_server sdk b s a
  | CreateVolumeAttachment s v => create_volume_attachment sdk b s v
  | DeleteVolume v => delete_volume sdk b v
  | DeleteIp i => delete_ip sdk b i
  | RemoveInterfaceFromRouter r p => remove_interface_from_router sdk b r p
  | DeleteRouter r => delete_router sdk b r
  | DeleteNetwork n => delete_network sdk b n
  | DeleteSecurityGroup g => delete_security_group sdk b g
  | GetEnv k => (Ok (getenv sdk b k), b)
  | Now => (Ok (now sdk b), b)
  | Sleep n => (Ok tt, sleep sdk b n)
  | Log _ _ => (Ok tt, b)
  end.

Definition perform {B} (sdk : Sdk B) (c : call) (w : world B)
  : outcome (answer c) * world B :=
  let '(o, b') := handle sdk c (backend w) in
  (o, World b' (trace w ++ [c])).

(** ** Sequential programs *)

Inductive prog (A : Type) : Type :=
| Ret (a : A)
| Throw (e : exn)
| Do (c : call) (k : outcome (answer c) -> prog A).
Arguments Ret {A} a.
Arguments Throw {A} e.
Arguments Do {A} c k.

Fixpoint bind {A C} (p : prog A) (f : A -> prog C) : prog C :=
  match p with
  | Ret a => f a
  | Throw e => Throw e
  | Do c k => Do c (fun o => bind (k o) f)
  end.

(** [try: p except Exception as e: h e] *)
Fixpoint try_except {A} (p : prog A) (h : exn -> prog A) : prog A :=
  match p with
  | Ret a => Ret a
  | Throw e => h e
  | Do c k => Do c (fun o => try_except (k o) h)
  end.

(** A call whose exception propagates. *)
Definition invoke (c : call) : prog (answer c) :=
  Do c (fun o => match o with Ok r => Ret r | Exn e => Throw e end).

Declare Scope prog_scope.
Delimit Scope prog_scope with prog.
Notation "x <- p ;; q" := (bind p (fun x => q))
  (at level 100, p at next level, right associativity) : prog_scope.
Notation "p ;; q" := (bind p (fun _ => q))
  (at level 100, right associativity) : prog_scope.
Open Scope prog_scope.

Definition log (lvl : level) (m : log_msg) : prog unit := invoke (Log lvl m).

(** [for x in l: body x], threading the loop's local state. *)
Fixpoint for_each {X S} (l : list X) (body : X -> S -> prog S) (s : S) : prog S :=
  match l with
  | [] => Ret s
  | x :: l' => s' <- body x s ;; for_each l' body s'
  end.

Fixpoint run {B A} (sdk : Sdk B) (p : prog A) (w : world B) : outcome A * world B :=
  match p with
  | Ret a => (Ok a, w)
  | Throw e => (Exn e, w)
  | Do c k => let '(o, w') := perform sdk c w in run sdk (k o) w'
  end.

(** ** Python truth tests *)

(** [if s:] for an optional string: [None] and the empty string are false. *)
Definition truthy (o : option string) : bool :=
  match o with
  | Some s => negb (String.eqb s "")
  | None => false
  end.

(** [name and name.startswith(prefix)] *)
Definition name_matches (prefix : string) (o : option string) : bool :=
  match o with
  | Some s => negb (String.eqb s "") && String.prefix prefix s
  | None => false
  end.

(** * Module [openstack_automation]: class [OpenStackAutomation] *)

Definition dq : string := String (Ascii.ascii_of_nat 34) EmptyString.
Definition bs : string := String (Ascii.ascii_of_nat 92) EmptyString.
Definition nl : string := String (Ascii.ascii_of_nat 10) EmptyString.

Definition _generate_nrdot_userdata (hostname license_key : string) : string :=
  String.concat "" (map (fun l => l +:+ nl) [
    "#!/bin/bash";
    "# Install NRDOT Collector";
    "export NRDOT_VERSION=" +:+ dq +:+ "1.1.0" +:+ dq;
    "export NEW_RELIC_LICENSE_KEY=" +:+ dq +:+ license_key +:+ dq;
    "";
    "# Update system";
    "apt-get update || yum update -y";
    "";
    "# Install dependencies";
    "apt-get install -y wget ca-certificates || yum install -y wget ca-certificates";
    "";
    "# Detect architecture";
    "ARCH=$(uname -m)";
    "case $ARCH in";
    "    x86_64) ARCH=" +:+ dq +:+ "amd64" +:+ dq +:+ " ;;";
    "    aarch64) ARCH=" +:+ dq +:+ "arm64" +:+ dq +:+ " ;;";
    "esac";
    "";
    "# Download and install NRDOT";
    "if command -v apt-get >/dev/null; then";
    "    DEB_FILE=" +:+ dq +:+ "nrdot-collector-host_${NRDOT_VERSION}_linux_${ARCH}.deb" +:+ dq;
    "    wget -q -O " +:+ dq +:+ "/tmp/${DEB_FILE}" +:+ dq +:+ " " +:+ dq +:+ "https://github.com/newrelic/nrdot-collector-releases/releases/download/v${NRDOT_VERSION}/${DEB_FILE}" +:+ dq;
    "    dpkg -i " +:+ dq +:+ "/tmp/${DEB_FILE}" +:+ dq +:+ " || apt-get install -f -y";
    "else";
    "    RPM_FILE=" +:+ dq +:+ "nrdot-collector-host_${NRDOT_VERSION}_linux_${ARCH}.rpm" +:+ dq;
    "    wget -q -O " +:+ dq +:+ "/tmp/${RPM_FILE}" +:+ dq +:+ " " +:+ dq +:+ "https://github.com/newrelic/nrdot-collector-releases/releases/download/v${NRDOT_VERSION}/${RPM_FILE}" +:+ dq;
    "    rpm -i " +:+ dq +:+ "/tmp/${RPM_FILE}" +:+ dq +:+ " || yum install -y " +:+ dq +:+ "/tmp/${RPM_FILE}" +:+ dq;
    "fi";
    "";
    "# Configure NRDOT";
    "mkdir -p /etc/nrdot-collector-host";
    "cat > /etc/nrdot-collector-host/nrdot-collector-host.env << EOF";
    "NEW_RELIC_LICENSE_KEY=${NEW_RELIC_LICENSE_KEY}";
    "OTEL_EXPORTER_OTLP_ENDPOINT=https://otlp.nr-data.net";
    "OTEL_RESOURCE_ATTRIBUTES=" +:+ dq +:+ "service.name=openstack-vm,environment=production,host.id=" +:+ hostname +:+ ",cloud.provider=openstack" +:+ dq;
    "NEW_RELIC_MEMORY_LIMIT_MIB=100";
    "EOF";
    "";
    "# Update systemd service";
    "sed -i '/" +:+ bs +:+ "[Service" +:+ bs +:+ "]/a EnvironmentFile=/etc/nrdot-collector-host/nrdot-collector-host.env' " +:+ bs;
    "    /lib/systemd/system/nrdot-collector-host.service";
    "";
    "# Start service";
    "systemctl daemon-reload";
    "systemctl enable nrdot-collector-host";
    "systemctl start nrdot-collector-host";
    "";
    "echo " +:+ dq +:+ "NRDOT Collector installed and started on " +:+ hostname +:+ dq
  ]).

(** [launch_instance], after Python has bound its parameters. *)
Definition launch_instance
    (name image_name flavor_name : string)
    (network_name security_group_name key_name user_data : option string)
    (enable_nrdot : bool) : prog Server :=
  (* Get image *)
  image <- invoke (FindImage image_name) ;;
  match image with
  | None => Throw (ValueError ("Image " +:+ image_name +:+ " not found"))
  | Some image =>
  (* Get flavor *)
  flavor <- invoke (FindFlavor flavor_name) ;;
  match flavor with
  | None => Throw (ValueError ("Flavor " +:+ flavor_name +:+ " not found"))
  | Some flavor =>
  (* Get network *)
  networks <-
    (match network_name with
     | Some n =>
         if truthy network_name then
           network <- invoke (FindNetwork n) ;;
           match network with
           | Some nw => Ret [ ({[ "uuid" := network_id nw ]} : gmap string string) ]
           | None => Ret []
           end
         else Ret []
     | None => Ret []
     end) ;;
  (* Get security groups *)
  security_groups <-
    (match security_group_name with
     | Some n =>
         if truthy security_group_name then
           sg <- invoke (FindSecurityGroup n) ;;
           match sg with
           | Some g => Ret [ ({[ "name" := sg_name g ]} : gmap string (option string)) ]
           | None => Ret []
           end
         else Ret []
     | None => Ret []
     end) ;;
  (* Add NRDOT collector user data if enabled *)
  user_data <-
    (if enable_nrdot && negb (truthy user_data) then
       key <- invoke (GetEnv "NEW_RELIC_LICENSE_KEY") ;;
       let new_relic_key := default "" key in
       if negb (String.eqb new_relic_key "")
       then Ret (Some (_generate_nrdot_userdata name new_relic_key))
       else Ret user_data
     else Ret user_data) ;;
  (* Create instance *)
  server <- invoke (CreateServer {|
              cs_name := name;
              cs_image_id := image_id image;
              cs_flavor_id := flavor_id flavor;
              cs_networks := networks;
              cs_security_groups := security_groups;
              cs_key_name := key_name;
              cs_user_data := user_data |}) ;;
  (* Wait for server to be active *)
  server <- invoke (WaitForServer server None None) ;;
  log INFO (MsgStr "Instance {} is active" (srv_name server)) ;;
  Ret server
  end end.

(** *** Keyword calls

    [batch_launch_instances] unpacks each config dict into keywords and
    [rolling_update] calls it with explicit keywords, so the binding of
    keywords to the parameters of [launch_instance] is part of the model.  A
    keyword of the signature carries a value of the parameter's type; any other
    keyword carries an arbitrary value. *)

Inductive pyval :=
| PNone
| PStr (s : string)
| PBool (b : bool)
| PInt (z : Z)
| PDicts (l : list (gmap string string)).

Inductive kwarg :=
| kw_name (v : string)
| kw_image_name (v : string)
| kw_flavor_name (v : string)
| kw_network_name (v : option string)
| kw_security_group_name (v : option string)
| kw_key_name (v : option string)
| kw_user_data (v : option string)
| kw_enable_nrdot (v : bool)
| kw_other (key : string) (v : pyval).

Definition unexpected_keyword (k : kwarg) : option string :=
  match k with kw_other key _ => Some key | _ => None end.

(** The last binding of a keyword wins, as in a dict display. *)
Definition kw_lookup {X} (sel : kwarg -> option X) (kws : list kwarg) : option X :=
  last (omap sel kws).

Definition launch_instance_kw (kws : list kwarg) : prog Server :=
  match omap unexpected_keyword kws with
  | key :: _ =>
      Throw (TypeError ("OpenStackAutomation.launch_instance() got an unexpected keyword argument '"
                        +:+ key +:+ "'"))
  | [] =>
      match kw_lookup (fun k => match k with kw_name v => Some v | _ => None end) kws with
      | None =>
          Throw (TypeError
            "OpenStackAutomation.launch_instance() missing 1 required positional argument: 'name'")
      | Some name =>
          launch_instance name
            (default "cirros-0.5.2-x86_64-disk"
               (kw_lookup (fun k => match k with kw_image_name v => Some v | _ => None end) kws))
            (default "m1.small"
               (kw_lookup (fun k => match k with kw_flavor_name v => Some v | _ => None end) kws))
            (default None
               (kw_lookup (fun k => match k with kw_network_name v => Some v | _ => None end) kws))
            (default None
               (kw_lookup (fun k => match k with kw_security_group_name v => Some v | _ => None end) kws))
            (default None
               (kw_lookup (fun k => match k with kw_key_name v => Some v | _ => None end) kws))
            (default None
               (kw_lookup (fun k => match k with kw_user_data v => Some v | _ => None end) kws))
            (default true
               (kw_lookup (fun k => match k with kw_enable_nrdot v => Some v | _ => None end) kws))
      end
  end.

(** *** Config dicts

    [batch_launch_instances] takes a list of dicts and calls
    [launch_instance] with each dict unpacked into keywords.  The keys of a
    dict need not be strings; a dict with a key that is not a string cannot
    be unpacked: the call raises [TypeError] before the callee is entered. *)

Inductive nonstr_key :=
| KNone
| KBool (b : bool)
| KInt (z : Z).

Inductive entry :=
| entry_kw (k : kwarg)
| entry_nonstr (key : nonstr_key) (v : pyval).

Definition keyword_of (e : entry) : option kwarg :=
  match e with entry_kw k => Some k | entry_nonstr _ _ => None end.

Definition string_keys (config : list entry) : bool :=
  forallb (fun e => bool_decide (is_Some (keyword_of e))) config.

(** The keywords of a call with the dict unpacked. *)
Definition unpack (config : list entry) : outcome (list kwarg) :=
  if string_keys config then Ok (omap keyword_of config)
  else Exn (TypeError "keywords must be strings").

(** The first external network of [conn.network.networks()]. *)
Definition first_external (nets : list Network) : option Network :=
  List.find is_router_external nets.

Definition assign_floating_ip (server_name : string) : prog string :=
  server <- invoke (FindServer server_name) ;;
  match server with
  | None => Throw (ValueError ("Server " +:+ server_name +:+ " not found"))
  | Some server =>
  (* Create floating IP *)
  nets <- invoke ListNetworks ;;
  match first_external nets with
  | None => Throw (ValueError "No external network found")
  | Some external_net =>
  floating_ip <- invoke (CreateIp (network_id external_net)) ;;
  log INFO (MsgStr "Created floating IP: {}" (floating_ip_address floating_ip)) ;;
  (* Assign to server *)
  invoke (AddFloatingIpToServer server (floating_ip_address floating_ip)) ;;
  log INFO (MsgStr "Assigned floating IP to {}" (srv_name server)) ;;
  Ret (floating_ip_address floating_ip)
  end end.

Definition attach_volume (server_name volume_name : string) : prog unit :=
  server <- invoke (FindServer server_name) ;;
  volume <- invoke (FindVolume volume_name) ;;
  match server, volume with
  | Some server, Some volume =>
      invoke (CreateVolumeAttachment server (volume_id volume)) ;;
      log INFO (MsgStr2 "Attached volume {} to {}" volume_name server_name)
  | _, _ => Throw (ValueError "Server or volume not found")
  end.

(** [for x in l: if test x: body x] *)
Definition for_when {X} (l : list X) (test : X -> bool) (body : X -> prog unit)
  : prog unit :=
  for_each l (fun x _ => if test x then body x else Ret tt) tt.

Definition cleanup_servers (prefix : string) : prog unit :=
  l <- invoke ListServers ;;
  for_when l (fun server => String.prefix prefix (srv_name server))
    (fun server =>
       invoke (DeleteServer server) ;;
       log INFO (MsgStr "Deleted server: {}" (srv_name server))).

Definition cleanup_volumes (prefix : string) : prog unit :=
  l <- invoke ListVolumes ;;
  for_when l (fun volume => name_matches prefix (volume_name volume))
    (fun volume =>
       invoke (DeleteVolume volume) ;;
       log INFO (MsgStr "Deleted volume: {}" (default "" (volume_name volume)))).

Definition cleanup_floating_ips : prog unit :=
  l <- invoke ListIps ;;
  for_when l (fun fip => negb (truthy (fixed_ip_address fip)))
    (fun fip =>
       invoke (DeleteIp fip) ;;
       log INFO (MsgStr "Deleted floating IP: {}" (floating_ip_address fip))).

Definition cleanup_routers (prefix : string) : prog unit :=
  l <- invoke ListRouters ;;
  for_when l (fun router => name_matches prefix (router_name router))
    (fun router =>
       (* Remove interfaces *)
       ps <- invoke (ListPorts (router_id router)) ;;
       for_when ps (fun port => String.eqb (device_owner port) "network:router_interface")
         (fun port => invoke (RemoveInterfaceFromRouter router (port_id port))) ;;
       invoke (DeleteRouter router) ;;
       log INFO (MsgStr "Deleted router: {}" (default "" (router_name router)))).

Definition cleanup_networks (prefix : string) : prog unit :=
  l <- invoke ListNetworks ;;
  for_when l (fun network => name_matches prefix (network_name network))
    (fun network =>
       invoke (DeleteNetwork network) ;;
       log INFO (MsgStr "Deleted network: {}" (default "" (network_name network)))).

Definition cleanup_security_groups (prefix : string) : prog unit :=
  l <- invoke ListSecurityGroups ;;
  for_when l (fun sg => name_matches prefix (sg_name sg))
    (fun sg =>
       invoke (DeleteSecurityGroup sg) ;;
       log INFO (MsgStr "Deleted security group: {}" (default "" (sg_name sg)))).

(** The six loops of [cleanup_resources], in the order of the source. *)
Definition cleanup_resources (prefix : string) : prog unit :=
  cleanup_servers prefix ;;
  cleanup_volumes prefix ;;
  cleanup_floating_ips ;;
  cleanup_routers prefix ;;
  cleanup_networks prefix ;;
  cleanup_security_groups prefix.

(** * Module [batch_operations]: class [BatchOperations]

    ** Python helpers *)

(** [d[key].append(v)] on a dict of lists. *)
Definition dict_append (d : gmap string (list string)) (key v : string)
  : outcome (gmap string (list string)) :=
  match d !! key with
  | Some l => Ok (<[key := l ++ [v]]> d)
  | None => Exn (KeyError key)
  end.

(** [d[key]] on a dict of strings. *)
Definition dict_get (d : gmap string string) (key : string) : outcome string :=
  match d !! key with
  | Some v => Ok v
  | None => Exn (KeyError key)
  end.

Definition lift_outcome {A} (o : outcome A) : prog A :=
  match o with Ok a => Ret a | Exn e => Throw e end.

(** [range(start, stop, step)] *)
Definition py_range (start stop step : Z) : outcome (list Z) :=
  if step =? 0 then Exn (ValueError "range() arg 3 must not be zero")
  else if 0 <? step then
    Ok (map (fun k => start + Z.of_nat k * step)
            (seq 0 (Z.to_nat ((stop - start + step - 1) / step))))
  else
    Ok (map (fun k => start + Z.of_nat k * step)
            (seq 0 (Z.to_nat ((start - stop - step - 1) / (- step))))).

(** [l[lo:hi]] *)
Definition clamp_index (n i : Z) : Z :=
  if i <? 0 then Z.max 0 (i + n) else Z.min i n.

Definition py_slice {X} (l : list X) (lo hi : Z) : list X :=
  let n := Z.of_nat (length l) in
  let a := clamp_index n lo in
  let b := clamp_index n hi in
  take (Z.to_nat (b - a)) (drop (Z.to_nat a) l).

(** ** Serial operations *)

(** [self.launch_instance] called with the dict [config] unpacked. *)
Definition launch_config (config : list entry) : prog Server :=
  kws <- lift_outcome (unpack config) ;;
  launch_instance_kw kws.

Definition batch_launch_instances_serial (instance_configs : list (list entry))
  : prog (list Server) :=
  for_each instance_configs (fun config servers =>
    try_except
      (server <- launch_config config ;;
       Ret (servers ++ [server]))
      (fun e =>
         log ERROR (MsgExn "Failed to launch instance: {}" e) ;;
         Ret servers))
    [].

Definition resize_one (flavor : Flavor) (new_flavor : string)
    (server_name : string) (results : gmap string (list string))
  : prog (gmap string (list string)) :=
  try_except
    (server <- invoke (FindServer server_name) ;;
     match server with
     | Some server =>
         invoke (ResizeServer server flavor) ;;
         log INFO (MsgStr2 "Resizing {} to {}" server_name new_flavor) ;;
         (* Wait for resize to complete *)
         server <- invoke (WaitForServer server (Some "VERIFY_RESIZE") (Some 300)) ;;
         (* Confirm resize *)
         invoke (ConfirmResizeServer server) ;;
         lift_outcome (dict_append results "success" server_name)
     | None => lift_outcome (dict_append results "failed" server_name)
     end)
    (fun e =>
       log ERROR (MsgStrExn "Failed to resize {}: {}" server_name e) ;;
       lift_outcome (dict_append results "failed" server_name)).

Definition batch_resize_instances (server_names : list string) (new_flavor : string)
  : prog (gmap string (list string)) :=
  let results : gmap string (list string) :=
    <["success" := []]> (<["failed" := []]> ∅) in
  flavor <- invoke (FindFlavor new_flavor) ;;
  match flavor with
  | None => Throw (ValueError ("Flavor " +:+ new_flavor +:+ " not found"))
  | Some flavor =>
      for_each server_names (resize_one flavor new_flavor) results
  end.

(** The body of the [try] in [rolling_update], for one server. *)
Definition replace_server (new_image : string) (server : Server) : prog unit :=
  (* Create snapshot before update *)
  t <- invoke Now ;;
  let snapshot_name := srv_name server +:+ "-pre-update-" +:+ pretty t in
  invoke (CreateServerImage server snapshot_name) ;;
  log INFO (MsgStr "Created pre-update snapshot: {}" snapshot_name) ;;
  (* Get server details *)
  networks <- for_each (srv_networks server) (fun net acc =>
                uuid <- lift_outcome (dict_get net "uuid") ;;
                Ret (acc ++ [ ({[ "uuid" := uuid ]} : gmap string string) ])) [] ;;
  (* Delete old instance *)
  invoke (DeleteServer server) ;;
  invoke (WaitForDelete server) ;;
  log INFO (MsgStr "Deleted old instance: {}" (srv_name server)) ;;
  (* Create new instance with same name *)
  original_name <- lift_outcome (dict_get (srv_flavor server) "original_name") ;;
  new_server <- launch_instance_kw [
                  kw_name (srv_name server);
                  kw_image_name new_image;
                  kw_flavor_name original_name;
                  kw_other "networks" (PDicts networks) ] ;;
  log INFO (MsgStr "Created new instance: {}" (srv_name new_server)).

Definition update_one (new_image : string) (server : Server) : prog unit :=
  try_except (replace_server new_image server)
    (fun e => log ERROR (MsgStrExn "Failed to update {}: {}" (srv_name server) e)).

Definition rolling_window (new_image : string) (batch_size : Z)
    (servers : list Server) (i : Z) : prog unit :=
  let batch := py_slice servers i (i + batch_size) in
  log INFO (MsgNames "Processing batch: {}" (map srv_name batch)) ;;
  for_each batch (fun server _ => update_one new_image server) tt ;;
  (* Wait before next batch *)
  if i + batch_size <? Z.of_nat (length servers) then
    log INFO (Msg "Waiting 30 seconds before next batch...") ;;
    invoke (Sleep 30)
  else Ret tt.

Definition rolling_update (server_prefix new_image : string) (batch_size : Z)
  : prog unit :=
  (* Get all servers matching prefix *)
  all <- invoke ListServers ;;
  let servers := List.filter (fun s => String.prefix server_prefix (srv_name s)) all in
  match servers with
  | [] => log WARNING (MsgStr "No servers found with prefix: {}" server_prefix)
  | _ :: _ =>
      (* Process in batches *)
      starts <- lift_outcome (py_range 0 (Z.of_nat (length servers)) batch_size) ;;
      for_each starts (fun i _ => rolling_window new_image batch_size servers i) tt
  end.

Definition _check_instance_health (server_name : string) : prog string :=
  server <- invoke (FindServer server_name) ;;
  match server with
  | None => Ret "unknown"
  | Some server =>
      (* Check server status *)
      if negb (String.eqb (srv_status server) "ACTIVE") then Ret "unhealthy"
      (* Check if server has IP *)
      else if bool_decide (srv_addresses server = ∅) then Ret "unhealthy"
      else Ret "healthy"
  end.

(** ** The worker pool

    [concurrent.futures.ThreadPoolExecutor(max_workers)]: submitted tasks are
    taken from a FIFO queue by at most [max_workers] threads.  A future is the
    number of its submission.  A worker thread advances by one call at a time;
    which thread advances next is decided by a schedule, so every interleaving
    of the workers' calls is a run of the pool. *)

Record pool (T : Type) := Pool {
  running : list (nat * prog T);
  queued : list (nat * prog T);
  finished : list (nat * outcome T);
  submitted : nat
}.
Arguments Pool {T}. Arguments running {T}. Arguments queued {T}.
Arguments finished {T}. Arguments submitted {T}.

Definition empty_pool {T} : pool T := Pool [] [] [] 0%nat.

Definition submit {T} (max_workers : nat) (task : prog T) (pl : pool T)
  : nat * pool T :=
  let future := submitted pl in
  if (length (running pl) <? max_workers)%nat
  then (future, Pool (running pl ++ [(future, task)]) (queued pl)
                     (finished pl) (S future))
  else (future, Pool (running pl) (queued pl ++ [(future, task)])
                     (finished pl) (S future)).

(** The thread at position [i] is done: its future gets the outcome and the
    thread takes the next queued task. *)
Definition retire {T} (i : nat) (future : nat) (o : outcome T) (pl : pool T)
  : pool T :=
  Pool (delete i (running pl) ++ take 1 (queued pl))
       (drop 1 (queued pl))
       (finished pl ++ [(future, o)])
       (submitted pl).

Section Executor.
Context {B : Type} (sdk : Sdk B).

(** One step of the worker thread chosen by [pick]. *)
Definition worker_step {T} (pick : nat) (pl : pool T) (w : world B)
  : pool T * world B :=
  let i := (pick mod length (running pl))%nat in
  match running pl !! i with
  | None => (pl, w)
  | Some (future, Ret a) => (retire i future (Ok a) pl, w)
  | Some (future, Throw e) => (retire i future (Exn e) pl, w)
  | Some (future, Do c k) =>
      let '(o, w') := perform sdk c w in
      (Pool (<[i := (future, k o)]> (running pl)) (queued pl)
            (finished pl) (submitted pl), w')
  end.

Fixpoint worker_steps {T} (picks : list nat) (pl : pool T) (w : world B)
  : pool T * world B :=
  match picks with
  | [] => (pl, w)
  | pick :: picks' =>
      let '(pl', w') := worker_step pick pl w in
      worker_steps picks' pl' w'
  end.

(** Run the given tasks to their end, one after the other. *)
Fixpoint run_all {T} (l : list (nat * prog T)) (w : world B)
  : list (nat * outcome T) * world B :=
  match l with
  | [] => ([], w)
  | (future, p) :: l' =>
      let '(o, w1) := run sdk p w in
      let '(r, w2) := run_all l' w1 in
      ((future, o) :: r, w2)
  end.

(** Wait until every submitted task is done: the workers follow the
    schedule, and what is still unfinished when the schedule ends is run to
    its end. *)
Definition drain {T} (picks : list nat) (pl : pool T) (w : world B)
  : pool T * world B :=
  let '(pl1, w1) := worker_steps picks pl w in
  let '(r, w2) := run_all (running pl1 ++ queued pl1) w1 in
  (Pool [] [] (finished pl1 ++ r) (submitted pl1), w2).
End Executor.

(** The order in which [as_completed] hands out futures that are done: any
    order, chosen by [picks]. *)
Fixpoint pick_order {X} (n : nat) (picks : list nat) (l : list X) : list X :=
  match n with
  | O => []
  | S n' =>
      let i := (hd 0%nat picks mod length l)%nat in
      match l !! i with
      | Some x => x :: pick_order n' (tl picks) (delete i l)
      | None => []
      end
  end.

Definition as_completed_order {X} (picks : list nat) (l : list X) : list X :=
  pick_order (length l) picks l.

(** ** Programs of the thread that owns the executor

    The calling thread makes calls of its own, submits tasks and collects
    futures with [as_completed]. *)

Inductive mprog (T A : Type) : Type :=
| MRet (a : A)
| MThrow (e : exn)
| MDo (c : call) (k : outcome (answer c) -> mprog T A)
| MSubmit (task : prog T) (k : nat -> mprog T A)
| MAsCompleted (fs : list nat) (k : list (nat * outcome T) -> mprog T A).
Arguments MRet {T A} a.
Arguments MThrow {T A} e.
Arguments MDo {T A} c k.
Arguments MSubmit {T A} task k.
Arguments MAsCompleted {T A} fs k.

Fixpoint mbind_ {T A C} (m : mprog T A) (f : A -> mprog T C) : mprog T C :=
  match m with
  | MRet a => f a
  | MThrow e => MThrow e
  | MDo c k => MDo c (fun o => mbind_ (k o) f)
  | MSubmit t k => MSubmit t (fun i => mbind_ (k i) f)
  | MAsCompleted fs k => MAsCompleted fs (fun r => mbind_ (k r) f)
  end.

Fixpoint mtry_except {T A} (m : mprog T A) (h : exn -> mprog T A) : mprog T A :=
  match m with
  | MRet a => MRet a
  | MThrow e => h e
  | MDo c k => MDo c (fun o => mtry_except (k o) h)
  | MSubmit t k => MSubmit t (fun i => mtry_except (k i) h)
  | MAsCompleted fs k => MAsCompleted fs (fun r => mtry_except (k r) h)
  end.

Declare Scope mprog_scope.
Delimit Scope mprog_scope with mprog.
Bind Scope mprog_scope with mprog.
Notation "x <- p ;; q" := (mbind_ p (fun x => q))
  (at level 100, p at next level, right associativity) : mprog_scope.
Notation "p ;; q" := (mbind_ p (fun _ => q))
  (at level 100, right associativity) : mprog_scope.

Definition minvoke {T} (c : call) : mprog T (answer c) :=
  MDo c (fun o => match o with Ok r => MRet r | Exn e => MThrow e end).

Definition mlog {T} (lvl : level) (m : log_msg) : mprog T unit :=
  minvoke (Log lvl m).

Definition executor_submit {T} (task : prog T) : mprog T nat :=
  MSubmit task MRet.

Definition as_completed {T} (fs : list nat) : mprog T (list (nat * outcome T)) :=
  MAsCompleted fs MRet.

(** [future.result()] *)
Definition future_result {T} (o : outcome T) : mprog T T :=
  match o with Ok a => MRet a | Exn e => MThrow e end.

Definition mlift_outcome {T A} (o : outcome A) : mprog T A :=
  match o with Ok a => MRet a | Exn e => MThrow e end.

Fixpoint mfor_each {T X S} (l : list X) (body : X -> S -> mprog T S) (s : S)
  : mprog T S :=
  match l with
  | [] => MRet s
  | x :: l' => mbind_ (body x s) (fun s' => mfor_each l' body s')
  end.

(** How the threads interleave: [bursts] gives, before each step of the
    calling thread, the worker steps that happen first; [completion] orders
    the futures handed out by [as_completed]. *)
Record schedule := Schedule {
  bursts : list (list nat);
  completion : list nat
}.

Record exec_state (B T : Type) := ExecState {
  es_sched : schedule;
  es_pool : pool T;
  es_world : world B
}.
Arguments ExecState {B T}. Arguments es_sched {B T}. Arguments es_pool {B T}.
Arguments es_world {B T}.

Section RunExecutor.
Context {B : Type} (sdk : Sdk B).

(** The workers run the next burst of the schedule. *)
Definition interleave {T} (st : exec_state B T) : exec_state B T :=
  let sc := es_sched st in
  let '(pl, w) := worker_steps sdk (hd [] (bursts sc)) (es_pool st) (es_world st) in
  ExecState (Schedule (tl (bursts sc)) (completion sc)) pl w.

Fixpoint mrun {T A} (max_workers : nat) (m : mprog T A) (st : exec_state B T)
  : outcome A * exec_state B T :=
  match m with
  | MRet a => (Ok a, st)
  | MThrow e => (Exn e, st)
  | MDo c k =>
      let st1 := interleave st in
      let '(o, w') := perform sdk c (es_world st1) in
      mrun max_workers (k o) (ExecState (es_sched st1) (es_pool st1) w')
  | MSubmit task k =>
      let st1 := interleave st in
      let '(future, pl') := submit max_workers task (es_pool st1) in
      mrun max_workers (k future) (ExecState (es_sched st1) pl' (es_world st1))
  | MAsCompleted fs k =>
      let sc := es_sched st in
      let '(pl, w) := drain sdk (concat (bursts sc)) (es_pool st) (es_world st) in
      let done := List.filter (fun r => bool_decide (fst r ∈ fs)) (finished pl) in
      mrun max_workers (k (as_completed_order (completion sc) done))
           (ExecState (Schedule [] (completion sc)) pl w)
  end.

(** [with ThreadPoolExecutor(max_workers=...) as executor: body]: leaving
    the block waits for the tasks that are still pending. *)
Definition with_executor {T A} (max_workers : Z) (body : mprog T A)
    (sc : schedule) (w : world B) : outcome A * world B :=
  if max_workers <=? 0
  then (Exn (ValueError "max_workers must be greater than 0"), w)
  else
    let '(o, st) := mrun (Z.to_nat max_workers) body (ExecState sc empty_pool w) in
    let '(_, w') := drain sdk (concat (bursts (es_sched st))) (es_pool st) (es_world st) in
    (o, w').
End RunExecutor.

(** ** Parallel operations

    In the source the calling thread resumes inside [as_completed] each time
    a future is done; after [as_completed] it only reads results, logs and
    appends, so the model lets it resume when all futures are done. *)

Record Snapshot := { snap_name : string; snap_id : string }.

(** [futures[future]] on a dict keyed by futures. *)
Definition future_get {T} (futures : gmap nat string) (future : nat) : mprog T string :=
  match futures !! future with
  | Some v => MRet v
  | None => MThrow (KeyError (pretty future))
  end.

(** The dict is unpacked by the call of [executor.submit], in the calling
    thread and outside any [try]; the worker gets the keywords. *)
Definition batch_launch_instances_parallel (instance_configs : list (list entry))
  : mprog Server (list Server) :=
  (futures <- mfor_each instance_configs (fun config futures =>
                kws <- mlift_outcome (unpack config) ;;
                future <- executor_submit (launch_instance_kw kws) ;;
                MRet (futures ++ [future])) [] ;;
   done <- as_completed futures ;;
   mfor_each done (fun r servers =>
     mtry_except
       (server <- future_result (snd r) ;;
        MRet (servers ++ [server]))
       (fun e =>
          mlog ERROR (MsgExn "Failed to launch instance: {}" e) ;;
          MRet servers)) [])%mprog.

Definition batch_snapshot_instances_body (server_names : list string)
  : mprog string (list Snapshot) :=
  (futures <- mfor_each server_names (fun server_name futures =>
                server <- minvoke (FindServer server_name) ;;
                match server with
                | Some server =>
                    t <- minvoke Now ;;
                    let snapshot_name := server_name +:+ "-snapshot-" +:+ pretty t in
                    future <- executor_submit
                                (invoke (CreateServerImage server snapshot_name)) ;;
                    MRet (<[future := snapshot_name]> futures)
                | None => MRet futures
                end) (∅ : gmap nat string) ;;
   done <- as_completed (elements (dom futures)) ;;
   mfor_each done (fun r snapshots =>
     snapshot_name <- future_get futures (fst r) ;;
     mtry_except
       (image_id <- future_result (snd r) ;;
        mlog INFO (MsgStr "Created snapshot: {}" snapshot_name) ;;
        MRet (snapshots ++ [ {| snap_name := snapshot_name; snap_id := image_id |} ]))
       (fun e =>
          mlog ERROR (MsgStrExn "Failed to create snapshot {}: {}" snapshot_name e) ;;
          MRet snapshots)) [])%mprog.

Definition health_check_instances_body (server_names : list string)
  : mprog string (gmap string (list string)) :=
  (futures <- mfor_each server_names (fun server_name futures =>
                future <- executor_submit (_check_instance_health server_name) ;;
                MRet (<[future := server_name]> futures)) (∅ : gmap nat string) ;;
   done <- as_completed (elements (dom futures)) ;;
   mfor_each done (fun r health_status =>
     server_name <- future_get futures (fst r) ;;
     mtry_except
       (status <- future_result (snd r) ;;
        mlift_outcome (dict_append health_status status server_name))
       (fun e =>
          mlog ERROR (MsgStrExn "Failed to check health of {}: {}" server_name e) ;;
          mlift_outcome (dict_append health_status "unknown" server_name)))
     (<["healthy" := []]> (<["unhealthy" := []]> (<["unknown" := []]> ∅))))%mprog.

Section BatchOperations.
Context {B : Type} (sdk : Sdk B).
(** [self.max_workers] *)
Variable max_workers : Z.

Definition batch_launch_instances (instance_configs : list (list entry))
    (parallel : bool) (sc : schedule) (w : world B)
  : outcome (list Server) * world B :=
  if parallel
  then with_executor sdk max_workers
         (batch_launch_instances_parallel instance_configs) sc w
  else run sdk (batch_launch_instances_serial instance_configs) w.

Definition batch_snapshot_instances (server_names : list string)
    (sc : schedule) (w : world B) : outcome (list Snapshot) * world B :=
  with_executor sdk max_workers (batch_snapshot_instances_body server_names) sc w.

Definition health_check_instances (server_names : list string)
    (sc : schedule) (w : world B)
  : outcome (gmap string (list string)) * world B :=
  with_executor sdk max_workers (health_check_instances_body server_names) sc w.
End BatchOperations.

(** * A small in-memory cloud

    A concrete backend to run the methods on: servers, images, flavors,
    security groups, volumes, networks and floating IPs are lists, a clock
    ticks with each command, and some lookups can be made to fail. *)

Record Cloud := {
  c_servers : list Server;
  c_images : list (string * Image);
  c_flavors : list (string * Flavor);
  c_networks : list Network;
  c_security_groups : list SecurityGroup;
  c_volumes : list Volume;
  c_ips : list FloatingIp;
  c_routers : list Router;
  c_snapshots : list string;
  c_clock : Z;
  c_broken_servers : list string
}.

Definition assoc {X} (k : string) (l : list (string * X)) : option X :=
  snd <$> List.find (fun p => String.eqb (fst p) k) l.

Definition tick (c : Cloud) : Cloud :=
  {| c_servers := c_servers c; c_images := c_images c; c_flavors := c_flavors c;
     c_networks := c_networks c; c_security_groups := c_security_groups c;
     c_volumes := c_volumes c; c_ips := c_ips c; c_routers := c_routers c;
     c_snapshots := c_snapshots c; c_clock := c_clock c + 1;
     c_broken_servers := c_broken_servers c |}.

Definition with_servers (l : list Server) (c : Cloud) : Cloud :=
  {| c_servers := l; c_images := c_images c; c_flavors := c_flavors c;
     c_networks := c_networks c; c_security_groups := c_security_groups c;
     c_volumes := c_volumes c; c_ips := c_ips c; c_routers := c_routers c;
     c_snapshots := c_snapshots c; c_clock := c_clock c + 1;
     c_broken_servers := c_broken_servers c |}.

Definition with_ips (l : list FloatingIp) (c : Cloud) : Cloud :=
  {| c_servers := c_servers c; c_images := c_images c; c_flavors := c_flavors c;
     c_networks := c_networks c; c_security_groups := c_security_groups c;
     c_volumes := c_volumes c; c_ips := l; c_routers := c_routers c;
     c_snapshots := c_snapshots c; c_clock := c_clock c + 1;
     c_broken_servers := c_broken_servers c |}.

Definition with_snapshot (n : string) (c : Cloud) : Cloud :=
  {| c_servers := c_servers c; c_images := c_images c; c_flavors := c_flavors c;
     c_networks := c_networks c; c_security_groups := c_security_groups c;
     c_volumes := c_volumes c; c_ips := c_ips c; c_routers := c_routers c;
     c_snapshots := c_snapshots c ++ [n]; c_clock := c_clock c + 1;
     c_broken_servers := c_broken_servers c |}.

Definition same_server (a b : Server) : bool := String.eqb (srv_id a) (srv_id b).

Definition cloud_sdk : Sdk Cloud := {|
  find_server c n :=
    if bool_decide (n ∈ c_broken_servers c) then Exn (SdkError "connection reset")
    else Ok (List.find (fun s => String.eqb (srv_name s) n) (c_servers c));
  find_flavor c n := Ok (assoc n (c_flavors c));
  find_image c n := Ok (assoc n (c_images c));
  find_network c n :=
    Ok (List.find (fun x => bool_decide (network_name x = Some n)) (c_networks c));
  find_security_group c n :=
    Ok (List.find (fun x => bool_decide (sg_name x = Some n)) (c_security_groups c));
  find_volume c n :=
    Ok (List.find (fun x => bool_decide (volume_name x = Some n)) (c_volumes c));
  servers c := Ok (c_servers c);
  volumes c := Ok (c_volumes c);
  ips c := Ok (c_ips c);
  routers c := Ok (c_routers c);
  networks c := Ok (c_networks c);
  security_groups c := Ok (c_security_groups c);
  ports c d := Ok [];
  create_server c a :=
    let s := {| srv_id := "srv-" +:+ pretty (c_clock c); srv_name := cs_name a;
                srv_status := "BUILD"; srv_addresses := ∅;
                srv_flavor := {[ "original_name" := cs_flavor_id a ]};
                srv_networks := cs_networks a |} in
    (Ok s, with_servers (c_servers c ++ [s]) c);
  wait_for_server c s st wt :=
    let s' := {| srv_id := srv_id s; srv_name := srv_name s;
                 srv_status := default "ACTIVE" st;
                 srv_addresses := srv_addresses s; srv_flavor := srv_flavor s;
                 srv_networks := srv_networks s |} in
    (Ok s', with_servers (map (fun x => if same_server x s then s' else x) (c_servers c)) c);
  resize_server c s f :=
    if bool_decide (srv_status s = "ERROR")
    then (Exn (SdkError "cannot resize a server in ERROR state"), tick c)
    else (Ok tt, tick c);
  confirm_resize_server c s := (Ok tt, tick c);
  create_server_image c s n := (Ok ("img-" +:+ n), with_snapshot n c);
  delete_server c s :=
    (Ok tt, with_servers (List.filter (fun x => negb (same_server x s)) (c_servers c)) c);
  wait_for_delete c s := (Ok tt, tick c);
  create_ip c n :=
    let ip := {| fip_id := "fip-" +:+ pretty (c_clock c);
                 floating_ip_address := "172.24.4." +:+ pretty (c_clock c);
                 fixed_ip_address := None |} in
    (Ok ip, with_ips (c_ips c ++ [ip]) c);
  add_floating_ip_to_server c s a := (Ok tt, tick c);
  create_volume_attachment c s v := (Ok tt, tick c);
  delete_volume c v := (Ok tt, tick c);
  delete_ip c i :=
    (Ok tt, with_ips (List.filter (fun x => negb (String.eqb (fip_id x) (fip_id i))) (c_ips c)) c);
  remove_interface_from_router c r p := (Ok tt, tick c);
  delete_router c r := (Ok tt, tick c);
  delete_network c n := (Ok tt, tick c);
  delete_security_group c g := (Ok tt, tick c);
  getenv c k := None;
  now c := c_clock c;
  sleep c n :=
    {| c_servers := c_servers c; c_images := c_images c; c_flavors := c_flavors c;
       c_networks := c_networks c; c_security_groups := c_security_groups c;
       c_volumes := c_volumes c; c_ips := c_ips c; c_routers := c_routers c;
       c_snapshots := c_snapshots c; c_clock := c_clock c + n;
       c_broken_servers := c_broken_servers c |}
|}.

Definition mk_server (n status : string) (addrs : gmap string (list string)) : Server :=
  {| srv_id := "id-" +:+ n; srv_name := n; srv_status := status;
     srv_addresses := addrs;
     srv_flavor := {[ "original_name" := "m1.small" ]};
     srv_networks := [ {[ "uuid" := "net-1" ]} ] |}.

Definition addr1 : gmap string (list string) := {[ "private" := ["10.0.0.5"] ]}.

Definition demo_cloud : Cloud := {|
  c_servers := [ mk_server "web-1" "ACTIVE" addr1;
                 mk_server "web-2" "SHUTOFF" addr1;
                 mk_server "web-3" "ACTIVE" ∅;
                 mk_server "web-4" "ACTIVE" addr1;
                 mk_server "web-5" "ERROR" addr1;
                 mk_server "db-1" "ACTIVE" addr1 ];
  c_images := [ ("cirros-0.5.2-x86_64-disk", {| image_id := "img-cirros" |});
                ("ubuntu-20.04", {| image_id := "img-ubuntu" |}) ];
  c_flavors := [ ("m1.small", {| flavor_id := "2" |});
                 ("m1.large", {| flavor_id := "4" |}) ];
  c_networks := [ {| network_id := "net-1"; network_name := Some "auto-app-network";
                     is_router_external := false |};
                  {| network_id := "net-ext"; network_name := Some "public";
                     is_router_external := true |} ];
  c_security_groups := [ {| sg_id := "sg-1"; sg_name := Some "auto-app-sg" |} ];
  c_volumes := [ {| volume_id := "vol-1"; volume_name := Some "auto-data-volume" |};
                 {| volume_id := "vol-2"; volume_name := None |} ];
  c_ips := [ {| fip_id := "fip-a"; floating_ip_address := "172.24.4.10";
                fixed_ip_address := Some "10.0.0.5" |};
             {| fip_id := "fip-b"; floating_ip_address := "172.24.4.11";
                fixed_ip_address := None |};
             {| fip_id := "fip-c"; floating_ip_address := "172.24.4.12";
                fixed_ip_address := Some "" |} ];
  c_routers := [ {| router_id := "r-1"; router_name := Some "auto-app-network-router" |} ];
  c_snapshots := [];
  c_clock := 1700000000;
  c_broken_servers := [ "ghost" ]
|}.

Definition demo_world : world Cloud := World demo_cloud [].

(** * Observations on runs

    The outcome of a program started on backend [b], the backend it leaves
    and the calls it issues. *)

Section Observations.
Context {B : Type} (sdk : Sdk B).

Definition result {A} (p : prog A) (b : B) : outcome A :=
  fst (run sdk p (World b [])).
Definition after {A} (p : prog A) (b : B) : B :=
  backend (snd (run sdk p (World b []))).
Definition calls {A} (p : prog A) (b : B) : list call :=
  trace (snd (run sdk p (World b []))).
End Observations.

(** Programs whose calls all satisfy a property. *)
Inductive only (P : call -> Prop) {A} : prog A -> Prop :=
| only_Ret a : only P (Ret a)
| only_Throw e : only P (Throw e)
| only_Do c k : P c -> (forall o, only P (k o)) -> only P (Do c k).

(** * Windows of a rolling update

    The calls that mark the windows in a trace: the log line that opens a
    window and the pauses. *)

Definition is_window_event (c : call) : bool :=
  match c with
  | Log _ (MsgNames _ _) => true
  | Sleep _ => true
  | _ => false
  end.

Definition window_events (t : list call) : list call :=
  List.filter is_window_event t.

Definition window_start (batch : list Server) : call :=
  Log INFO (MsgNames "Processing batch: {}" (map srv_name batch)).

(** Consecutive windows of [size] items; the last one may be shorter. *)
Definition windows {X} (size : nat) (l : list X) : list (list X) :=
  map (fun k => take size (drop (k * size) l))
      (seq 0 ((length l + size - 1) / size))%nat.

Definition is_create_server (c : call) : bool :=
  match c with CreateServer _ => true | _ => false end.

Definition deletes_server (name : string) (c : call) : bool :=
  match c with
  | DeleteServer s => String.eqb (srv_name s) name
  | _ => false
  end.

(** What the window that starts at index [i] contributes to the window
    events of [rolling_update]. *)
Definition window_trace (batch_size : Z) (servers : list Server) (i : Z)
  : list call :=
  window_start (py_slice servers i (i + batch_size))
  :: (if i + batch_size <? Z.of_nat (length servers) then [Sleep 30] else []).

(** * What [cleanup_resources] may delete *)

Definition is_delete_ip (c : call) : bool :=
  match c with DeleteIp _ => true | _ => false end.

(** A floating IP with no fixed address: [not fip.fixed_ip_address]. *)
Definition unattached (fip : FloatingIp) : bool :=
  negb (truthy (fixed_ip_address fip)).

(** The deletions that are in the scope of [cleanup_resources(prefix)]:
    named resources whose name starts with the prefix, and floating IPs that
    are not attached. *)
Definition cleanup_scope (prefix : string) (c : call) : Prop :=
  match c with
  | DeleteServer s => String.prefix prefix (srv_name s) = true
  | DeleteVolume v => name_matches prefix (volume_name v) = true
  | DeleteRouter r => name_matches prefix (router_name r) = true
  | DeleteNetwork n => name_matches prefix (network_name n) = true
  | DeleteSecurityGroup g => name_matches prefix (sg_name g) = true
  | DeleteIp fip => unattached fip = true
  | _ => True
  end.

(** The floating IPs deleted in a trace, by id. *)
Definition deleted_ip_ids (t : list call) : list string :=
  omap (fun c => match c with DeleteIp fip => Some (fip_id fip) | _ => None end) t.

(** * Invariants of the worker pool

    [Q i p]: what the unfinished task of future [i] may be; [F i o]: what the
    finished future [i] may hold.  Every future submitted so far is either
    unfinished or finished, once. *)

Section PoolInvariant.
Context {T : Type}.
Variable Q : nat -> prog T -> Prop.
Variable F : nat -> outcome T -> Prop.

Definition pool_ok (pl : pool T) : Prop :=
  Forall (fun t => Q (fst t) (snd t)) (running pl ++ queued pl)
  /\ Forall (fun r => F (fst r) (snd r)) (finished pl)
  /\ Permutation (map fst (running pl ++ queued pl) ++ map fst (finished pl))
                 (seq 0 (submitted pl)).

(** Nothing is left to run. *)
Definition pool_idle (pl : pool T) : Prop :=
  running pl = [] /\ queued pl = [].
End PoolInvariant.

(** * Health classification

    The bucket a name falls in on backend [b]: the status returned by
    [_check_instance_health], or [unknown] when the check raises. *)

Definition health_of {B} (sdk : Sdk B) (b : B) (name : string) : string :=
  match result sdk (_check_instance_health name) b with
  | Ok status => status
  | Exn _ => "unknown"
  end.

Definition bucket {B} (sdk : Sdk B) (b : B) (status : string)
    (names : list string) : list string :=
  List.filter (fun n => String.eqb (health_of sdk b n) status) names.

(** The dict [{'healthy': h, 'unhealthy': u, 'unknown': k}]. *)
Definition three_buckets (h u k : list string) : gmap string (list string) :=
  <["healthy" := h]> (<["unhealthy" := u]> (<["unknown" := k]> ∅)).


(** The state of an executor whose workers follow the invariant. *)
Definition st_ok {B T} (I : world B -> Prop) (Q : nat -> prog T -> Prop)
    (F : nat -> outcome T -> Prop) (st : exec_state B T) : Prop :=
  I (es_world st) /\ pool_ok Q F (es_pool st).

(** Invariants of a health check of [names] started on backend [b0]: the
    workers only query, so the backend stays [b0]; the task of future [i]
    will end as the check of the [i]-th name on [b0] does. *)
Section HealthInvariant.
Context {B : Type} (sdk : Sdk B) (names : list string) (b0 : B).

Definition health_world (w : world B) : Prop := backend w = b0.

Definition health_task (i : nat) (p : prog string) : Prop :=
  exists n, names !! i = Some n
    /\ only (fun c => is_query c = true) p
    /\ result sdk p b0 = result sdk (_check_instance_health n) b0.

Definition health_future (i : nat) (o : outcome string) : Prop :=
  exists n, names !! i = Some n
    /\ o = result sdk (_check_instance_health n) b0.
End HealthInvariant.

(** * Further properties: what the calls of an operation may be *)

(** The resize, wait and confirm calls that [batch_resize_instances] may
    issue for target flavor [flavor]: every resize asks for that flavor, every
    wait is for [VERIFY_RESIZE] with a timeout of 300. *)
Definition resize_call_ok (flavor : Flavor) (c : call) : Prop :=
  match c with
  | ResizeServer _ f => f = flavor
  | WaitForServer _ status wait => status = Some "VERIFY_RESIZE" /\ wait = Some 300
  | FindServer _ | ConfirmResizeServer _ | Log _ _ => True
  | _ => False
  end.

Definition is_list_servers (c : call) : bool :=
  match c with ListServers => true | _ => false end.

(** The name [rolling_update] gives to the snapshot it takes of [server]
    before replacing it, at clock reading [t]. *)
Definition pre_update_name (server : Server) (t : Z) : string :=
  srv_name server +:+ "-pre-update-" +:+ pretty t.

(** Deletions by name spare what has no name: the resource deleted has a
    non-empty name. *)
Definition deletes_named_only (c : call) : Prop :=
  match c with
  | DeleteVolume v => truthy (volume_name v) = true
  | DeleteRouter r => truthy (router_name r) = true
  | DeleteNetwork n => truthy (network_name n) = true
  | DeleteSecurityGroup g => truthy (sg_name g) = true
  | _ => True
  end.

Definition is_delete_server (c : call) : bool :=
  match c with DeleteServer _ => true | _ => false end.

(** The in-memory cloud with commands that can be made to fail: attaching a
    floating IP, deleting a server. *)
Definition faulty_cloud_sdk (fail_attach fail_delete : bool) : Sdk Cloud := {|
  find_server := find_server cloud_sdk; find_flavor := find_flavor cloud_sdk;
  find_image := find_image cloud_sdk; find_network := find_network cloud_sdk;
  find_security_group := find_security_group cloud_sdk;
  find_volume := find_volume cloud_sdk; servers := servers cloud_sdk;
  volumes := volumes cloud_sdk; ips := ips cloud_sdk;
  routers := routers cloud_sdk; networks := networks cloud_sdk;
  security_groups := security_groups cloud_sdk; ports := ports cloud_sdk;
  create_server := create_server cloud_sdk;
  wait_for_server := wait_for_server cloud_sdk;
  resize_server := resize_server cloud_sdk;
  confirm_resize_server := confirm_resize_server cloud_sdk;
  create_server_image := create_server_image cloud_sdk;
  delete_server c s :=
    if fail_delete then (Exn (SdkError "server is locked"), tick c)
    else delete_server cloud_sdk c s;
  wait_for_delete := wait_for_delete cloud_sdk;
  create_ip := create_ip cloud_sdk;
  add_floating_ip_to_server c s a :=
    if fail_attach then (Exn (SdkError "port not found"), tick c)
    else add_floating_ip_to_server cloud_sdk c s a;
  create_volume_attachment := create_volume_attachment cloud_sdk;
  delete_volume := delete_volume cloud_sdk; delete_ip := delete_ip cloud_sdk;
  remove_interface_from_router := remove_interface_from_router cloud_sdk;
  delete_router := delete_router cloud_sdk;
  delete_network := delete_network cloud_sdk;
  delete_security_group := delete_security_group cloud_sdk;
  getenv := getenv cloud_sdk; now := now cloud_sdk; sleep := sleep cloud_sdk
|}.

(** * Assigned addresses

    [server.addresses] maps each network the server is attached to to the
    list of its addresses on that network.  The server has an address when
    one of these lists is not empty. *)
Definition has_address (server : Server) : Prop :=
  exists net addrs, srv_addresses server !! net = Some addrs /\ addrs <> [].

(** Attached to the network [private], with no address on it:
    [{'private': []}]. *)
Definition no_addr : gmap string (list string) := {[ "private" := [] ]}.

(** The demo cloud with one more server, [api-1]: [ACTIVE], attached to a
    network, without an address. *)
Definition unaddressed_cloud : Cloud :=
  with_servers (c_servers demo_cloud ++ [mk_server "api-1" "ACTIVE" no_addr])
    demo_cloud.

(** * Progress of a rolling update

    What a trace shows of the order of the work: a window is opened (the log
    line that announces its names), a server is taken up (its pre-update
    snapshot is requested, the first command [rolling_update] issues for a
    server) and the run pauses. *)
Inductive step :=
| OpenWindow (names : list string)
| Process (server : Server)
| Pause (seconds : Z).

Definition step_of (c : call) : option step :=
  match c with
  | Log _ (MsgNames _ names) => Some (OpenWindow names)
  | CreateServerImage server _ => Some (Process server)
  | Sleep seconds => Some (Pause seconds)
  | _ => None
  end.

Definition progress (t : list call) : list step := omap step_of t.

(** A window: it is opened, then its servers are taken up one after the
    other. *)
Definition window_steps (batch : list Server) : list step :=
  OpenWindow (map srv_name batch) :: map Process batch.

(** A 30 second pause between consecutive windows, none after the last. *)
Fixpoint pauses_between (ws : list (list step)) : list step :=
  match ws with
  | [] => []
  | [w] => w
  | w :: rest => w ++ Pause 30 :: pauses_between rest
  end.

(** What the window that starts at index [i] contributes to the progress of
    [rolling_update]. *)
Definition window_progress (batch_size : Z) (servers : list Server) (i : Z)
  : list step :=
  window_steps (py_slice servers i (i + batch_size))
  ++ (if i + batch_size <? Z.of_nat (length servers) then [Pause 30] else []).

(** * Accounting for a batch launch *)

(** The outcomes a program can end with, over the answers its calls may
    get. *)
Inductive may_end {A} : prog A -> outcome A -> Prop :=
| may_end_Ret a : may_end (Ret a) (Ok a)
| may_end_Throw e : may_end (Throw e) (Exn e)
| may_end_Do c k r o : may_end (k r) o -> may_end (Do c k) o.

Definition successes {A} (os : list (outcome A)) : list A :=
  omap (fun o => match o with Ok a => Some a | Exn _ => None end) os.

Definition failures {A} (os : list (outcome A)) : list exn :=
  omap (fun o => match o with Ok _ => None | Exn e => Some e end) os.

(** The exception of a launch that failed, as [batch_launch_instances] logs
    it. *)
Definition launch_failure (c : call) : option exn :=
  match c with
  | Log ERROR (MsgExn text e) =>
      if String.eqb text "Failed to launch instance: {}" then Some e else None
  | _ => None
  end.

Definition launch_failures (t : list call) : list exn := omap launch_failure t.

(** Invariants of a parallel launch of [configs] started with trace [t0]:
    the workers log no launch failure; the task of future [i] is what is left
    of the launch of the [i]-th config. *)
Section LaunchInvariant.
Context {B : Type} (configs : list (list entry)) (t0 : list call).

Definition launch_world (w : world B) : Prop :=
  exists t, trace w = t0 ++ t /\ launch_failures t = [].

Definition launch_task (i : nat) (p : prog Server) : Prop :=
  exists config, configs !! i = Some config
    /\ only (fun c => launch_failure c = None) p
    /\ forall o, may_end p o -> may_end (launch_config config) o.

Definition launch_future (i : nat) (o : outcome Server) : Prop :=
  exists config, configs !! i = Some config
    /\ may_end (launch_config config) o.
End LaunchInvariant.

(** The in-memory cloud with an image service that is down: every snapshot
    request fails. *)
Definition snapshotless_cloud_sdk : Sdk Cloud := {|
  find_server := find_server cloud_sdk; find_flavor := find_flavor cloud_sdk;
  find_image := find_image cloud_sdk; find_network := find_network cloud_sdk;
  find_security_group := find_security_group cloud_sdk;
  find_volume := find_volume cloud_sdk; servers := servers cloud_sdk;
  volumes := volumes cloud_sdk; ips := ips cloud_sdk;
  routers := routers cloud_sdk; networks := networks cloud_sdk;
  security_groups := security_groups cloud_sdk; ports := ports cloud_sdk;
  create_server := create_server cloud_sdk;
  wait_for_server := wait_for_server cloud_sdk;
  resize_server := resize_server cloud_sdk;
  confirm_resize_server := confirm_resize_server cloud_sdk;
  create_server_image c s n := (Exn (SdkError "image service unavailable"), tick c);
  delete_server := delete_server cloud_sdk;
  wait_for_delete := wait_for_delete cloud_sdk;
  create_ip := create_ip cloud_sdk;
  add_floating_ip_to_server := add_floating_ip_to_server cloud_sdk;
  create_volume_attachment := create_volume_attachment cloud_sdk;
  delete_volume := delete_volume cloud_sdk; delete_ip := delete_ip cloud_sdk;
  remove_interface_from_router := remove_interface_from_router cloud_sdk;
  delete_router := delete_router cloud_sdk;
  delete_network := delete_network cloud_sdk;
  delete_security_group := delete_security_group cloud_sdk;
  getenv := getenv cloud_sdk; now := now cloud_sdk; sleep := sleep cloud_sdk
|}.

(** The in-memory cloud run with [NEW_RELIC_LICENSE_KEY] set to [key] in
    the environment. *)
Definition licensed_cloud_sdk (key : string) : Sdk Cloud := {|
  find_server := find_server cloud_sdk; find_flavor := find_flavor cloud_sdk;
  find_image := find_image cloud_sdk; find_network := find_network cloud_sdk;
  find_security_group := find_security_group cloud_sdk;
  find_volume := find_volume cloud_sdk; servers := servers cloud_sdk;
  volumes := volumes cloud_sdk; ips := ips cloud_sdk;
  routers := routers cloud_sdk; networks := networks cloud_sdk;
  security_groups := security_groups cloud_sdk; ports := ports cloud_sdk;
  create_server := create_server cloud_sdk;
  wait_for_server := wait_for_server cloud_sdk;
  resize_server := resize_server cloud_sdk;
  confirm_resize_server := confirm_resize_server cloud_sdk;
  create_server_image := create_server_image cloud_sdk;
  delete_server := delete_server cloud_sdk;
  wait_for_delete := wait_for_delete cloud_sdk;
  create_ip := create_ip cloud_sdk;
  add_floating_ip_to_server := add_floating_ip_to_server cloud_sdk;
  create_volume_attachment := create_volume_attachment cloud_sdk;
  delete_volume := delete_volume cloud_sdk; delete_ip := delete_ip cloud_sdk;
  remove_interface_from_router := remove_interface_from_router cloud_sdk;
  delete_router := delete_router cloud_sdk;
  delete_network := delete_network cloud_sdk;
  delete_security_group := delete_security_group cloud_sdk;
  getenv c k := if String.eqb k "NEW_RELIC_LICENSE_KEY" then Some key else None;
  now := now cloud_sdk; sleep := sleep cloud_sdk
|}.

(** * The request of [launch_instance]

    What [launch_instance] asks of the backend [b] once the image and the
    flavor are found. *)
Section LaunchRequest.
Context {B : Type} (sdk : Sdk B) (b : B).

(** The optional lookups: made only for a name that is given and not
    empty. *)
Definition looked_up_network (network_name : option string)
  : outcome (option Network) :=
  if truthy network_name then find_network sdk b (default "" network_name)
  else Ok None.

Definition looked_up_group (security_group_name : option string)
  : outcome (option SecurityGroup) :=
  if truthy security_group_name
  then find_security_group sdk b (default "" security_group_name)
  else Ok None.

(** The user data passed on: the caller's, unless the caller gave none,
    NRDOT is enabled and the environment has a non-empty
    [NEW_RELIC_LICENSE_KEY]; then the NRDOT script generated for the server
    name and that key. *)
Definition passed_user_data (name : string) (user_data : option string)
    (enable_nrdot : bool) : option string :=
  if enable_nrdot && negb (truthy user_data) then
    match getenv sdk b "NEW_RELIC_LICENSE_KEY" with
    | Some key =>
        if String.eqb key "" then user_data
        else Some (_generate_nrdot_userdata name key)
    | None => user_data
    end
  else user_data.
End LaunchRequest.

(** The queries [launch_instance] makes before it creates the server, in
    order. *)
Definition launch_lookups (image_name flavor_name : string)
    (network_name security_group_name user_data : option string)
    (enable_nrdot : bool) : list call :=
  [FindImage image_name; FindFlavor flavor_name]
  ++ (if truthy network_name then [FindNetwork (default "" network_name)] else [])
  ++ (if truthy security_group_name
      then [FindSecurityGroup (default "" security_group_name)] else [])
  ++ (if enable_nrdot && negb (truthy user_data)
      then [GetEnv "NEW_RELIC_LICENSE_KEY"] else []).

(** The server requested, given what the lookups found. *)
Definition launch_request {B} (sdk : Sdk B) (b : B) (name : string)
    (image : Image) (flavor : Flavor) (network : option Network)
    (sg : option SecurityGroup) (key_name user_data : option string)
    (enable_nrdot : bool) : CreateServerArgs :=
  {| cs_name := name;
     cs_image_id := image_id image;
     cs_flavor_id := flavor_id flavor;
     cs_networks :=
       match network with
       | Some nw => [ {[ "uuid" := network_id nw ]} ]
       | None => []
       end;
     cs_security_groups :=
       match sg with
       | Some g => [ {[ "name" := sg_name g ]} ]
       | None => []
       end;
     cs_key_name := key_name;
     cs_user_data := passed_user_data sdk b name user_data enable_nrdot |}.

(** * Snapshots of a batch, by server name *)

(** Whether the character [a] occurs in [s]. *)
Fixpoint occurs (a : ascii) (s : string) : bool :=
  match s with
  | EmptyString => false
  | String c s' => Ascii.eqb a c || occurs a s'
  end.

(** [nm] is a name [batch_snapshot_instances] gives to a snapshot of the
    server called [n]: [n], [-snapshot-] and a clock reading. *)
Definition snapshot_of (n nm : string) : Prop :=
  exists t : Z, nm = n +:+ "-snapshot-" +:+ pretty t.

(** [nm] is a snapshot name of one of the [names] other than [n], and not
    one of [n]. *)
Definition for_other_name (names : list string) (n nm : string) : Prop :=
  (exists m, In m names /\ m <> n /\ snapshot_of m nm) /\ ~ snapshot_of n nm.

(** A snapshot request for another name than [n]. *)
Definition other_snapshot_request (names : list string) (n : string) (c : call)
  : Prop :=
  match c with
  | CreateServerImage _ nm => for_other_name names n nm
  | _ => False
  end.

(** The calls of [batch_snapshot_instances] that leave the server name [n]
    alone: lookups and clock readings, and the requests, the success logs
    and the failure logs of snapshots of other names. *)
Definition spares (names : list string) (n : string) (c : call) : Prop :=
  match c with
  | FindServer _ | Now => True
  | CreateServerImage _ nm => for_other_name names n nm
  | Log INFO (MsgStr _ nm) => for_other_name names n nm
  | Log ERROR (MsgStrExn _ nm _) => for_other_name names n nm
  | _ => False
  end.

(** Invariants of a batch snapshot of [names] started with trace [t0], for a
    name [n] that does not resolve: it still does not, the calls made so far
    spare it, and so will the tasks that are left. *)
Section SnapshotInvariant.
Context {B : Type} (sdk : Sdk B) (names : list string) (n : string)
  (t0 : list call).

Definition snap_world (w : world B) : Prop :=
  find_server sdk (backend w) n = Ok None
  /\ exists t, trace w = t0 ++ t /\ Forall (spares names n) t.

Definition snap_task (i : nat) (p : prog string) : Prop :=
  only (other_snapshot_request names n) p.

Definition snap_future (i : nat) (o : outcome string) : Prop := True.
End SnapshotInvariant.
(** * Reasoning about runs *)

Section Runs.
Context {B : Type} (sdk : Sdk B).

Lemma perform_eq c w :
  perform sdk c w =
    (fst (handle sdk c (backend w)),
     World (snd (handle sdk c (backend w))) (trace w ++ [c])).
Proof. unfold perform. by destruct (handle sdk c (backend w)). Qed.

Lemma run_Do {A} c (k : outcome (answer c) -> prog A) w :
  run sdk (Do c k) w =
    run sdk (k (fst (handle sdk c (backend w))))
        (World (snd (handle sdk c (backend w))) (trace w ++ [c])).
Proof. simpl. by rewrite perform_eq. Qed.

(** The trace is only written, never read. *)
Lemma run_trace {A} (p : prog A) b t :
  run sdk p (World b t) =
    (result sdk p b, World (after sdk p b) (t ++ calls sdk p b)).
Proof.
  unfold result, after, calls. revert b t.
  induction p as [a|e|c k IH]; intros b t; simpl.
  - by rewrite app_nil_r.
  - by rewrite app_nil_r.
  - rewrite !perform_eq. simpl.
    rewrite (IH _ _ (t ++ [c])), (IH _ _ [c]). simpl.
    by rewrite <- app_assoc.
Qed.

Lemma run_world {A} (p : prog A) w :
  run sdk p w =
    (result sdk p (backend w), World (after sdk p (backend w)) (trace w ++ calls sdk p (backend w))).
Proof. destruct w as [b t]. apply run_trace. Qed.

Lemma run_bind {A C} (p : prog A) (f : A -> prog C) w :
  run sdk (bind p f) w =
    match run sdk p w with
    | (Ok a, w') => run sdk (f a) w'
    | (Exn e, w') => (Exn e, w')
    end.
Proof.
  revert w. induction p as [a|e|c k IH]; intros w; simpl; try done.
  destruct (perform sdk c w) as [o w']. apply IH.
Qed.

Lemma run_try_except {A} (p : prog A) (h : exn -> prog A) w :
  run sdk (try_except p h) w =
    match run sdk p w with
    | (Ok a, w') => (Ok a, w')
    | (Exn e, w') => run sdk (h e) w'
    end.
Proof.
  revert w. induction p as [a|e|c k IH]; intros w; simpl; try done.
  destruct (perform sdk c w) as [o w']. apply IH.
Qed.

Lemma run_invoke c w :
  run sdk (invoke c) w =
    (fst (handle sdk c (backend w)),
     World (snd (handle sdk c (backend w))) (trace w ++ [c])).
Proof.
  unfold invoke. rewrite run_Do.
  by destruct (fst (handle sdk c (backend w))).
Qed.

Lemma run_log lvl m w :
  run sdk (log lvl m) w = (Ok tt, World (backend w) (trace w ++ [Log lvl m])).
Proof. exact (run_invoke (Log lvl m) w). Qed.

Lemma run_invoke_bind {C} c (f : answer c -> prog C) w :
  run sdk (bind (invoke c) f) w =
    match fst (handle sdk c (backend w)) with
    | Ok a => run sdk (f a) (World (snd (handle sdk c (backend w))) (trace w ++ [c]))
    | Exn e => (Exn e, World (snd (handle sdk c (backend w))) (trace w ++ [c]))
    end.
Proof. by rewrite run_bind, run_invoke. Qed.

Lemma run_log_bind {C} lvl m (f : unit -> prog C) w :
  run sdk (bind (log lvl m) f) w =
    run sdk (f tt) (World (backend w) (trace w ++ [Log lvl m])).
Proof. by rewrite run_bind, run_log. Qed.

Lemma run_lift_outcome {A} (o : outcome A) w :
  run sdk (lift_outcome o) w = (o, w).
Proof. by destruct o. Qed.

Lemma run_for_each_cons {X S} (x : X) l (body : X -> S -> prog S) s w :
  run sdk (for_each (x :: l) body s) w =
    match run sdk (body x s) w with
    | (Ok s', w') => run sdk (for_each l body s') w'
    | (Exn e, w') => (Exn e, w')
    end.
Proof. simpl. apply run_bind. Qed.

(** Results, backends and calls of composed programs. *)
Lemma calls_bind {A C} (p : prog A) (f : A -> prog C) b :
  calls sdk (bind p f) b =
    calls sdk p b ++ match result sdk p b with
                 | Ok a => calls sdk (f a) (after sdk p b)
                 | Exn _ => []
                 end.
Proof.
  unfold calls at 1. rewrite run_bind, (run_trace p). simpl.
  destruct (result sdk p b); simpl; [|by rewrite app_nil_r].
  by rewrite run_trace.
Qed.

Lemma result_bind {A C} (p : prog A) (f : A -> prog C) b :
  result sdk (bind p f) b =
    match result sdk p b with
    | Ok a => result sdk (f a) (after sdk p b)
    | Exn e => Exn e
    end.
Proof.
  unfold result at 1. rewrite run_bind, (run_trace p). simpl.
  destruct (result sdk p b); simpl; [|done].
  by rewrite run_trace.
Qed.

Lemma after_bind {A C} (p : prog A) (f : A -> prog C) b :
  after sdk (bind p f) b =
    match result sdk p b with
    | Ok a => after sdk (f a) (after sdk p b)
    | Exn e => after sdk p b
    end.
Proof.
  unfold after at 1. rewrite run_bind, (run_trace p). simpl.
  destruct (result sdk p b); simpl; [|done].
  by rewrite run_trace.
Qed.

Lemma only_Do_inv (P : call -> Prop) {A} c (k : outcome (answer c) -> prog A) :
  only P (Do c k) -> P c /\ forall o, only P (k o).
Proof.
  intros H.
  change (match Do c k with
          | Do c' k' => P c' /\ forall o, only P (k' o)
          | _ => True
          end).
  by destruct H.
Qed.

Lemma only_bind P {A C} (p : prog A) (f : A -> prog C) :
  only P p -> (forall a, only P (f a)) -> only P (bind p f).
Proof.
  intros Hp Hf. induction Hp; simpl; auto using @only.
Qed.

Lemma only_try_except P {A} (p : prog A) h :
  only P p -> (forall e, only P (h e)) -> only P (try_except p h).
Proof.
  intros Hp Hh. induction Hp; simpl; auto using @only.
Qed.

Lemma only_invoke (P : call -> Prop) c : P c -> only P (invoke c).
Proof. intros. constructor; [done|]. intros []; constructor. Qed.

Lemma only_log (P : call -> Prop) lvl m : P (Log lvl m) -> only P (log lvl m).
Proof. apply only_invoke. Qed.

Lemma only_lift_outcome P {A} (o : outcome A) : only P (lift_outcome o).
Proof. destruct o; constructor. Qed.

Lemma only_for_each P {X S} (l : list X) (body : X -> S -> prog S) s :
  (forall x s', x ∈ l -> only P (body x s')) -> only P (for_each l body s).
Proof.
  revert s. induction l as [|x l IH]; intros s Hb; simpl; [constructor|].
  apply only_bind; [apply Hb; left|].
  intros s'. apply IH. intros. apply Hb. by right.
Qed.

Lemma only_mono (P Q : call -> Prop) {A} (p : prog A) :
  (forall c, P c -> Q c) -> only P p -> only Q p.
Proof. intros HPQ Hp. induction Hp; constructor; auto. Qed.

Lemma only_run P {A} (p : prog A) w :
  only P p -> Forall P (trace w) -> Forall P (trace (snd (run sdk p w))).
Proof.
  intros Hp. revert w. induction Hp as [| |c k Hc Hk IH]; intros w Hw; simpl; try done.
  rewrite perform_eq. apply IH. simpl. apply Forall_app; auto.
Qed.

Lemma only_calls P {A} (p : prog A) b : only P p -> Forall P (calls sdk p b).
Proof. intros Hp. unfold calls. by apply only_run. Qed.

(** A program that makes only queries leaves the backend as it was. *)
Lemma handle_query c b : is_query c = true -> snd (handle sdk c b) = b.
Proof. by destruct c. Qed.

Lemma only_query_after {A} (p : prog A) b :
  only (fun c => is_query c = true) p -> after sdk p b = b.
Proof.
  intros Hp. unfold after. generalize (@nil call). revert b.
  induction Hp as [| |c k Hc Hk IH]; intros b t; simpl; try done.
  rewrite perform_eq. simpl. rewrite handle_query by done. apply IH.
Qed.
End Runs.


(** One step of a run: the next call of the program is made. *)
Ltac run_step :=
  first [ rewrite run_log_bind | rewrite run_invoke_bind | rewrite run_log
        | rewrite run_invoke ];
  cbn [handle fst snd backend trace].

(** * Fail-fast lookups *)

Section FailFast.
Context {B : Type} (sdk : Sdk B).

Lemma launch_instance_image_not_found
    name image_name flavor_name network_name security_group_name key_name
    user_data enable_nrdot (w : world B) :
  find_image sdk (backend w) image_name = Ok None ->
  run sdk (launch_instance name image_name flavor_name network_name
             security_group_name key_name user_data enable_nrdot) w =
    (Exn (ValueError ("Image " +:+ image_name +:+ " not found")),
     World (backend w) (trace w ++ [FindImage image_name])).
Proof.
  intros Hi. unfold launch_instance.
  run_step. by rewrite Hi.
Qed.

Lemma launch_instance_flavor_not_found
    name image_name flavor_name network_name security_group_name key_name
    user_data enable_nrdot image (w : world B) :
  find_image sdk (backend w) image_name = Ok (Some image) ->
  find_flavor sdk (backend w) flavor_name = Ok None ->
  run sdk (launch_instance name image_name flavor_name network_name
             security_group_name key_name user_data enable_nrdot) w =
    (Exn (ValueError ("Flavor " +:+ flavor_name +:+ " not found")),
     World (backend w)
           (trace w ++ [FindImage image_name; FindFlavor flavor_name])).
Proof.
  intros Hi Hf. unfold launch_instance.
  run_step. rewrite Hi. run_step. rewrite Hf.
  by rewrite <- app_assoc.
Qed.

Lemma assign_floating_ip_server_not_found server_name (w : world B) :
  find_server sdk (backend w) server_name = Ok None ->
  run sdk (assign_floating_ip server_name) w =
    (Exn (ValueError ("Server " +:+ server_name +:+ " not found")),
     World (backend w) (trace w ++ [FindServer server_name])).
Proof.
  intros Hs. unfold assign_floating_ip.
  run_step. by rewrite Hs.
Qed.

Lemma attach_volume_not_found server_name volume_name server volume (w : world B) :
  find_server sdk (backend w) server_name = Ok server ->
  find_volume sdk (backend w) volume_name = Ok volume ->
  server = None \/ volume = None ->
  run sdk (attach_volume server_name volume_name) w =
    (Exn (ValueError "Server or volume not found"),
     World (backend w)
           (trace w ++ [FindServer server_name; FindVolume volume_name])).
Proof.
  intros Hs Hv Hnone. unfold attach_volume.
  run_step. rewrite Hs. run_step. rewrite Hv.
  rewrite <- app_assoc.
  destruct Hnone as [-> | ->]; [done|]. by destruct server.
Qed.
End FailFast.

(** A security group that [launch_instance] does not find is ignored: the
    call goes on as if none had been named. *)
Lemma launch_instance_security_group_not_found {B} (sdk : Sdk B)
    name image_name flavor_name network_name sg key_name user_data
    enable_nrdot (b : B) :
  find_security_group sdk b sg = Ok None ->
  result sdk (launch_instance name image_name flavor_name network_name
                (Some sg) key_name user_data enable_nrdot) b =
  result sdk (launch_instance name image_name flavor_name network_name
                None key_name user_data enable_nrdot) b
  /\ after sdk (launch_instance name image_name flavor_name network_name
                  (Some sg) key_name user_data enable_nrdot) b =
     after sdk (launch_instance name image_name flavor_name network_name
                  None key_name user_data enable_nrdot) b.
Proof.
  intros Hsg. unfold result, after, launch_instance.
  do 2 run_step. destruct (find_image sdk b image_name) as [[image|]|]; try done.
  do 2 run_step. destruct (find_flavor sdk b flavor_name) as [[flavor|]|]; try done.
  rewrite !(run_bind sdk (match network_name with Some _ => _ | None => _ end)).
  destruct (run sdk (match network_name with Some _ => _ | None => _ end) _)
    as [[nets|e] w1] eqn:Hnet; [|done].
  assert (backend w1 = b) as Hb.
  { destruct network_name as [n|]; [|by inversion Hnet].
    destruct (truthy (Some n)); [|by inversion Hnet].
    revert Hnet. run_step.
    destruct (find_network sdk b n) as [[nw|]|]; simpl; by inversion 1. }
  destruct (truthy (Some sg)).
  - rewrite (run_bind sdk (bind _ _)). run_step. rewrite Hb, Hsg.
    cbn [run]. rewrite (run_bind sdk (Ret _)). cbn [run].
    rewrite (run_world sdk _ (World b _)), (run_world sdk _ w1).
    cbn [fst snd backend]. by rewrite Hb.
  - done.
Qed.

(** C8 (as amended): a single-target operation raises at once, before any
    command is issued, when the image or the flavor ([launch_instance]), the
    server ([assign_floating_ip]) or the server or the volume
    ([attach_volume]) is not found, and the error reaches the caller; a
    security group that [launch_instance] looks up and does not find raises
    nothing: the call proceeds as if no security group had been named. *)
Theorem single_target_not_found {B} (sdk : Sdk B) (w : world B) :
  (forall name image_name flavor_name network_name security_group_name
          key_name user_data enable_nrdot,
     find_image sdk (backend w) image_name = Ok None ->
     run sdk (launch_instance name image_name flavor_name network_name
                security_group_name key_name user_data enable_nrdot) w =
       (Exn (ValueError ("Image " +:+ image_name +:+ " not found")),
        World (backend w) (trace w ++ [FindImage image_name])))
  /\ (forall name image_name flavor_name network_name security_group_name
             key_name user_data enable_nrdot image,
        find_image sdk (backend w) image_name = Ok (Some image) ->
        find_flavor sdk (backend w) flavor_name = Ok None ->
        run sdk (launch_instance name image_name flavor_name network_name
                   security_group_name key_name user_data enable_nrdot) w =
          (Exn (ValueError ("Flavor " +:+ flavor_name +:+ " not found")),
           World (backend w)
                 (trace w ++ [FindImage image_name; FindFlavor flavor_name])))
  /\ (forall server_name,
        find_server sdk (backend w) server_name = Ok None ->
        run sdk (assign_floating_ip server_name) w =
          (Exn (ValueError ("Server " +:+ server_name +:+ " not found")),
           World (backend w) (trace w ++ [FindServer server_name])))
  /\ (forall server_name volume_name server volume,
        find_server sdk (backend w) server_name = Ok server ->
        find_volume sdk (backend w) volume_name = Ok volume ->
        server = None \/ volume = None ->
        run sdk (attach_volume server_name volume_name) w =
          (Exn (ValueError "Server or volume not found"),
           World (backend w)
                 (trace w ++ [FindServer server_name; FindVolume volume_name])))
  /\ (forall name image_name flavor_name network_name sg key_name user_data
             enable_nrdot,
        find_security_group sdk (backend w) sg = Ok None ->
        result sdk (launch_instance name image_name flavor_name network_name
                      (Some sg) key_name user_data enable_nrdot) (backend w) =
        result sdk (launch_instance name image_name flavor_name network_name
                      None key_name user_data enable_nrdot) (backend w)
        /\ after sdk (launch_instance name image_name flavor_name network_name
                        (Some sg) key_name user_data enable_nrdot) (backend w) =
           after sdk (launch_instance name image_name flavor_name network_name
                        None key_name user_data enable_nrdot) (backend w)).
Proof.
  repeat split; intros.
  - by apply launch_instance_image_not_found.
  - by eapply launch_instance_flavor_not_found.
  - by apply assign_floating_ip_server_not_found.
  - by eapply attach_volume_not_found.
  - by apply launch_instance_security_group_not_found.
  - by apply launch_instance_security_group_not_found.
Qed.

Lemma single_target_not_found_witness :
  let launch img fl sg :=
    launch_instance "vm" img fl None sg None None true in
  find_image cloud_sdk demo_cloud "no-image" = Ok None
  /\ fst (run cloud_sdk (launch "no-image" "m1.small" None) demo_world) =
       Exn (ValueError "Image no-image not found")
  /\ fst (run cloud_sdk (launch "ubuntu-20.04" "no-flavor" None) demo_world) =
       Exn (ValueError "Flavor no-flavor not found")
  /\ fst (run cloud_sdk (assign_floating_ip "no-server") demo_world) =
       Exn (ValueError "Server no-server not found")
  /\ fst (run cloud_sdk (attach_volume "web-1" "no-volume") demo_world) =
       Exn (ValueError "Server or volume not found")
  /\ result cloud_sdk (launch "ubuntu-20.04" "m1.small" (Some "no-group")) demo_cloud =
     result cloud_sdk (launch "ubuntu-20.04" "m1.small" None) demo_cloud.
Proof.
  destruct (single_target_not_found cloud_sdk demo_world)
    as (Himage & Hflavor & Hserver & Hvolume & Hgroup).
  cbv zeta. split; [reflexivity|].
  split.
  { rewrite (Himage "vm" "no-image" "m1.small" None None None None true);
      reflexivity. }
  split.
  { rewrite (Hflavor "vm" "ubuntu-20.04" "no-flavor" None None None None true
               {| image_id := "img-ubuntu" |}); reflexivity. }
  split.
  { rewrite (Hserver "no-server"); reflexivity. }
  split.
  { rewrite (Hvolume "web-1" "no-volume"
               (Some (mk_server "web-1" "ACTIVE" addr1)) None);
      first [reflexivity | right; reflexivity]. }
  apply (Hgroup "vm" "ubuntu-20.04" "m1.small" None "no-group" None None true).
  reflexivity.
Defined.

(** C8 as stated fails: [launch_instance] looks up the security group
    [no-group], does not find it, and still returns the new server. *)
Lemma launch_instance_missing_security_group_returns :
  find_security_group cloud_sdk demo_cloud "no-group" = Ok None
  /\ (exists server,
        result cloud_sdk
          (launch_instance "vm" "ubuntu-20.04" "m1.small" None
             (Some "no-group") None None true) demo_cloud = Ok server
        /\ srv_name server = "vm")
  /\ ~ (exists e,
        result cloud_sdk
          (launch_instance "vm" "ubuntu-20.04" "m1.small" None
             (Some "no-group") None None true) demo_cloud = Exn e).
Proof.
  split; [reflexivity|]. split.
  - eexists. split; [vm_compute; reflexivity | reflexivity].
  - intros [e He]. vm_compute in He. discriminate He.
Qed.

(** * Serial resize *)

(** C3: when the target flavor does not resolve, [batch_resize_instances]
    raises before its loop: the flavor lookup is the only call it issues (no
    resize, wait or confirm for any server) and the backend is left as it
    was. *)
Theorem batch_resize_unknown_flavor_fails_fast {B} (sdk : Sdk B)
    (server_names : list string) (new_flavor : string) (w : world B) :
  find_flavor sdk (backend w) new_flavor = Ok None ->
  run sdk (batch_resize_instances server_names new_flavor) w =
    (Exn (ValueError ("Flavor " +:+ new_flavor +:+ " not found")),
     World (backend w) (trace w ++ [FindFlavor new_flavor])).
Proof.
  intros Hf. unfold batch_resize_instances. run_step. by rewrite Hf.
Qed.

Lemma batch_resize_unknown_flavor_fails_fast_witness :
  find_flavor cloud_sdk demo_cloud "m9.huge" = Ok None
  /\ run cloud_sdk (batch_resize_instances ["web-1"; "web-2"] "m9.huge") demo_world =
       (Exn (ValueError "Flavor m9.huge not found"),
        World demo_cloud [FindFlavor "m9.huge"]).
Proof.
  split; [reflexivity|].
  apply (batch_resize_unknown_flavor_fails_fast cloud_sdk
           ["web-1"; "web-2"] "m9.huge" demo_world).
  reflexivity.
Defined.

(** * Rolling update *)

Lemma filter_none {X} (f : X -> bool) (l : list X) :
  Forall (fun x => f x = false) l -> List.filter f l = [].
Proof.
  induction 1 as [|x l Hx _ IH]; simpl; [done|]. by rewrite Hx.
Qed.

(** C10: when no listed server has a name that starts with the prefix,
    [rolling_update] lists the servers, logs a warning and returns: no
    snapshot, delete or create is issued and the backend is left as it was. *)
Theorem rolling_update_no_match_is_noop {B} (sdk : Sdk B)
    (server_prefix new_image : string) (batch_size : Z)
    (all : list Server) (w : world B) :
  servers sdk (backend w) = Ok all ->
  Forall (fun s => String.prefix server_prefix (srv_name s) = false) all ->
  run sdk (rolling_update server_prefix new_image batch_size) w =
    (Ok tt,
     World (backend w)
       (trace w ++ [ListServers;
                    Log WARNING (MsgStr "No servers found with prefix: {}"
                                        server_prefix)])).
Proof.
  intros Hl Hnone. unfold rolling_update. run_step. rewrite Hl.
  rewrite (filter_none _ _ Hnone). run_step. by rewrite <- app_assoc.
Qed.

Lemma rolling_update_no_match_is_noop_witness :
  run cloud_sdk (rolling_update "cache-" "ubuntu-20.04" 2) demo_world =
    (Ok tt,
     World demo_cloud
       [ListServers;
        Log WARNING (MsgStr "No servers found with prefix: {}" "cache-")]).
Proof.
  apply (rolling_update_no_match_is_noop cloud_sdk "cache-" "ubuntu-20.04" 2
           (c_servers demo_cloud) demo_world).
  - reflexivity.
  - repeat constructor.
Defined.

(** Solves [only P p] goals by following the structure of [p]. *)
Ltac only_step :=
  match goal with
  | |- only _ (bind _ _) => apply only_bind
  | |- only _ (try_except _ _) => apply only_try_except
  | |- only _ (for_each _ _ _) => apply only_for_each
  | |- only _ (for_when _ _ _) => apply only_for_each
  | |- only _ (lift_outcome _) => apply only_lift_outcome
  | |- only ?P (log ?lvl ?m) => apply (only_log P lvl m)
  | |- only ?P (invoke ?c) => apply (only_invoke P c)
  | |- only _ (Ret _) => constructor
  | |- only _ (Throw _) => constructor
  | |- only _ (match ?x with _ => _ end) => destruct x eqn:?
  | |- forall _, _ => intro
  end.
Ltac only_solve := repeat only_step; try done.

Section RollingUpdate.
Context {B : Type} (sdk : Sdk B).

Lemma result_try_except_log (p : prog unit) lvl (m : exn -> log_msg) b :
  result sdk (try_except p (fun e => log lvl (m e))) b = Ok tt.
Proof.
  unfold result. rewrite run_try_except.
  destruct (run sdk p _) as [[[]|e] w']; [done|]. by rewrite run_log.
Qed.

(** [launch_instance] has no parameter [networks]: the keyword call of
    [rolling_update] raises before the body of [launch_instance] starts. *)
Lemma launch_instance_kw_networks name image_name flavor_name nets :
  launch_instance_kw [kw_name name; kw_image_name image_name;
                      kw_flavor_name flavor_name;
                      kw_other "networks" (PDicts nets)] =
    Throw (TypeError
      "OpenStackAutomation.launch_instance() got an unexpected keyword argument 'networks'").
Proof. reflexivity. Qed.

(** The replacement of a server never gets as far as creating one. *)
Lemma update_one_only (P : call -> Prop) new_image server :
  (forall c, is_create_server c = false -> is_window_event c = false -> P c) ->
  only P (update_one new_image server).
Proof.
  intros HP. unfold update_one, replace_server.
  repeat first [ rewrite launch_instance_kw_networks | only_step ];
    by apply HP.
Qed.

Lemma update_one_result new_image server b :
  result sdk (update_one new_image server) b = Ok tt.
Proof. apply result_try_except_log. Qed.

Lemma update_batch_run new_image (batch : list Server) w :
  exists w',
    run sdk (for_each batch (fun server _ => update_one new_image server) tt) w =
      (Ok tt, w')
    /\ exists t, trace w' = trace w ++ t
         /\ Forall (fun c => is_create_server c = false
                             /\ is_window_event c = false) t.
Proof.
  revert w. induction batch as [|s batch IH]; intros w.
  - exists w. split; [done|]. exists []. by rewrite app_nil_r.
  - rewrite run_for_each_cons, run_world, update_one_result.
    destruct (IH (World (after sdk (update_one new_image s) (backend w))
                        (trace w ++ calls sdk (update_one new_image s) (backend w))))
      as (w' & Hrun & t & Ht & HF).
    exists w'. split; [done|].
    exists (calls sdk (update_one new_image s) (backend w) ++ t).
    split; [rewrite Ht; simpl; by rewrite <- app_assoc|].
    apply Forall_app. split; [|done].
    apply only_calls, update_one_only. auto.
Qed.

Lemma window_events_app t1 t2 :
  window_events (t1 ++ t2) = window_events t1 ++ window_events t2.
Proof. apply List.filter_app. Qed.

Lemma window_events_none t :
  Forall (fun c => is_create_server c = false /\ is_window_event c = false) t ->
  window_events t = [].
Proof.
  intros H. apply filter_none. eapply Forall_impl; [exact H|]. by intros c [_ ?].
Qed.

Lemma rolling_window_run new_image batch_size servers i w :
  exists w',
    run sdk (rolling_window new_image batch_size servers i) w = (Ok tt, w')
    /\ exists t, trace w' = trace w ++ t
         /\ window_events t = window_trace batch_size servers i
         /\ Forall (fun c => is_create_server c = false) t.
Proof.
  unfold rolling_window, window_trace. run_step. rewrite run_bind.
  destruct (update_batch_run new_image
              (py_slice servers i (i + batch_size))
              (World (backend w)
                 (trace w ++ [window_start (py_slice servers i (i + batch_size))])))
    as (w1 & Hrun & t & Ht & HF).
  unfold window_start in *. rewrite Hrun. simpl in Ht.
  assert (Forall (fun c => is_create_server c = false) t) as HF'.
  { eapply Forall_impl; [exact HF|]. by intros c [? _]. }
  destruct (i + batch_size <? Z.of_nat (length servers)).
  - do 2 run_step. eexists. split; [done|]. simpl.
    eexists. split; [rewrite Ht, <- !app_assoc; reflexivity|]. split.
    + simpl. rewrite window_events_app, (window_events_none t HF). done.
    + constructor; [done|]. apply Forall_app. split; [done|].
      by repeat constructor.
  - exists w1. split; [done|].
    eexists. split; [rewrite Ht, <- !app_assoc; reflexivity|]. split.
    + simpl. by rewrite (window_events_none t HF).
    + by constructor.
Qed.

Lemma rolling_windows_run new_image batch_size servers starts w :
  exists w',
    run sdk (for_each starts
               (fun i _ => rolling_window new_image batch_size servers i) tt) w =
      (Ok tt, w')
    /\ exists t, trace w' = trace w ++ t
         /\ window_events t =
              concat (map (window_trace batch_size servers) starts)
         /\ Forall (fun c => is_create_server c = false) t.
Proof.
  revert w. induction starts as [|i starts IH]; intros w.
  - exists w. split; [done|]. exists []. by rewrite app_nil_r.
  - rewrite run_for_each_cons.
    destruct (rolling_window_run new_image batch_size servers i w)
      as (w1 & -> & t1 & Ht1 & Hw1 & HF1).
    destruct (IH w1) as (w2 & Hrun & t2 & Ht2 & Hw2 & HF2).
    exists w2. split; [done|]. exists (t1 ++ t2).
    split; [by rewrite Ht2, Ht1, <- app_assoc|]. split.
    + rewrite window_events_app, Hw1, Hw2. done.
    + by apply Forall_app.
Qed.
End RollingUpdate.

(** ** Window arithmetic *)

Lemma window_count (n : nat) (batch_size : Z) :
  0 < batch_size ->
  Z.to_nat ((Z.of_nat n - 0 + batch_size - 1) / batch_size) =
    ((n + Z.to_nat batch_size - 1) / Z.to_nat batch_size)%nat.
Proof.
  intros Hpos.
  rewrite Z2Nat.inj_div by lia.
  f_equal. lia.
Qed.

Lemma py_range_windows (n : nat) (batch_size : Z) :
  0 < batch_size ->
  py_range 0 (Z.of_nat n) batch_size =
    Ok (map (fun k => Z.of_nat k * batch_size)
            (seq 0 ((n + Z.to_nat batch_size - 1) / Z.to_nat batch_size)%nat)).
Proof.
  intros Hpos. unfold py_range.
  destruct (Z.eqb_spec batch_size 0) as [|_]; [lia|].
  destruct (Z.ltb_spec 0 batch_size) as [_|]; [|lia].
  by rewrite window_count.
Qed.

Lemma py_slice_window {X} (l : list X) (k : nat) (batch_size : Z) :
  0 < batch_size ->
  py_slice l (Z.of_nat k * batch_size) (Z.of_nat k * batch_size + batch_size) =
    take (Z.to_nat batch_size) (drop (k * Z.to_nat batch_size) l).
Proof.
  intros Hpos. unfold py_slice, clamp_index.
  set (n := Z.of_nat (length l)).
  set (size := Z.to_nat batch_size).
  assert (Z.of_nat k * batch_size = Z.of_nat (k * size)) as Hlo by (subst size; nia).
  rewrite Hlo.
  destruct (Z.ltb_spec (Z.of_nat (k * size)) 0) as [|_]; [lia|].
  destruct (Z.ltb_spec (Z.of_nat (k * size) + batch_size) 0) as [|_]; [lia|].
  destruct (Z_le_gt_dec (Z.of_nat (k * size) + batch_size) n) as [Hin|Hout].
  - rewrite !Z.min_l by lia. f_equal; [lia|]. f_equal. lia.
  - destruct (Z_le_gt_dec (Z.of_nat (k * size)) n) as [Hlo'|Hlo'].
    + rewrite (Z.min_l (Z.of_nat (k * size))), (Z.min_r _ n) by lia.
      rewrite Nat2Z.id.
      rewrite !take_ge; [done| |]; rewrite length_drop; subst n size; lia.
    + rewrite !Z.min_r by lia. rewrite Z.sub_diag. simpl.
      rewrite (drop_ge l (k * size)) by (subst n size; lia).
      by rewrite take_nil.
Qed.

Lemma window_pause (n k : nat) (batch_size : Z) :
  0 < batch_size ->
  (Z.of_nat k * batch_size + batch_size <? Z.of_nat n) =
    (k + 1 <? 0 + (n + Z.to_nat batch_size - 1) / Z.to_nat batch_size)%nat.
Proof.
  intros Hpos.
  assert (exists size, batch_size = Z.of_nat size /\ (0 < size)%nat)
    as (size & -> & Hsize) by (exists (Z.to_nat batch_size); lia).
  rewrite Nat2Z.id.
  destruct (Z.ltb_spec (Z.of_nat k * Z.of_nat size + Z.of_nat size) (Z.of_nat n)) as [Hlt|Hge];
    destruct (Nat.ltb_spec (k + 1) (0 + (n + size - 1) / size)) as [Hlt'|Hge']; try done.
  - exfalso.
    assert ((n + size - 1) / size <= k + 1)%nat as Hle by lia.
    assert (n + size - 1 < size * (k + 2))%nat; [|nia].
    pose proof (Nat.div_mod_eq (n + size - 1) size).
    pose proof (Nat.mod_upper_bound (n + size - 1) size). nia.
  - exfalso.
    assert (k + 2 <= (n + size - 1) / size)%nat as Hle by lia.
    pose proof (Nat.div_mod_eq (n + size - 1) size). nia.
Qed.

Section RollingUpdateWindows.
Context {B : Type} (sdk : Sdk B).

Lemma rolling_update_no_create_server server_prefix new_image batch_size b :
  Forall (fun c => is_create_server c = false)
         (calls sdk (rolling_update server_prefix new_image batch_size) b).
Proof.
  unfold calls, rolling_update. run_step.
  destruct (servers sdk b) as [all|e]; [|by repeat constructor].
  destruct (List.filter _ all) as [|s rest].
  - run_step. by repeat constructor.
  - rewrite run_bind, run_lift_outcome.
    destruct (py_range _ _ _) as [starts|e]; [|by repeat constructor].
    match goal with |- context [run sdk (for_each ?starts ?body tt) ?w] =>
      destruct (rolling_windows_run sdk new_image batch_size (s :: rest) starts w)
        as (w' & -> & t & Ht & _ & HF)
    end.
    cbn [snd]. rewrite Ht. cbn [trace app]. by constructor.
Qed.
End RollingUpdateWindows.

(** ** The windows and the servers taken up in them *)

Lemma progress_app t1 t2 : progress (t1 ++ t2) = progress t1 ++ progress t2.
Proof. apply omap_app. Qed.

Lemma progress_none t : Forall (fun c => step_of c = None) t -> progress t = [].
Proof.
  induction 1 as [|c t Hc _ IH]; [done|].
  unfold progress in *. cbn [omap list_omap]. by rewrite Hc.
Qed.

Lemma concat_pauses (f : nat -> list step) (s len : nat) :
  concat (map (fun k => f k ++ if (k + 1 <? s + len)%nat then [Pause 30] else [])
              (seq s len)) =
    pauses_between (map f (seq s len)).
Proof.
  revert s. induction len as [|len IH]; intros s; [done|].
  cbn [seq map concat].
  replace (s + S len)%nat with (S s + len)%nat by lia.
  rewrite IH. destruct len as [|len].
  - destruct (Nat.ltb_spec (s + 1) (S s + 0)); [lia|].
    cbn [seq map pauses_between]. by rewrite !app_nil_r.
  - destruct (Nat.ltb_spec (s + 1) (S s + S len)); [|lia].
    cbn [seq map pauses_between]. by rewrite <- app_assoc.
Qed.

Lemma window_progresses (servers : list Server) (batch_size : Z) :
  0 < batch_size ->
  concat (map (window_progress batch_size servers)
              (map (fun k => Z.of_nat k * batch_size)
                   (seq 0 ((length servers + Z.to_nat batch_size - 1)
                           / Z.to_nat batch_size)%nat))) =
    pauses_between (map window_steps (windows (Z.to_nat batch_size) servers)).
Proof.
  intros Hpos. unfold windows. rewrite !map_map.
  rewrite <- (concat_pauses
                (fun k => window_steps
                            (take (Z.to_nat batch_size)
                                  (drop (k * Z.to_nat batch_size) servers)))).
  f_equal. apply map_ext. intros k. unfold window_progress.
  by rewrite py_slice_window, window_pause.
Qed.

Section RollingUpdateProgress.
Context {B : Type} (sdk : Sdk B).

(** After the snapshot, the work on a server has no further step. *)
Lemma update_one_progress new_image server w :
  exists w',
    run sdk (update_one new_image server) w = (Ok tt, w')
    /\ exists t, trace w' = trace w ++ t /\ progress t = [Process server].
Proof.
  unfold update_one, replace_server. rewrite run_try_except.
  do 2 run_step.
  destruct (create_server_image sdk (backend w) server _) as [[image|e] b1];
    cbn [fst snd].
  - match goal with
    | |- context [run sdk ?p (World b1 ?t0)] =>
        rewrite (run_world sdk p (World b1 t0));
        assert (progress (calls sdk p b1) = []) as Hrest
    end.
    { apply progress_none, only_calls.
      repeat first [ rewrite launch_instance_kw_networks | only_step ]; done. }
    cbn [backend trace].
    match goal with
    | |- context [result sdk ?p b1] => destruct (result sdk p b1) as [[]|e]
    end.
    + eexists. split; [reflexivity|]. cbn [trace]. eexists.
      split; [rewrite <- !app_assoc; reflexivity|].
      rewrite !progress_app, Hrest. done.
    + run_step. eexists. split; [reflexivity|]. cbn [trace]. eexists.
      split; [rewrite <- !app_assoc; reflexivity|].
      rewrite !progress_app, Hrest. done.
  - run_step. eexists. split; [reflexivity|]. cbn [trace]. eexists.
    split; [rewrite <- !app_assoc; reflexivity|]. done.
Qed.

Lemma update_batch_progress new_image (batch : list Server) w :
  exists w',
    run sdk (for_each batch (fun server _ => update_one new_image server) tt) w =
      (Ok tt, w')
    /\ exists t, trace w' = trace w ++ t /\ progress t = map Process batch.
Proof.
  revert w. induction batch as [|s batch IH]; intros w.
  - exists w. split; [done|]. exists []. by rewrite app_nil_r.
  - rewrite run_for_each_cons.
    destruct (update_one_progress new_image s w) as (w1 & -> & t1 & Ht1 & Hp1).
    destruct (IH w1) as (w2 & Hrun & t2 & Ht2 & Hp2).
    exists w2. split; [done|]. exists (t1 ++ t2).
    split; [by rewrite Ht2, Ht1, <- app_assoc|].
    by rewrite progress_app, Hp1, Hp2.
Qed.

Lemma rolling_window_progress new_image batch_size servers i w :
  exists w',
    run sdk (rolling_window new_image batch_size servers i) w = (Ok tt, w')
    /\ exists t, trace w' = trace w ++ t
         /\ progress t = window_progress batch_size servers i.
Proof.
  unfold rolling_window, window_progress, window_steps. run_step. rewrite run_bind.
  destruct (update_batch_progress new_image
              (py_slice servers i (i + batch_size))
              (World (backend w)
                 (trace w ++ [Log INFO (MsgNames "Processing batch: {}"
                                 (map srv_name (py_slice servers i (i + batch_size))))])))
    as (w1 & Hrun & t & Ht & Hp).
  rewrite Hrun. cbn [trace] in Ht.
  destruct (i + batch_size <? Z.of_nat (length servers)).
  - do 2 run_step. eexists. split; [done|]. cbn [trace].
    eexists. split; [rewrite Ht, <- !app_assoc; reflexivity|].
    rewrite !progress_app, Hp. done.
  - exists w1. split; [done|].
    eexists. split; [rewrite Ht, <- app_assoc; reflexivity|].
    rewrite progress_app, Hp, app_nil_r. done.
Qed.

Lemma rolling_windows_progress new_image batch_size servers starts w :
  exists w',
    run sdk (for_each starts
               (fun i _ => rolling_window new_image batch_size servers i) tt) w =
      (Ok tt, w')
    /\ exists t, trace w' = trace w ++ t
         /\ progress t = concat (map (window_progress batch_size servers) starts).
Proof.
  revert w. induction starts as [|i starts IH]; intros w.
  - exists w. split; [done|]. exists []. by rewrite app_nil_r.
  - rewrite run_for_each_cons.
    destruct (rolling_window_progress new_image batch_size servers i w)
      as (w1 & -> & t1 & Ht1 & Hp1).
    destruct (IH w1) as (w2 & Hrun & t2 & Ht2 & Hp2).
    exists w2. split; [done|]. exists (t1 ++ t2).
    split; [by rewrite Ht2, Ht1, <- app_assoc|].
    by rewrite progress_app, Hp1, Hp2.
Qed.

Lemma rolling_update_progress server_prefix new_image batch_size all b :
  servers sdk b = Ok all ->
  0 < batch_size ->
  List.filter (fun s => String.prefix server_prefix (srv_name s)) all <> [] ->
  result sdk (rolling_update server_prefix new_image batch_size) b = Ok tt
  /\ progress (calls sdk (rolling_update server_prefix new_image batch_size) b) =
       pauses_between
         (map window_steps
              (windows (Z.to_nat batch_size)
                 (List.filter (fun s => String.prefix server_prefix (srv_name s)) all))).
Proof.
  intros Hall Hpos Hsome. unfold result, calls, rolling_update.
  run_step. rewrite Hall.
  destruct (List.filter _ all) as [|s rest] eqn:Hfilter; [done|].
  rewrite run_bind, run_lift_outcome, py_range_windows by done.
  match goal with |- context [run sdk (for_each ?starts ?body tt) ?w] =>
    destruct (rolling_windows_progress new_image batch_size (s :: rest) starts w)
      as (w' & -> & t & Ht & Hp)
  end.
  split; [done|]. cbn [snd]. rewrite Ht. cbn [trace app].
  change (ListServers :: t) with ([ListServers] ++ t).
  rewrite progress_app, Hp. cbn [progress omap list_omap step_of app].
  by apply window_progresses.
Qed.
End RollingUpdateProgress.

(** C5: [rolling_update] with [batch_size] 2 over 5 matching servers works
    through three windows, of 2, 2 and 1 servers in the order of the listing:
    each window is announced with the names of its servers, then exactly
    these servers are taken up, one after the other, and the run pauses 30
    seconds after the first and after the second window but not after the
    third.  In general the servers are cut into consecutive windows of
    [batch_size], each window takes up its own servers, and there is one
    pause between consecutive windows and none after the last. *)
Theorem rolling_update_windows_and_delays {B} (sdk : Sdk B)
    (server_prefix new_image : string) (all : list Server) (b : B) :
  servers sdk b = Ok all ->
  (forall s1 s2 s3 s4 s5,
     List.filter (fun s => String.prefix server_prefix (srv_name s)) all =
       [s1; s2; s3; s4; s5] ->
     result sdk (rolling_update server_prefix new_image 2) b = Ok tt
     /\ progress (calls sdk (rolling_update server_prefix new_image 2) b) =
          [OpenWindow [srv_name s1; srv_name s2]; Process s1; Process s2;
           Pause 30;
           OpenWindow [srv_name s3; srv_name s4]; Process s3; Process s4;
           Pause 30;
           OpenWindow [srv_name s5]; Process s5])
  /\ (forall batch_size,
        0 < batch_size ->
        List.filter (fun s => String.prefix server_prefix (srv_name s)) all <> [] ->
        result sdk (rolling_update server_prefix new_image batch_size) b = Ok tt
        /\ progress
             (calls sdk (rolling_update server_prefix new_image batch_size) b) =
           pauses_between
             (map window_steps
                (windows (Z.to_nat batch_size)
                   (List.filter (fun s => String.prefix server_prefix (srv_name s))
                                all)))).
Proof.
  intros Hall. split.
  - intros s1 s2 s3 s4 s5 Hfive.
    destruct (rolling_update_progress sdk server_prefix new_image 2 all b)
      as [Hres Hev]; [done|done|by rewrite Hfive|].
    split; [done|]. by rewrite Hev, Hfive.
  - intros batch_size Hpos Hsome.
    by apply rolling_update_progress.
Qed.

Lemma rolling_update_windows_and_delays_witness :
  let web n := nth n (c_servers demo_cloud) (mk_server "" "" ∅) in
  progress (calls cloud_sdk (rolling_update "web" "ubuntu-20.04" 2) demo_cloud) =
    [OpenWindow ["web-1"; "web-2"]; Process (web 0%nat); Process (web 1%nat);
     Pause 30;
     OpenWindow ["web-3"; "web-4"]; Process (web 2%nat); Process (web 3%nat);
     Pause 30;
     OpenWindow ["web-5"]; Process (web 4%nat)]
  /\ progress (calls cloud_sdk (rolling_update "web" "ubuntu-20.04" 3) demo_cloud) =
       [OpenWindow ["web-1"; "web-2"; "web-3"];
        Process (web 0%nat); Process (web 1%nat); Process (web 2%nat);
        Pause 30;
        OpenWindow ["web-4"; "web-5"]; Process (web 3%nat); Process (web 4%nat)].
Proof.
  destruct (rolling_update_windows_and_delays cloud_sdk "web" "ubuntu-20.04"
              (c_servers demo_cloud) demo_cloud eq_refl) as [Hfive Hany].
  cbv zeta. split.
  - apply (Hfive _ _ _ _ _ eq_refl).
  - destruct (Hany 3) as [_ ->]; [lia | discriminate | reflexivity].
Defined.

(** C6 (the code does not do this): [rolling_update] never issues
    [create_server].  Its keyword call of [launch_instance] passes
    [networks], which [launch_instance] does not accept, so the call raises
    [TypeError] after the old server was deleted; the [except] clause logs it.
    On the demo cloud, [rolling_update("web-1", ...)] returns normally, has
    deleted [web-1], and [web-1] no longer resolves. *)
Theorem rolling_update_deletes_without_replacement :
  (forall {B} (sdk : Sdk B) server_prefix new_image batch_size b,
     Forall (fun c => is_create_server c = false)
            (calls sdk (rolling_update server_prefix new_image batch_size) b))
  /\ result cloud_sdk (rolling_update "web-1" "ubuntu-20.04" 2) demo_cloud = Ok tt
  /\ find_server cloud_sdk demo_cloud "web-1" =
       Ok (Some (mk_server "web-1" "ACTIVE" addr1))
  /\ existsb (deletes_server "web-1")
       (calls cloud_sdk (rolling_update "web-1" "ubuntu-20.04" 2) demo_cloud) = true
  /\ find_server cloud_sdk
       (after cloud_sdk (rolling_update "web-1" "ubuntu-20.04" 2) demo_cloud)
       "web-1" = Ok None.
Proof.
  split; [intros; apply rolling_update_no_create_server|].
  split; [by vm_compute|]. split; [by vm_compute|].
  split; by vm_compute.
Qed.

(** * Cleanup *)

Section Cleanup.
Context {B : Type} (sdk : Sdk B).

Lemma cleanup_resources_scope prefix :
  only (cleanup_scope prefix) (cleanup_resources prefix).
Proof.
  unfold cleanup_resources, cleanup_servers, cleanup_volumes,
    cleanup_floating_ips, cleanup_routers, cleanup_networks,
    cleanup_security_groups.
  only_solve.
Qed.

Lemma cleanup_phase_no_delete_ip {A} (p : prog A) b :
  only (fun c => is_delete_ip c = false) p ->
  List.filter is_delete_ip (calls sdk p b) = [].
Proof. intros Hp. apply filter_none. by apply only_calls. Qed.

Lemma delete_unattached_run (l : list FloatingIp) w w' :
  run sdk
    (for_when l (fun fip => negb (truthy (fixed_ip_address fip)))
       (fun fip =>
          invoke (DeleteIp fip) ;;
          log INFO (MsgStr "Deleted floating IP: {}" (floating_ip_address fip)))) w
    = (Ok tt, w') ->
  exists t, trace w' = trace w ++ t
    /\ List.filter is_delete_ip t = map DeleteIp (List.filter unattached l).
Proof.
  unfold for_when. revert w. induction l as [|fip l IH]; intros w.
  - intros [= <-]. exists []. by rewrite app_nil_r.
  - rewrite run_for_each_cons. cbn [List.filter]. unfold unattached at 1.
    destruct (negb (truthy (fixed_ip_address fip))).
    + run_step. destruct (delete_ip sdk (backend w) fip) as [[[]|e] b']; [|done].
      cbn [fst snd]. run_step. intros Hrun.
      destruct (IH _ Hrun) as (t & Ht & Hdel).
      exists (DeleteIp fip ::
              Log INFO (MsgStr "Deleted floating IP: {}" (floating_ip_address fip))
              :: t).
      split; [rewrite Ht; cbn [trace]; by rewrite <- !app_assoc|].
      cbn [List.filter is_delete_ip map]. by rewrite Hdel.
    + cbn [run]. intros Hrun. by apply IH.
Qed.

Lemma cleanup_resources_delete_ips prefix b w' :
  run sdk (cleanup_resources prefix) (World b []) = (Ok tt, w') ->
  exists l,
    ips sdk (after sdk (cleanup_volumes prefix)
               (after sdk (cleanup_servers prefix) b)) = Ok l
    /\ List.filter is_delete_ip (trace w') =
         map DeleteIp (List.filter unattached l).
Proof.
  unfold cleanup_resources.
  set (rest := bind (cleanup_routers prefix) _).
  assert (only (fun c => is_delete_ip c = false) rest) as Hrest.
  { subst rest. unfold cleanup_routers, cleanup_networks,
      cleanup_security_groups. only_solve. }
  clearbody rest.
  rewrite run_bind, run_world. cbn [backend trace app].
  destruct (result sdk (cleanup_servers prefix) b) as [[]|e]; [|done].
  rewrite run_bind, run_world. cbn [backend trace].
  set (b1 := after sdk (cleanup_servers prefix) b).
  destruct (result sdk (cleanup_volumes prefix) b1) as [[]|e]; [|done].
  set (b2 := after sdk (cleanup_volumes prefix) b1).
  rewrite run_bind. unfold cleanup_floating_ips. run_step.
  destruct (ips sdk b2) as [l|e]; [|done].
  destruct (run sdk (for_when l _ _) _) as [[[]|e] w3] eqn:Hloop; [|done].
  apply delete_unattached_run in Hloop as (t3 & Ht3 & Hdel). cbn [trace] in Ht3.
  rewrite run_world. intros Hrun. exists l. split; [done|].
  assert (trace w' = trace w3 ++ calls sdk rest (backend w3)) as ->
    by (by inversion Hrun).
  rewrite Ht3, !List.filter_app, Hdel.
  rewrite !cleanup_phase_no_delete_ip.
  - cbn [List.filter is_delete_ip]. by rewrite app_nil_r.
  - done.
  - unfold cleanup_volumes. only_solve.
  - unfold cleanup_servers. only_solve.
Qed.
End Cleanup.

(** C9: [cleanup_resources(prefix)] deletes only what is in its scope:
    servers, volumes, routers, networks and security groups whose name starts
    with the prefix, and floating IPs with no fixed address, whatever the
    prefix.  When it returns, the [delete_ip] calls it has issued are exactly
    the unattached floating IPs of the listing, in order; the prefix plays no
    part in the choice. *)
Theorem cleanup_resources_floating_ips {B} (sdk : Sdk B) (prefix : string) (b : B) :
  Forall (cleanup_scope prefix) (calls sdk (cleanup_resources prefix) b)
  /\ (result sdk (cleanup_resources prefix) b = Ok tt ->
      exists l,
        ips sdk (after sdk (cleanup_volumes prefix)
                   (after sdk (cleanup_servers prefix) b)) = Ok l
        /\ List.filter is_delete_ip (calls sdk (cleanup_resources prefix) b) =
             map DeleteIp (List.filter unattached l)).
Proof.
  split.
  - apply only_calls, cleanup_resources_scope.
  - unfold result, calls. intros Hok.
    apply cleanup_resources_delete_ips.
    destruct (run sdk (cleanup_resources prefix) (World b [])) as [o w'].
    simpl in *. by subst o.
Qed.

Lemma cleanup_resources_floating_ips_witness :
  result cloud_sdk (cleanup_resources "auto-") demo_cloud = Ok tt
  /\ exists l,
       ips cloud_sdk (after cloud_sdk (cleanup_volumes "auto-")
                        (after cloud_sdk (cleanup_servers "auto-") demo_cloud)) = Ok l
       /\ List.filter is_delete_ip (calls cloud_sdk (cleanup_resources "auto-") demo_cloud) =
            map DeleteIp (List.filter unattached l).
Proof.
  split; [by vm_compute|].
  apply (cleanup_resources_floating_ips cloud_sdk "auto-" demo_cloud).
  by vm_compute.
Defined.

(** On the demo cloud the same two unattached floating IPs go, whether the
    prefix matches resources or not. *)
Example cleanup_resources_prefix_does_not_select_ips :
  deleted_ip_ids (calls cloud_sdk (cleanup_resources "auto-") demo_cloud) =
    ["fip-b"; "fip-c"]
  /\ deleted_ip_ids (calls cloud_sdk (cleanup_resources "no-such-prefix") demo_cloud) =
       ["fip-b"; "fip-c"].
Proof. split; by vm_compute. Qed.

(** * The worker pool keeps its invariant *)

Section PoolProofs.
Context {B T : Type} (sdk : Sdk B).
Variable I : world B -> Prop.
Variable Q : nat -> prog T -> Prop.
Variable F : nat -> outcome T -> Prop.
Hypothesis Q_step : forall i c k w,
  I w -> Q i (Do c k) ->
  I (snd (perform sdk c w)) /\ Q i (k (fst (perform sdk c w))).
Hypothesis Q_ret : forall i a, Q i (Ret a) -> F i (Ok a).
Hypothesis Q_throw : forall i e, Q i (Throw e) -> F i (Exn e).

Lemma empty_pool_ok : pool_ok Q F (@empty_pool T).
Proof. by repeat split; simpl; try constructor. Qed.

Lemma submit_ok max_workers task pl :
  pool_ok Q F pl -> Q (submitted pl) task ->
  fst (submit max_workers task pl) = submitted pl
  /\ submitted (snd (submit max_workers task pl)) = S (submitted pl)
  /\ pool_ok Q F (snd (submit max_workers task pl)).
Proof.
  intros (HQ & HF & Hperm) Htask. unfold submit.
  assert (Permutation
            (map fst ((running pl ++ queued pl) ++ [(submitted pl, task)])
             ++ map fst (finished pl))
            (seq 0 (S (submitted pl)))) as Hperm'.
  { rewrite seq_S, map_app. simpl.
    rewrite <- Hperm, <- !app_assoc.
    apply Permutation_app_head, Permutation_app_comm. }
  assert (Forall (fun t => Q (fst t) (snd t))
            ((running pl ++ queued pl) ++ [(submitted pl, task)])) as HQ'.
  { apply Forall_app. split; [done|]. by repeat constructor. }
  assert (Permutation ((running pl ++ queued pl) ++ [(submitted pl, task)])
            ((running pl ++ [(submitted pl, task)]) ++ queued pl)) as Hmove.
  { rewrite <- !app_assoc. apply Permutation_app_head, Permutation_app_comm. }
  destruct (length (running pl) <? max_workers)%nat; unfold pool_ok; simpl;
    (split; [done|]; split; [done|]); (split; [|split; [done|]]).
  - eapply Permutation_Forall; [exact Hmove|exact HQ'].
  - rewrite <- Hperm'. apply Permutation_app_tail, Permutation_map.
    by symmetry.
  - by rewrite app_assoc.
  - by rewrite app_assoc.
Qed.

Lemma retire_ok i future task o pl :
  pool_ok Q F pl ->
  running pl !! i = Some (future, task) ->
  F future o ->
  pool_ok Q F (retire i future o pl).
Proof.
  intros (HQ & HF & Hperm) Hi Ho. unfold retire, pool_ok. simpl.
  assert (Permutation (running pl) ((future, task) :: delete i (running pl)))
    as Hdel by by apply delete_Permutation.
  assert ((delete i (running pl) ++ take 1 (queued pl)) ++ drop 1 (queued pl)
          = delete i (running pl) ++ queued pl) as ->
    by by rewrite <- app_assoc, take_drop.
  split; [|split].
  - apply Forall_app in HQ as [Hr Hq]. apply Forall_app. split; [|done].
    eapply Permutation_Forall in Hr; [|exact Hdel]. by inversion Hr.
  - apply Forall_app. split; [done|]. by repeat constructor.
  - etrans; [|exact Hperm].
    apply (Permutation_map fst) in Hdel. simpl in Hdel.
    rewrite !map_app. simpl. rewrite Hdel. simpl.
    symmetry. rewrite !app_assoc. apply Permutation_cons_append.
Qed.

Lemma worker_step_ok pick pl w :
  I w -> pool_ok Q F pl ->
  I (snd (worker_step sdk pick pl w))
  /\ pool_ok Q F (fst (worker_step sdk pick pl w))
  /\ submitted (fst (worker_step sdk pick pl w)) = submitted pl.
Proof.
  intros HI Hpool. unfold worker_step.
  destruct (running pl !! _) as [[future task]|] eqn:Hi; [|done].
  assert (Q future task) as Htask.
  { destruct Hpool as (HQ & _). apply Forall_app in HQ as [Hr _].
    rewrite Forall_lookup in Hr. apply (Hr _ _ Hi). }
  destruct task as [a|e|c k].
  - simpl. split; [done|]. split; [|done]. eapply retire_ok; eauto.
  - simpl. split; [done|]. split; [|done]. eapply retire_ok; eauto.
  - destruct (Q_step _ _ _ _ HI Htask) as [HI' HQ'].
    destruct (perform sdk c w) as [o w']. simpl in *.
    split; [done|]. split; [|done].
    destruct Hpool as (HQ & HF & Hperm). unfold pool_ok. simpl.
    apply Forall_app in HQ as [Hr Hq].
    split; [|split; [done|]].
    + apply Forall_app. split; [|done]. by apply Forall_insert.
    + rewrite <- Hperm, !map_app. do 2 f_equiv.
      rewrite list_fmap_insert. simpl.
      rewrite list_insert_id; [done|]. by rewrite list_lookup_fmap, Hi.
Qed.

Lemma worker_steps_ok picks pl w :
  I w -> pool_ok Q F pl ->
  I (snd (worker_steps sdk picks pl w))
  /\ pool_ok Q F (fst (worker_steps sdk picks pl w))
  /\ submitted (fst (worker_steps sdk picks pl w)) = submitted pl.
Proof.
  revert pl w. induction picks as [|pick picks IH]; intros pl w HI Hpool; [done|].
  simpl. destruct (worker_step_ok pick pl w HI Hpool) as (HI' & Hpool' & Hsub).
  destruct (worker_step sdk pick pl w) as [pl' w']. simpl in *.
  rewrite <- Hsub. by apply IH.
Qed.

Lemma run_ok i (p : prog T) w :
  I w -> Q i p -> I (snd (run sdk p w)) /\ F i (fst (run sdk p w)).
Proof.
  revert w. induction p as [a|e|c k IH]; intros w HI HQ; simpl; auto.
  destruct (Q_step _ _ _ _ HI HQ) as [HI' HQ'].
  destruct (perform sdk c w) as [o w']. by apply IH.
Qed.

Lemma run_all_ok (l : list (nat * prog T)) w :
  I w -> Forall (fun t => Q (fst t) (snd t)) l ->
  I (snd (run_all sdk l w))
  /\ Forall (fun r => F (fst r) (snd r)) (fst (run_all sdk l w))
  /\ map fst (fst (run_all sdk l w)) = map fst l.
Proof.
  revert w. induction l as [|[future p] l IH]; intros w HI HQ; [done|].
  inversion HQ as [|? ? Hp Hl]; subst. simpl in Hp. simpl.
  destruct (run_ok future p w HI Hp) as [HI' HF].
  destruct (run sdk p w) as [o w1]. simpl in *.
  destruct (IH w1 HI' Hl) as (HI2 & HF2 & Hmap).
  destruct (run_all sdk l w1) as [r w2]. simpl in *.
  split; [done|]. split; [by constructor|]. by rewrite Hmap.
Qed.

Lemma drain_ok picks pl w :
  I w -> pool_ok Q F pl ->
  I (snd (drain sdk picks pl w))
  /\ pool_ok Q F (fst (drain sdk picks pl w))
  /\ pool_idle (fst (drain sdk picks pl w))
  /\ submitted (fst (drain sdk picks pl w)) = submitted pl.
Proof.
  intros HI Hpool. unfold drain.
  destruct (worker_steps_ok picks pl w HI Hpool) as (HI1 & Hpool1 & Hsub).
  destruct (worker_steps sdk picks pl w) as [pl1 w1]. simpl in *.
  destruct Hpool1 as (HQ & HF & Hperm).
  destruct (run_all_ok _ w1 HI1 HQ) as (HI2 & HF2 & Hmap).
  destruct (run_all sdk _ w1) as [r w2]. simpl in *.
  split; [done|]. split; [|by repeat split]. unfold pool_ok. simpl.
  split; [done|]. split; [by apply Forall_app|].
  rewrite map_app, Hmap.
  etrans; [apply Permutation_app_comm|exact Hperm].
Qed.

(** With nothing left to run the workers do nothing. *)
Lemma worker_steps_idle picks (pl : pool T) w :
  running pl = [] -> worker_steps sdk picks pl w = (pl, w).
Proof.
  intros Hidle. induction picks as [|pick picks IH]; [done|].
  assert (worker_step sdk pick pl w = (pl, w)) as Hstep.
  { unfold worker_step. by rewrite Hidle. }
  simpl. by rewrite Hstep.
Qed.

Lemma drain_idle picks (pl : pool T) w :
  pool_idle pl -> drain sdk picks pl w = (Pool [] [] (finished pl) (submitted pl), w).
Proof.
  intros [Hr Hq]. unfold drain. rewrite worker_steps_idle by done.
  rewrite Hr, Hq. simpl. by rewrite app_nil_r.
Qed.
End PoolProofs.

(** * Runs of the thread that owns the executor *)

Lemma pick_order_Permutation {X} (n : nat) (picks : list nat) (l : list X) :
  length l = n -> Permutation (pick_order n picks l) l.
Proof.
  revert picks l. induction n as [|n IH]; intros picks l Hlen.
  - by destruct l.
  - cbn [pick_order].
    destruct (lookup_lt_is_Some_2 l (hd 0%nat picks mod length l)%nat) as [x Hx].
    { apply Nat.mod_upper_bound. lia. }
    rewrite Hx. etrans; [|symmetry; exact (delete_Permutation l _ x Hx)].
    constructor. apply IH. rewrite length_delete; [lia|by eexists].
Qed.

Lemma as_completed_order_Permutation {X} (picks : list nat) (l : list X) :
  Permutation (as_completed_order picks l) l.
Proof. by apply pick_order_Permutation. Qed.

Section MRun.
Context {B : Type} (sdk : Sdk B).

Lemma mrun_bind {T A C} W (m : mprog T A) (f : A -> mprog T C) st :
  mrun sdk W (mbind_ m f) st =
    match mrun sdk W m st with
    | (Ok a, st') => mrun sdk W (f a) st'
    | (Exn e, st') => (Exn e, st')
    end.
Proof.
  revert st. induction m as [a|e|c k IH|task k IH|fs k IH]; intros st; simpl; try done.
  - destruct (perform sdk c _) as [o w']. apply IH.
  - destruct (submit W task _) as [future pl']. apply IH.
  - destruct (drain sdk _ _ _) as [pl w']. apply IH.
Qed.

Lemma mrun_mtry_except {T A} W (m : mprog T A) h st :
  mrun sdk W (mtry_except m h) st =
    match mrun sdk W m st with
    | (Ok a, st') => (Ok a, st')
    | (Exn e, st') => mrun sdk W (h e) st'
    end.
Proof.
  revert st. induction m as [a|e|c k IH|task k IH|fs k IH]; intros st; simpl; try done.
  - destruct (perform sdk c _) as [o w']. apply IH.
  - destruct (submit W task _) as [future pl']. apply IH.
  - destruct (drain sdk _ _ _) as [pl w']. apply IH.
Qed.

Lemma mrun_mfor_each_cons {T X S} W (x : X) l (body : X -> S -> mprog T S) s st :
  mrun sdk W (mfor_each (x :: l) body s) st =
    match mrun sdk W (body x s) st with
    | (Ok s', st') => mrun sdk W (mfor_each l body s') st'
    | (Exn e, st') => (Exn e, st')
    end.
Proof. simpl. apply mrun_bind. Qed.

Lemma interleave_idle {T} (st : exec_state B T) :
  pool_idle (es_pool st) ->
  interleave sdk st =
    ExecState (Schedule (tl (bursts (es_sched st))) (completion (es_sched st)))
              (es_pool st) (es_world st).
Proof.
  intros [Hr _]. unfold interleave. by rewrite worker_steps_idle.
Qed.

Lemma mrun_submit {T} W (task : prog T) st :
  mrun sdk W (executor_submit task) st =
    (Ok (fst (submit W task (es_pool (interleave sdk st)))),
     ExecState (es_sched (interleave sdk st))
               (snd (submit W task (es_pool (interleave sdk st))))
               (es_world (interleave sdk st))).
Proof. simpl. by destruct (submit W task _). Qed.

Lemma mrun_minvoke {T} W c (st : exec_state B T) :
  mrun sdk W (minvoke c) st =
    (fst (handle sdk c (backend (es_world (interleave sdk st)))),
     ExecState (es_sched (interleave sdk st)) (es_pool (interleave sdk st))
       (World (snd (handle sdk c (backend (es_world (interleave sdk st)))))
              (trace (es_world (interleave sdk st)) ++ [c]))).
Proof.
  unfold minvoke. cbn [mrun]. rewrite perform_eq.
  by destruct (fst (handle sdk c _)).
Qed.

Lemma mrun_mlog {T} W lvl m (st : exec_state B T) :
  mrun sdk W (mlog lvl m) st =
    (Ok tt,
     ExecState (es_sched (interleave sdk st)) (es_pool (interleave sdk st))
       (World (backend (es_world (interleave sdk st)))
              (trace (es_world (interleave sdk st)) ++ [Log lvl m]))).
Proof. exact (mrun_minvoke W (Log lvl m) st). Qed.

Lemma mrun_MRet {T A} W (a : A) (st : exec_state B T) :
  mrun sdk W (MRet a) st = (Ok a, st).
Proof. done. Qed.

Lemma mrun_mlift_outcome {T A} W (o : outcome A) (st : exec_state B T) :
  mrun sdk W (mlift_outcome o) st = (o, st).
Proof. by destruct o. Qed.

Lemma mrun_future_result {T} W (o : outcome T) (st : exec_state B T) :
  mrun sdk W (future_result o) st = (o, st).
Proof. by destruct o. Qed.
End MRun.

Section ExecutorInvariant.
Context {B T : Type} (sdk : Sdk B).
Variable I : world B -> Prop.
Variable Q : nat -> prog T -> Prop.
Variable F : nat -> outcome T -> Prop.
Hypothesis Q_step : forall i c k w,
  I w -> Q i (Do c k) ->
  I (snd (perform sdk c w)) /\ Q i (k (fst (perform sdk c w))).
Hypothesis Q_ret : forall i a, Q i (Ret a) -> F i (Ok a).
Hypothesis Q_throw : forall i e, Q i (Throw e) -> F i (Exn e).

Lemma interleave_ok (st : exec_state B T) :
  st_ok I Q F st ->
  st_ok I Q F (interleave sdk st)
  /\ submitted (es_pool (interleave sdk st)) = submitted (es_pool st).
Proof.
  intros [HI Hpool]. unfold interleave, st_ok.
  destruct (worker_steps_ok sdk I Q F Q_step Q_ret Q_throw
              (hd [] (bursts (es_sched st))) _ _ HI Hpool) as (HI' & Hpool' & Hsub).
  by destruct (worker_steps sdk _ _ _).
Qed.

(** [as_completed] over all the futures submitted so far: every future
    comes back once, with an outcome allowed by [F], and the pool is idle. *)
Lemma mrun_as_completed W fs (st : exec_state B T) :
  st_ok I Q F st ->
  (forall i, (i < submitted (es_pool st))%nat -> i ∈ fs) ->
  exists done st',
    mrun sdk W (as_completed fs) st = (Ok done, st')
    /\ st_ok I Q F st'
    /\ pool_idle (es_pool st')
    /\ Permutation (map fst done) (seq 0 (submitted (es_pool st)))
    /\ Forall (fun r => F (fst r) (snd r)) done.
Proof.
  intros [HI Hpool] Hfs. unfold as_completed. cbn [mrun].
  destruct (drain_ok sdk I Q F Q_step Q_ret Q_throw
              (concat (bursts (es_sched st))) _ _ HI Hpool)
    as (HI' & Hpool' & Hidle & Hsub).
  destruct (drain sdk _ _ _) as [pl w']. simpl in *.
  eexists _, _. split; [done|]. split; [done|]. split; [done|].
  destruct Hpool' as (_ & HF & Hperm). destruct Hidle as [Hr Hq].
  rewrite Hr, Hq in Hperm. simpl in Hperm. rewrite Hsub in Hperm.
  assert (List.filter (fun r : nat * outcome T => bool_decide (fst r ∈ fs))
            (finished pl) = finished pl) as ->.
  { apply forallb_filter_id. apply forallb_forall. intros r Hr'.
    apply bool_decide_eq_true_2, Hfs.
    assert (In (fst r) (seq 0 (submitted (es_pool st)))) as Hin.
    { eapply Permutation_in; [exact Hperm|]. by apply in_map. }
    apply in_seq in Hin. lia. }
  split.
  - by rewrite as_completed_order_Permutation.
  - eapply Permutation_Forall; [|exact HF].
    symmetry. apply as_completed_order_Permutation.
Qed.
End ExecutorInvariant.

(** * Health check *)

Section HealthCheck.
Context {B : Type} (sdk : Sdk B).

Lemma check_health_only_queries n :
  only (fun c => is_query c = true) (_check_instance_health n).
Proof. unfold _check_instance_health. only_solve. Qed.

Lemma check_health_status n b s :
  result sdk (_check_instance_health n) b = Ok s ->
  s = "healthy" \/ s = "unhealthy" \/ s = "unknown".
Proof.
  unfold result, _check_instance_health. run_step.
  destruct (find_server sdk b n) as [[server|]|e]; cbn [run fst]; [| |done].
  - destruct (negb _); cbn [run fst]; [intros [= <-]; auto|].
    destruct (bool_decide _); cbn [run fst]; intros [= <-]; auto.
  - intros [= <-]; auto.
Qed.

Lemma health_of_status b n :
  health_of sdk b n = "healthy" \/ health_of sdk b n = "unhealthy"
  \/ health_of sdk b n = "unknown".
Proof.
  unfold health_of.
  destruct (result sdk (_check_instance_health n) b) eqn:Hr; [|auto].
  by apply check_health_status in Hr.
Qed.

Lemma result_any_trace {A} (p : prog A) b t :
  fst (run sdk p (World b t)) = result sdk p b.
Proof. by rewrite run_trace. Qed.

Variable names : list string.
Variable b0 : B.

Lemma health_task_step i c k w :
  health_world b0 w -> health_task sdk names b0 i (Do c k) ->
  health_world b0 (snd (perform sdk c w))
  /\ health_task sdk names b0 i (k (fst (perform sdk c w))).
Proof.
  unfold health_world. intros Hw (n & Hn & Honly & Hres).
  apply only_Do_inv in Honly as [Hc Hk].
  rewrite perform_eq. cbn [fst snd backend].
  rewrite Hw, handle_query by done. split; [done|].
  exists n. split; [done|]. split; [apply Hk|].
  rewrite <- Hres. unfold result at 2. rewrite run_Do. cbn [backend trace].
  rewrite handle_query by done. by rewrite result_any_trace.
Qed.

Lemma health_task_ret i a :
  health_task sdk names b0 i (Ret a) -> health_future sdk names b0 i (Ok a).
Proof. intros (n & Hn & _ & Hres). by exists n. Qed.

Lemma health_task_throw i e :
  health_task sdk names b0 i (Throw e) -> health_future sdk names b0 i (Exn e).
Proof. intros (n & Hn & _ & Hres). by exists n. Qed.

(** The two loops of [health_check_instances]. *)
Local Abbreviation health_submit :=
  (fun server_name futures =>
     mbind_ (executor_submit (_check_instance_health server_name))
            (fun future => MRet (<[future := server_name]> futures))).

Local Abbreviation health_collect futures :=
  (fun (r : nat * outcome string) health_status =>
     mbind_ (future_get futures (fst r)) (fun server_name =>
       mtry_except
         (mbind_ (future_result (snd r)) (fun status =>
            mlift_outcome (dict_append health_status status server_name)))
         (fun e =>
            mbind_ (mlog ERROR (MsgStrExn "Failed to check health of {}: {}"
                                  server_name e))
                   (fun _ => mlift_outcome
                               (dict_append health_status "unknown" server_name))))).

Lemma future_get_Some {T} (futures : gmap nat string) i v :
  futures !! i = Some v -> @future_get T futures i = MRet v.
Proof. unfold future_get. by intros ->. Qed.

Lemma names_of_cons {T} i (o : outcome T) done n :
  names !! i = Some n ->
  omap (fun r : nat * outcome T => names !! fst r) ((i, o) :: done) =
    n :: omap (fun r : nat * outcome T => names !! fst r) done.
Proof. intros Hn. simpl. by rewrite Hn. Qed.

Lemma health_submit_loop W rest :
  forall pre (futures : gmap nat string) st,
    names = pre ++ rest ->
    submitted (es_pool st) = length pre ->
    st_ok (health_world b0) (health_task sdk names b0)
          (health_future sdk names b0) st ->
    (forall i, futures !! i = pre !! i) ->
    exists futures' st',
      mrun sdk W (mfor_each rest health_submit futures) st = (Ok futures', st')
      /\ st_ok (health_world b0) (health_task sdk names b0)
               (health_future sdk names b0) st'
      /\ submitted (es_pool st') = length names
      /\ (forall i, futures' !! i = names !! i).
Proof.
  induction rest as [|n rest IH]; intros pre futures st Hnames Hsub Hst Hfut.
  - exists futures, st. rewrite app_nil_r in Hnames. subst pre.
    split; [done|]. split; [done|]. by split.
  - rewrite mrun_mfor_each_cons, mrun_bind, mrun_submit.
    destruct (interleave_ok sdk _ _ _ (health_task_step) (health_task_ret)
                (health_task_throw) st Hst) as [[HI1 Hpool1] Hsub1].
    destruct (submit_ok (health_task sdk names b0) (health_future sdk names b0)
                W (_check_instance_health n) _ Hpool1) as (Hfst & Hsub2 & Hpool2).
    { exists n. rewrite Hsub1, Hsub, Hnames.
      split; [by apply list_lookup_middle|].
      split; [apply check_health_only_queries|done]. }
    rewrite Hfst, Hsub1, Hsub. cbn [mrun].
    apply (IH (pre ++ [n])).
    + by rewrite <- app_assoc.
    + cbn [es_pool]. rewrite Hsub2, Hsub1, Hsub, length_app. simpl. lia.
    + split; [exact HI1|exact Hpool2].
    + intros i. destruct (decide (i = length pre)) as [->|Hne].
      * rewrite lookup_insert_eq. symmetry. by apply list_lookup_middle.
      * rewrite lookup_insert_ne by done. rewrite Hfut.
        destruct (decide (i < length pre)%nat).
        -- by rewrite lookup_app_l.
        -- rewrite !lookup_ge_None_2; [done| |lia].
           rewrite length_app. simpl. lia.
Qed.

Lemma dict_append_three h u k status n :
  status = "healthy" \/ status = "unhealthy" \/ status = "unknown" ->
  dict_append (three_buckets h u k) status n =
    Ok (three_buckets
          (h ++ if String.eqb status "healthy" then [n] else [])
          (u ++ if String.eqb status "unhealthy" then [n] else [])
          (k ++ if String.eqb status "unknown" then [n] else [])).
Proof.
  unfold dict_append, three_buckets.
  intros [-> | [-> | ->]]; cbn [String.eqb Ascii.eqb Bool.eqb];
    rewrite ?app_nil_r.
  - rewrite lookup_insert_eq. by rewrite insert_insert_eq.
  - rewrite lookup_insert_ne, lookup_insert_eq by done. by f_equal.
  - rewrite !lookup_insert_ne, lookup_insert_eq by done. by f_equal.
Qed.

Lemma bucket_cons status n dn :
  bucket sdk b0 status (n :: dn) =
    (if String.eqb (health_of sdk b0 n) status then [n] else [])
    ++ bucket sdk b0 status dn.
Proof. unfold bucket. simpl. by destruct (String.eqb _ _). Qed.

Lemma health_collect_loop W (futures : gmap nat string) done :
  forall h u k (st : exec_state B string),
    (forall i, futures !! i = names !! i) ->
    Forall (fun r => health_future sdk names b0 (fst r) (snd r)) done ->
    pool_idle (es_pool st) ->
    backend (es_world st) = b0 ->
    exists st',
      mrun sdk W (mfor_each done (health_collect futures) (three_buckets h u k)) st =
        (Ok (three_buckets
               (h ++ bucket sdk b0 "healthy" (omap (fun r => names !! fst r) done))
               (u ++ bucket sdk b0 "unhealthy" (omap (fun r => names !! fst r) done))
               (k ++ bucket sdk b0 "unknown" (omap (fun r => names !! fst r) done))),
         st')
      /\ pool_idle (es_pool st')
      /\ backend (es_world st') = b0.
Proof.
  induction done as [|[i o] done IH]; intros h u k st Hfut HF Hidle Hb.
  - exists st. unfold bucket. simpl. by rewrite !app_nil_r.
  - apply Forall_cons in HF as [(n & Hn & Ho) HF']. cbn [fst snd] in *.
    rewrite mrun_mfor_each_cons. cbn [fst snd].
    rewrite (future_get_Some futures i n) by (by rewrite Hfut).
    cbn [mbind_]. rewrite (names_of_cons i o done n Hn).
    rewrite !bucket_cons, !app_assoc.
    rewrite mrun_mtry_except, mrun_bind, mrun_future_result.
    unfold health_of. subst o.
    destruct (result sdk (_check_instance_health n) b0) as [status|e] eqn:Hres.
    + rewrite mrun_mlift_outcome.
      rewrite dict_append_three by (by eapply check_health_status).
      by apply IH.
    + rewrite mrun_bind, mrun_mlog, interleave_idle by done.
      rewrite mrun_mlift_outcome.
      rewrite dict_append_three by auto.
      by apply IH.
Qed.

Lemma omap_lookup_seq {X} (l pre : list X) :
  omap (fun i => (pre ++ l) !! i) (seq (length pre) (length l)) = l.
Proof.
  revert pre. induction l as [|x l IH]; intros pre; [done|].
  cbn [length seq omap list_omap].
  rewrite list_lookup_middle by done. f_equal.
  specialize (IH (pre ++ [x])).
  rewrite <- app_assoc, length_app in IH. simpl in IH.
  by rewrite Nat.add_1_r in IH.
Qed.

Lemma names_of_futures {T} (done : list (nat * outcome T)) :
  Permutation (map fst done) (seq 0 (length names)) ->
  Permutation (omap (fun r : nat * outcome T => names !! fst r) done) names.
Proof.
  intros Hperm.
  assert (omap (fun r : nat * outcome T => names !! fst r) done =
          omap (fun i => names !! i) (map fst done)) as ->.
  { clear Hperm. induction done as [|r done IH]; [done|]. simpl.
    destruct (names !! fst r); [f_equal|]; exact IH. }
  etrans; [apply omap_Permutation, Hperm|].
  pose proof (omap_lookup_seq names []) as Hseq. simpl in Hseq.
  by rewrite Hseq.
Qed.
End HealthCheck.

(** What a health check returns: the three buckets hold the names in the
    order [dn] in which the futures were collected, each name in the bucket
    of its health on the backend of the call, which the check leaves
    unchanged. *)
Lemma health_check_run {B} (sdk : Sdk B) (max_workers : Z)
    (server_names : list string) (sc : schedule) (w : world B) :
  0 < max_workers ->
  exists dn w',
    health_check_instances sdk max_workers server_names sc w =
      (Ok (three_buckets (bucket sdk (backend w) "healthy" dn)
                         (bucket sdk (backend w) "unhealthy" dn)
                         (bucket sdk (backend w) "unknown" dn)), w')
    /\ Permutation dn server_names
    /\ backend w' = backend w.
Proof.
  intros Hpos. unfold health_check_instances, with_executor.
  destruct (Z.leb_spec max_workers 0) as [|_]; [lia|].
  unfold health_check_instances_body. rewrite mrun_bind.
  destruct (health_submit_loop sdk server_names (backend w)
              (Z.to_nat max_workers) server_names [] ∅
              (ExecState sc empty_pool w))
    as (futures & st1 & -> & Hst1 & Hsub1 & Hfut).
  { done. }
  { done. }
  { split; [done|]. apply empty_pool_ok. }
  { intros i. by rewrite lookup_empty. }
  rewrite mrun_bind.
  destruct (mrun_as_completed sdk _ _ _
              (health_task_step sdk server_names (backend w))
              (health_task_ret sdk server_names (backend w))
              (health_task_throw sdk server_names (backend w))
              (Z.to_nat max_workers) (elements (dom futures)) st1 Hst1)
    as (done & st2 & -> & [HI2 Hpool2] & Hidle2 & Hperm & HF).
  { intros i Hi. apply elem_of_elements, elem_of_dom. rewrite Hfut.
    apply lookup_lt_is_Some_2. lia. }
  destruct (health_collect_loop sdk server_names (backend w)
              (Z.to_nat max_workers) futures done [] [] [] st2 Hfut HF Hidle2 HI2)
    as (st3 & Hrun & Hidle3 & Hb3).
  change (<["healthy":=[]]> (<["unhealthy":=[]]> (<["unknown":=[]]> ∅)))
    with (three_buckets [] [] []).
  rewrite Hrun. rewrite drain_idle by done.
  eexists _, _. split; [reflexivity|]. split; [|done].
  apply names_of_futures. by rewrite Hperm, Hsub1.
Qed.

Section Buckets.
Context {B : Type} (sdk : Sdk B) (b : B).

Lemma buckets_Permutation (dn : list string) :
  Permutation (bucket sdk b "healthy" dn ++ bucket sdk b "unhealthy" dn
               ++ bucket sdk b "unknown" dn) dn.
Proof.
  induction dn as [|n dn IH]; [done|].
  unfold bucket in *. cbn [List.filter].
  destruct (health_of_status sdk b n) as [-> | [-> | ->]];
    cbn [String.eqb Ascii.eqb Bool.eqb].
  - simpl. by constructor.
  - etrans; [|apply perm_skip, IH]. symmetry. apply Permutation_middle.
  - etrans; [|apply perm_skip, IH]. symmetry.
    rewrite !app_assoc. apply Permutation_middle.
Qed.

Lemma bucket_In status n dn :
  In n (bucket sdk b status dn) <-> In n dn /\ health_of sdk b n = status.
Proof.
  unfold bucket. rewrite filter_In.
  destruct (String.eqb_spec (health_of sdk b n) status); intuition congruence.
Qed.

Lemma health_of_spec n :
  health_of sdk b n =
    match find_server sdk b n with
    | Ok (Some server) =>
        if negb (String.eqb (srv_status server) "ACTIVE") then "unhealthy"
        else if bool_decide (srv_addresses server = ∅) then "unhealthy"
        else "healthy"
    | Ok None => "unknown"
    | Exn _ => "unknown"
    end.
Proof.
  unfold health_of, result, _check_instance_health. run_step.
  destruct (find_server sdk b n) as [[server|]|e]; cbn [run fst]; try done.
  destruct (negb _); [done|]. by destruct (bool_decide _).
Qed.
End Buckets.

(** C1: [health_check_instances] returns the dict with the three buckets
    [healthy], [unhealthy] and [unknown]; together the buckets hold the input
    names, each occurrence once (no omission, and no duplicate when the input
    has none), and every input name is in exactly one bucket. *)
Theorem health_check_buckets_partition_names {B} (sdk : Sdk B)
    (max_workers : Z) (server_names : list string) (sc : schedule) (w : world B) :
  0 < max_workers ->
  exists h u k w',
    health_check_instances sdk max_workers server_names sc w =
      (Ok (three_buckets h u k), w')
    /\ Permutation (h ++ u ++ k) server_names
    /\ (NoDup server_names -> NoDup (h ++ u ++ k))
    /\ (forall n, In n server_names ->
          (In n h /\ ~ In n u /\ ~ In n k)
          \/ (~ In n h /\ In n u /\ ~ In n k)
          \/ (~ In n h /\ ~ In n u /\ In n k)).
Proof.
  intros Hpos.
  destruct (health_check_run sdk max_workers server_names sc w Hpos)
    as (dn & w' & Hrun & Hperm & _).
  eexists _, _, _, w'. split; [exact Hrun|].
  assert (Permutation
            (bucket sdk (backend w) "healthy" dn
             ++ bucket sdk (backend w) "unhealthy" dn
             ++ bucket sdk (backend w) "unknown" dn) server_names) as Hall.
  { etrans; [apply buckets_Permutation|exact Hperm]. }
  split; [exact Hall|]. split.
  - intros Hnodup. by rewrite Hall.
  - intros n Hn. rewrite !bucket_In.
    assert (In n dn) as Hdn by (eapply Permutation_in; [symmetry|]; eassumption).
    destruct (health_of_status sdk (backend w) n) as [Hs | [Hs | Hs]];
      rewrite Hs; [left | right; left | right; right];
      repeat split; try done; by intros [_ ?].
Qed.

Lemma health_check_buckets_partition_names_witness :
  0 < 3
  /\ exists h u k w',
       health_check_instances cloud_sdk 3
         ["web-1"; "web-2"; "no-such"; "ghost"; "web-3"; "web-4"]
         (Schedule [[0; 1; 2]; [1; 1; 0]; [5; 3]]%nat [2; 0; 1]%nat) demo_world =
         (Ok (three_buckets h u k), w')
       /\ Permutation (h ++ u ++ k)
            ["web-1"; "web-2"; "no-such"; "ghost"; "web-3"; "web-4"].
Proof.
  split; [lia|].
  destruct (health_check_buckets_partition_names cloud_sdk 3
              ["web-1"; "web-2"; "no-such"; "ghost"; "web-3"; "web-4"]
              (Schedule [[0; 1; 2]; [1; 1; 0]; [5; 3]]%nat [2; 0; 1]%nat)
              demo_world) as (h & u & k & w' & Hrun & Hperm & _); [lia|].
  exists h, u, k, w'. split; [exact Hrun|exact Hperm].
Defined.

(** In the result of [health_check_instances] a submitted name is in
    [unknown] exactly when its lookup returns no server or raises, in
    [unhealthy] exactly when it resolves to a server that is not [ACTIVE] or
    whose address mapping is empty ([not server.addresses]), and in [healthy]
    exactly when it resolves to an [ACTIVE] server whose address mapping has
    an entry. *)
Theorem health_check_classification {B} (sdk : Sdk B)
    (max_workers : Z) (server_names : list string) (sc : schedule) (w : world B) :
  0 < max_workers ->
  exists h u k w',
    health_check_instances sdk max_workers server_names sc w =
      (Ok (three_buckets h u k), w')
    /\ forall n, In n server_names ->
         (In n k <->
            find_server sdk (backend w) n = Ok None
            \/ exists e, find_server sdk (backend w) n = Exn e)
         /\ (In n u <->
               exists server,
                 find_server sdk (backend w) n = Ok (Some server)
                 /\ (srv_status server <> "ACTIVE" \/ srv_addresses server = ∅))
         /\ (In n h <->
               exists server,
                 find_server sdk (backend w) n = Ok (Some server)
                 /\ srv_status server = "ACTIVE"
                 /\ srv_addresses server <> ∅).
Proof.
  intros Hpos.
  destruct (health_check_run sdk max_workers server_names sc w Hpos)
    as (dn & w' & Hrun & Hperm & _).
  eexists _, _, _, w'. split; [exact Hrun|].
  intros n Hn. rewrite !bucket_In.
  assert (In n dn) as Hdn by (eapply Permutation_in; [symmetry|]; eassumption).
  rewrite health_of_spec.
  destruct (find_server sdk (backend w) n) as [[server|]|e].
  - destruct (String.eqb_spec (srv_status server) "ACTIVE") as [Hst|Hst];
      cbn [negb]; [destruct (bool_decide_reflect (srv_addresses server = ∅)) as [Ha|Ha]|].
    + split; [|split].
      * split; [by intros [_ ?]|]. intros [|[e ?]]; done.
      * split; [|done]. intros _. exists server. auto.
      * split; [by intros [_ ?]|]. intros (s & [= <-] & _ & Hne). done.
    + split; [|split].
      * split; [by intros [_ ?]|]. intros [|[e ?]]; done.
      * split; [by intros [_ ?]|]. intros (s & [= <-] & [?|?]); done.
      * split; [|done]. intros _. exists server. auto.
    + split; [|split].
      * split; [by intros [_ ?]|]. intros [|[e ?]]; done.
      * split; [|done]. intros _. exists server. auto.
      * split; [by intros [_ ?]|]. intros (s & [= <-] & ? & _). done.
  - split; [|split].
    + split; [auto|done].
    + split; [by intros [_ ?]|]. by intros (s & ? & _).
    + split; [by intros [_ ?]|]. by intros (s & ? & _).
  - split; [|split].
    + split; [eauto|done].
    + split; [by intros [_ ?]|]. by intros (s & ? & _).
    + split; [by intros [_ ?]|]. by intros (s & ? & _).
Qed.

Lemma health_check_classification_witness :
  0 < 3
  /\ exists h u k w',
       health_check_instances cloud_sdk 3
         ["web-1"; "web-2"; "no-such"; "ghost"; "web-3"; "web-4"]
         (Schedule [[0; 1; 2]; [1; 1; 0]; [5; 3]]%nat [2; 0; 1]%nat) demo_world =
         (Ok (three_buckets h u k), w')
       /\ (In "ghost" k <->
             find_server cloud_sdk demo_cloud "ghost" = Ok None
             \/ exists e, find_server cloud_sdk demo_cloud "ghost" = Exn e).
Proof.
  split; [lia|].
  destruct (health_check_classification cloud_sdk 3
              ["web-1"; "web-2"; "no-such"; "ghost"; "web-3"; "web-4"]
              (Schedule [[0; 1; 2]; [1; 1; 0]; [5; 3]]%nat [2; 0; 1]%nat)
              demo_world) as (h & u & k & w' & Hrun & Hclass); [lia|].
  exists h, u, k, w'. split; [exact Hrun|].
  apply (Hclass "ghost"). do 3 right. left. reflexivity.
Defined.

(** C2: the claim makes a server [unhealthy] when it has no assigned network
    address, and the source announces the same test ([# Check if server has
    IP]); the test it makes, [not server.addresses], is that the address
    mapping has no entry.  An [ACTIVE] server that is attached to networks
    and has no address on any of them is therefore reported [healthy], and
    not [unhealthy], under every schedule. *)
Theorem health_check_healthy_without_address {B} (sdk : Sdk B)
    (max_workers : Z) (server_names : list string) (sc : schedule) (w : world B)
    (n : string) (server : Server) :
  0 < max_workers ->
  In n server_names ->
  find_server sdk (backend w) n = Ok (Some server) ->
  srv_status server = "ACTIVE" ->
  srv_addresses server <> ∅ ->
  ~ has_address server ->
  exists h u k w',
    health_check_instances sdk max_workers server_names sc w =
      (Ok (three_buckets h u k), w')
    /\ In n h /\ ~ In n u /\ ~ In n k.
Proof.
  intros Hpos Hn Hfind Hst Hne _.
  destruct (health_check_run sdk max_workers server_names sc w Hpos)
    as (dn & w' & Hrun & Hperm & _).
  eexists _, _, _, w'. split; [exact Hrun|].
  assert (In n dn) as Hdn by (eapply Permutation_in; [symmetry|]; eassumption).
  assert (health_of sdk (backend w) n = "healthy") as Hh.
  { rewrite health_of_spec, Hfind, Hst. cbn [String.eqb Ascii.eqb Bool.eqb negb].
    by rewrite bool_decide_eq_false_2. }
  rewrite !bucket_In, Hh. split; [done|]. split; by intros [_ ?].
Qed.

Lemma health_check_healthy_without_address_witness :
  0 < 3
  /\ In "api-1" ["web-1"; "api-1"; "web-3"]
  /\ find_server cloud_sdk unaddressed_cloud "api-1" =
       Ok (Some (mk_server "api-1" "ACTIVE" no_addr))
  /\ ~ has_address (mk_server "api-1" "ACTIVE" no_addr)
  /\ exists h u k w',
       health_check_instances cloud_sdk 3 ["web-1"; "api-1"; "web-3"]
         (Schedule [[0; 1]; [2; 0]]%nat [1; 0]%nat) (World unaddressed_cloud []) =
         (Ok (three_buckets h u k), w')
       /\ In "api-1" h /\ ~ In "api-1" u /\ ~ In "api-1" k.
Proof.
  assert (~ has_address (mk_server "api-1" "ACTIVE" no_addr)) as Hno.
  { intros (net & addrs & Hl & Hne). unfold mk_server, no_addr in Hl.
    cbn [srv_addresses] in Hl. apply lookup_singleton_Some in Hl as [_ <-]. done. }
  split; [lia|]. split; [right; left; reflexivity|].
  split; [reflexivity|]. split; [exact Hno|].
  apply (health_check_healthy_without_address cloud_sdk 3
           ["web-1"; "api-1"; "web-3"]
           (Schedule [[0; 1]; [2; 0]]%nat [1; 0]%nat) (World unaddressed_cloud [])
           "api-1" (mk_server "api-1" "ACTIVE" no_addr)).
  - lia.
  - right; left; reflexivity.
  - reflexivity.
  - reflexivity.
  - unfold mk_server, no_addr. cbn [srv_addresses]. apply insert_non_empty.
  - exact Hno.
Defined.

(** The run of the witnesses, evaluated. *)
Example health_check_demo :
  fst (health_check_instances cloud_sdk 3
         ["web-1"; "web-2"; "no-such"; "ghost"; "web-3"; "web-4"]
         (Schedule [[0; 1; 2]; [1; 1; 0]; [5; 3]]%nat [2; 0; 1]%nat) demo_world) =
    Ok (three_buckets ["web-1"; "web-4"] ["web-2"; "web-3"] ["no-such"; "ghost"]).
Proof. by vm_compute. Qed.

Example health_check_unaddressed_demo :
  fst (health_check_instances cloud_sdk 3 ["web-1"; "api-1"; "web-3"]
         (Schedule [[0; 1]; [2; 0]]%nat [1; 0]%nat) (World unaddressed_cloud [])) =
    Ok (three_buckets ["api-1"; "web-1"] ["web-3"] []).
Proof. by vm_compute. Qed.

(** * Further properties of the serial resize *)

Section Resize.
Context {B : Type} (sdk : Sdk B).




End Resize.



(** Every resize that [batch_resize_instances] requests is for the flavor it
    looked up, every wait is for status [VERIFY_RESIZE] with a timeout of 300,
    and it issues no other command than resize, wait and confirm. *)
Theorem batch_resize_calls {B} (sdk : Sdk B)
    (server_names : list string) (new_flavor : string) (flavor : Flavor) (b : B) :
  find_flavor sdk b new_flavor = Ok (Some flavor) ->
  exists rest,
    calls sdk (batch_resize_instances server_names new_flavor) b =
      FindFlavor new_flavor :: rest
    /\ Forall (resize_call_ok flavor) rest.
Proof.
  intros Hf. unfold calls, batch_resize_instances. run_step. rewrite Hf.
  rewrite run_world. cbn [snd trace app backend].
  eexists. split; [reflexivity|].
  apply only_calls. apply only_for_each. intros n results _.
  unfold resize_one. only_solve.
Qed.

Lemma batch_resize_calls_witness :
  exists rest,
    calls cloud_sdk (batch_resize_instances ["web-1"; "web-5"] "m1.large")
      demo_cloud = FindFlavor "m1.large" :: rest
    /\ Forall (resize_call_ok {| flavor_id := "4" |}) rest.
Proof.
  apply (batch_resize_calls cloud_sdk ["web-1"; "web-5"] "m1.large"
           {| flavor_id := "4" |} demo_cloud).
  reflexivity.
Defined.

(** * Further properties of the rolling update *)

Lemma py_range_negative_step (n : nat) (step : Z) :
  step < 0 -> py_range 0 (Z.of_nat n) step = Ok [].
Proof.
  intros Hneg. unfold py_range.
  destruct (Z.eqb_spec step 0) as [|_]; [lia|].
  destruct (Z.ltb_spec 0 step) as [|_]; [lia|].
  assert ((0 - Z.of_nat n - step - 1) / - step <= 0) as Hq.
  { assert ((0 - Z.of_nat n - step - 1) / - step < 1); [|lia].
    apply Z.div_lt_upper_bound; lia. }
  by replace (Z.to_nat ((0 - Z.of_nat n - step - 1) / - step)) with 0%nat by lia.
Qed.

(** A [batch_size] that is not positive: [rolling_update] lists the servers
    and then, if some server matches, either raises the [ValueError] of
    [range] (size 0) or finds no window to process and returns (negative
    size).  In both cases no server is touched. *)
Theorem rolling_update_nonpositive_batch_size {B} (sdk : Sdk B)
    (server_prefix new_image : string) (batch_size : Z)
    (all : list Server) (w : world B) :
  servers sdk (backend w) = Ok all ->
  List.filter (fun s => String.prefix server_prefix (srv_name s)) all <> [] ->
  batch_size <= 0 ->
  run sdk (rolling_update server_prefix new_image batch_size) w =
    (if batch_size =? 0
     then Exn (ValueError "range() arg 3 must not be zero")
     else Ok tt,
     World (backend w) (trace w ++ [ListServers])).
Proof.
  intros Hall Hsome Hle. unfold rolling_update. run_step. rewrite Hall.
  destruct (List.filter _ all) as [|s rest]; [done|].
  rewrite run_bind, run_lift_outcome.
  destruct (Z.eqb_spec batch_size 0) as [->|Hne]; [done|].
  by rewrite py_range_negative_step by lia.
Qed.

Lemma rolling_update_nonpositive_batch_size_witness :
  run cloud_sdk (rolling_update "web" "ubuntu-20.04" 0) demo_world =
    (Exn (ValueError "range() arg 3 must not be zero"),
     World demo_cloud [ListServers])
  /\ run cloud_sdk (rolling_update "web" "ubuntu-20.04" (-2)) demo_world =
       (Ok tt, World demo_cloud [ListServers]).
Proof.
  split.
  - apply (rolling_update_nonpositive_batch_size cloud_sdk "web" "ubuntu-20.04"
             0 (c_servers demo_cloud) demo_world);
      [reflexivity | discriminate | lia].
  - apply (rolling_update_nonpositive_batch_size cloud_sdk "web" "ubuntu-20.04"
             (-2) (c_servers demo_cloud) demo_world);
      [reflexivity | discriminate | lia].
Defined.

Section RollingUpdateMore.
Context {B : Type} (sdk : Sdk B).

(** The list comprehension over [server.networks] makes no call; it raises
    [KeyError] when an entry has no [uuid]. *)
Lemma networks_loop_run (nets : list (gmap string string)) acc w :
  exists o,
    run sdk
      (for_each nets (fun net acc =>
         uuid <- lift_outcome (dict_get net "uuid") ;;
         Ret (acc ++ [ ({[ "uuid" := uuid ]} : gmap string string) ])) acc) w =
      (o, w)
    /\ ((exists net, In net nets /\ net !! "uuid" = None) ->
        o = Exn (KeyError "uuid")).
Proof.
  revert acc. induction nets as [|net nets IH]; intros acc.
  - eexists. split; [done|]. by intros (net & [] & _).
  - rewrite run_for_each_cons, run_bind, run_lift_outcome.
    unfold dict_get at 1.
    destruct (net !! "uuid") as [uuid|] eqn:Hu.
    + cbn [run]. destruct (IH (acc ++ [{["uuid" := uuid]}])) as (o & -> & Ho).
      exists o. split; [done|]. intros (net' & [<- | Hin] & Hnone).
      * congruence.
      * apply Ho. eauto.
    + eexists. split; [done|]. done.
Qed.

(** [rolling_update] deletes a server only after it has taken the
    snapshot and read the server's network ids.  When the snapshot request
    raises, the work on the server consists of reading the clock, the
    request, and the log of the error; when the snapshot is taken and an
    entry of [server.networks] has no [uuid], it consists of the clock, the
    request, the log of the snapshot and the log of the [KeyError].  Either
    way there is no delete, and the work on the server ends normally, so the
    rolling update goes on. *)
Theorem rolling_update_keeps_server_without_snapshot
    (new_image : string) (server : Server) (b : B) (t0 : list call) :
  let snapshot_name := pre_update_name server (now sdk b) in
  let failed e :=
    Log ERROR (MsgStrExn "Failed to update {}: {}" (srv_name server) e) in
  (forall e b1,
     create_server_image sdk b server snapshot_name = (Exn e, b1) ->
     run sdk (update_one new_image server) (World b t0) =
       (Ok tt,
        World b1 (t0 ++ [Now; CreateServerImage server snapshot_name; failed e])))
  /\ (forall image b1,
        create_server_image sdk b server snapshot_name = (Ok image, b1) ->
        (exists net, In net (srv_networks server) /\ net !! "uuid" = None) ->
        run sdk (update_one new_image server) (World b t0) =
          (Ok tt,
           World b1
             (t0 ++ [Now; CreateServerImage server snapshot_name;
                     Log INFO (MsgStr "Created pre-update snapshot: {}" snapshot_name);
                     failed (KeyError "uuid")]))).
Proof.
  cbv zeta. split.
  - intros e b1 Himg. unfold update_one, replace_server.
    rewrite run_try_except. do 2 run_step.
    match goal with
    | |- context [create_server_image sdk b server ?n] =>
        change (create_server_image sdk b server n)
          with (create_server_image sdk b server (pre_update_name server (now sdk b)))
    end.
    rewrite Himg. cbn [fst snd]. run_step. by rewrite <- !app_assoc.
  - intros image b1 Himg Hnet. unfold update_one, replace_server.
    rewrite run_try_except. do 2 run_step.
    match goal with
    | |- context [create_server_image sdk b server ?n] =>
        change (create_server_image sdk b server n)
          with (create_server_image sdk b server (pre_update_name server (now sdk b)))
    end.
    rewrite Himg. cbn [fst snd]. run_step. rewrite run_bind.
    match goal with
    | |- context [run sdk (for_each (srv_networks server) _ []) ?w0] =>
        destruct (networks_loop_run (srv_networks server) [] w0) as (o & -> & Ho)
    end.
    rewrite (Ho Hnet). run_step. by rewrite <- !app_assoc.
Qed.

(** The servers are listed once, at the start: whatever the number of
    windows, [rolling_update] issues no second listing. *)
Theorem rolling_update_lists_servers_once
    (server_prefix new_image : string) (batch_size : Z) (b : B) :
  exists rest,
    calls sdk (rolling_update server_prefix new_image batch_size) b =
      ListServers :: rest
    /\ Forall (fun c => is_list_servers c = false) rest.
Proof.
  unfold rolling_update. rewrite calls_bind.
  assert (calls sdk (invoke ListServers) b = [ListServers]) as ->.
  { unfold calls. by run_step. }
  eexists. split; [reflexivity|].
  destruct (result sdk (invoke ListServers) b) as [all|e]; [|constructor].
  apply only_calls.
  destruct (List.filter _ all); [only_solve|].
  apply only_bind; [apply only_lift_outcome|]. intros starts.
  apply only_for_each. intros i [] _.
  unfold rolling_window, update_one, replace_server.
  repeat first [ rewrite launch_instance_kw_networks | only_step ]; done.
Qed.
End RollingUpdateMore.

Lemma rolling_update_keeps_server_without_snapshot_witness :
  let server :=
    {| srv_id := "id-x"; srv_name := "web-x"; srv_status := "ACTIVE";
       srv_addresses := addr1;
       srv_flavor := {[ "original_name" := "m1.small" ]};
       srv_networks := [ {[ "uuid" := "net-1" ]}; {[ "name" := "private" ]} ] |} in
  let snapshot := CreateServerImage server "web-x-pre-update-1700000000" in
  calls snapshotless_cloud_sdk (update_one "ubuntu-20.04" server) demo_cloud =
    [Now; snapshot;
     Log ERROR (MsgStrExn "Failed to update {}: {}" "web-x"
                  (SdkError "image service unavailable"))]
  /\ calls cloud_sdk (update_one "ubuntu-20.04" server) demo_cloud =
       [Now; snapshot;
        Log INFO (MsgStr "Created pre-update snapshot: {}"
                    "web-x-pre-update-1700000000");
        Log ERROR (MsgStrExn "Failed to update {}: {}" "web-x" (KeyError "uuid"))].
Proof.
  cbv zeta. unfold calls. split.
  - erewrite (proj1 (rolling_update_keeps_server_without_snapshot
                       snapshotless_cloud_sdk "ubuntu-20.04" _ demo_cloud []));
      reflexivity.
  - erewrite (proj2 (rolling_update_keeps_server_without_snapshot
                       cloud_sdk "ubuntu-20.04" _ demo_cloud []));
      [reflexivity|reflexivity|].
    exists {[ "name" := "private" ]}. split; [right; left; reflexivity|].
    reflexivity.
Defined.

(** * Further properties of [launch_instance] *)

Section LaunchRequestProofs.
Context {B : Type} (sdk : Sdk B).

Lemma network_segment_run network_name network b t :
  looked_up_network sdk b network_name = Ok network ->
  run sdk
    (match network_name with
     | Some n =>
         if truthy network_name then
           network <- invoke (FindNetwork n) ;;
           match network with
           | Some nw => Ret [ ({[ "uuid" := network_id nw ]} : gmap string string) ]
           | None => Ret []
           end
         else Ret []
     | None => Ret []
     end) (World b t) =
    (Ok match network with
        | Some nw => [ {[ "uuid" := network_id nw ]} ]
        | None => []
        end,
     World b (t ++ if truthy network_name
                   then [FindNetwork (default "" network_name)] else [])).
Proof.
  unfold looked_up_network. intros H.
  destruct network_name as [n|]; [|injection H as <-; by rewrite app_nil_r].
  destruct (truthy (Some n)); [|injection H as <-; by rewrite app_nil_r].
  cbn [default from_option id] in *. run_step. rewrite H. by destruct network.
Qed.

Lemma group_segment_run security_group_name sg b t :
  looked_up_group sdk b security_group_name = Ok sg ->
  run sdk
    (match security_group_name with
     | Some n =>
         if truthy security_group_name then
           sg <- invoke (FindSecurityGroup n) ;;
           match sg with
           | Some g => Ret [ ({[ "name" := sg_name g ]} : gmap string (option string)) ]
           | None => Ret []
           end
         else Ret []
     | None => Ret []
     end) (World b t) =
    (Ok match sg with
        | Some g => [ {[ "name" := sg_name g ]} ]
        | None => []
        end,
     World b (t ++ if truthy security_group_name
                   then [FindSecurityGroup (default "" security_group_name)]
                   else [])).
Proof.
  unfold looked_up_group. intros H.
  destruct security_group_name as [n|]; [|injection H as <-; by rewrite app_nil_r].
  destruct (truthy (Some n)); [|injection H as <-; by rewrite app_nil_r].
  cbn [default from_option id] in *. run_step. rewrite H. by destruct sg.
Qed.

Lemma user_data_segment_run name user_data enable_nrdot b t :
  run sdk
    (if enable_nrdot && negb (truthy user_data) then
       key <- invoke (GetEnv "NEW_RELIC_LICENSE_KEY") ;;
       let new_relic_key := default "" key in
       if negb (String.eqb new_relic_key "")
       then Ret (Some (_generate_nrdot_userdata name new_relic_key))
       else Ret user_data
     else Ret user_data) (World b t) =
    (Ok (passed_user_data sdk b name user_data enable_nrdot),
     World b (t ++ if enable_nrdot && negb (truthy user_data)
                   then [GetEnv "NEW_RELIC_LICENSE_KEY"] else [])).
Proof.
  unfold passed_user_data.
  destruct (enable_nrdot && negb (truthy user_data)); [|by rewrite app_nil_r].
  run_step. destruct (getenv sdk b "NEW_RELIC_LICENSE_KEY") as [key|];
    cbn [default from_option id]; [|reflexivity].
  by destruct (String.eqb key "").
Qed.
End LaunchRequestProofs.

(** Once the image and the flavor are found and the optional lookups
    have answered, [launch_instance] makes its lookups, then requests one
    server: under the caller's name and key name, with the image and the
    flavor found, attached to the network and the security group found (to
    none when the name was not given or not found), and with the caller's
    user data, or the NRDOT script generated for the name and the
    environment's license key when the caller gave no user data, NRDOT is
    enabled and the key is set and not empty.  It then waits for the server
    created, with the SDK's defaults, logs and returns the server the wait
    returns; an error of the request or of the wait ends the call at that
    point. *)
Theorem launch_instance_request {B} (sdk : Sdk B)
    (name image_name flavor_name : string)
    (network_name security_group_name key_name user_data : option string)
    (enable_nrdot : bool) (image : Image) (flavor : Flavor)
    (network : option Network) (sg : option SecurityGroup)
    (b : B) (t0 : list call) :
  find_image sdk b image_name = Ok (Some image) ->
  find_flavor sdk b flavor_name = Ok (Some flavor) ->
  looked_up_network sdk b network_name = Ok network ->
  looked_up_group sdk b security_group_name = Ok sg ->
  let args :=
    launch_request sdk b name image flavor network sg key_name user_data
      enable_nrdot in
  let asked :=
    launch_lookups image_name flavor_name network_name security_group_name
      user_data enable_nrdot ++ [CreateServer args] in
  run sdk (launch_instance name image_name flavor_name network_name
             security_group_name key_name user_data enable_nrdot) (World b t0) =
    match create_server sdk b args with
    | (Exn e, b1) => (Exn e, World b1 (t0 ++ asked))
    | (Ok server, b1) =>
        match wait_for_server sdk b1 server None None with
        | (Exn e, b2) =>
            (Exn e, World b2 (t0 ++ asked ++ [WaitForServer server None None]))
        | (Ok active, b2) =>
            (Ok active,
             World b2
               (t0 ++ asked
                ++ [WaitForServer server None None;
                    Log INFO (MsgStr "Instance {} is active" (srv_name active))]))
        end
    end.
Proof.
  intros Himg Hflv Hnet Hsg. cbv zeta. unfold launch_instance, launch_lookups.
  run_step. rewrite Himg. run_step. rewrite Hflv.
  rewrite run_bind, (network_segment_run sdk _ _ _ _ Hnet).
  rewrite run_bind, (group_segment_run sdk _ _ _ _ Hsg).
  rewrite run_bind, user_data_segment_run.
  run_step. fold (launch_request sdk b name image flavor network sg key_name
                    user_data enable_nrdot).
  destruct (create_server sdk b _) as [[server|e] b1]; cbn [fst snd].
  - run_step. destruct (wait_for_server sdk b1 server None None)
      as [[active|e] b2]; cbn [fst snd].
    + run_step. cbn [run]. by rewrite <- !app_assoc.
    + by rewrite <- !app_assoc.
  - by rewrite <- !app_assoc.
Qed.

Lemma launch_instance_request_witness :
  let run_it :=
    run (licensed_cloud_sdk "0123456789abcdef")
        (launch_instance "vm-1" "ubuntu-20.04" "m1.small"
           (Some "auto-app-network") (Some "no-such-group") (Some "ops-key")
           None true) demo_world in
  match fst run_it with
  | Ok server => srv_name server = "vm-1" /\ srv_status server = "ACTIVE"
  | Exn _ => False
  end
  /\ exists server,
       trace (snd run_it) =
         [FindImage "ubuntu-20.04"; FindFlavor "m1.small";
          FindNetwork "auto-app-network"; FindSecurityGroup "no-such-group";
          GetEnv "NEW_RELIC_LICENSE_KEY";
          CreateServer
            {| cs_name := "vm-1"; cs_image_id := "img-ubuntu"; cs_flavor_id := "2";
               cs_networks := [ {[ "uuid" := "net-1" ]} ];
               cs_security_groups := [];
               cs_key_name := Some "ops-key";
               cs_user_data :=
                 Some (_generate_nrdot_userdata "vm-1" "0123456789abcdef") |};
          WaitForServer server None None;
          Log INFO (MsgStr "Instance {} is active" "vm-1")].
Proof.
  cbv zeta. unfold demo_world.
  rewrite (launch_instance_request (licensed_cloud_sdk "0123456789abcdef")
             "vm-1" "ubuntu-20.04" "m1.small"
             (Some "auto-app-network") (Some "no-such-group") (Some "ops-key")
             None true {| image_id := "img-ubuntu" |} {| flavor_id := "2" |}
             (Some {| network_id := "net-1"; network_name := Some "auto-app-network";
                      is_router_external := false |})
             None demo_cloud [] eq_refl eq_refl eq_refl eq_refl).
  split; [by vm_compute|]. eexists. by vm_compute.
Defined.

(** A network that [launch_instance] looks up and does not find is ignored:
    the call goes on as if no network had been named, and the server is
    created with no network attachment. *)
Theorem launch_instance_unknown_network_ignored {B} (sdk : Sdk B)
    (name image_name flavor_name net : string)
    (security_group_name key_name user_data : option string)
    (enable_nrdot : bool) (b : B) :
  find_network sdk b net = Ok None ->
  result sdk (launch_instance name image_name flavor_name (Some net)
                security_group_name key_name user_data enable_nrdot) b =
  result sdk (launch_instance name image_name flavor_name None
                security_group_name key_name user_data enable_nrdot) b
  /\ after sdk (launch_instance name image_name flavor_name (Some net)
                  security_group_name key_name user_data enable_nrdot) b =
     after sdk (launch_instance name image_name flavor_name None
                  security_group_name key_name user_data enable_nrdot) b.
Proof.
  intros Hnet. unfold result, after, launch_instance.
  do 2 run_step. destruct (find_image sdk b image_name) as [[image|]|]; try done.
  do 2 run_step. destruct (find_flavor sdk b flavor_name) as [[flavor|]|]; try done.
  destruct (truthy (Some net)); [|done].
  rewrite (run_bind sdk (bind _ _)). run_step. rewrite Hnet.
  cbn [run]. rewrite (run_bind sdk (Ret _)). cbn [run].
  match goal with
  | |- context [run sdk ?p (World b ?t1)] =>
      rewrite (run_world sdk p (World b t1))
  end.
  match goal with
  | |- context [run sdk ?p (World b ?t1)] =>
      rewrite (run_world sdk p (World b t1))
  end.
  done.
Qed.

Lemma launch_instance_unknown_network_ignored_witness :
  result cloud_sdk (launch_instance "vm" "ubuntu-20.04" "m1.small"
                      (Some "no-network") None None None true) demo_cloud =
  result cloud_sdk (launch_instance "vm" "ubuntu-20.04" "m1.small"
                      None None None None true) demo_cloud.
Proof.
  apply (launch_instance_unknown_network_ignored cloud_sdk "vm" "ubuntu-20.04"
           "m1.small" "no-network" None None None true demo_cloud).
  reflexivity.
Defined.

(** * Further properties of [assign_floating_ip] *)

Lemma first_external_none (nets : list Network) :
  Forall (fun n => is_router_external n = false) nets ->
  first_external nets = None.
Proof.
  unfold first_external. induction 1 as [|n nets Hn _ IH]; [done|].
  simpl. by rewrite Hn.
Qed.

(** With no external network in the listing, [assign_floating_ip] raises
    [ValueError] after the two lookups: no floating IP is created and the
    backend is left as it was. *)
Theorem assign_floating_ip_no_external_network {B} (sdk : Sdk B)
    (server_name : string) (server : Server) (nets : list Network) (w : world B) :
  find_server sdk (backend w) server_name = Ok (Some server) ->
  networks sdk (backend w) = Ok nets ->
  Forall (fun n => is_router_external n = false) nets ->
  run sdk (assign_floating_ip server_name) w =
    (Exn (ValueError "No external network found"),
     World (backend w) (trace w ++ [FindServer server_name; ListNetworks])).
Proof.
  intros Hs Hn Hext. unfold assign_floating_ip.
  run_step. rewrite Hs. run_step. rewrite Hn.
  rewrite (first_external_none nets Hext). cbn [run].
  by rewrite <- app_assoc.
Qed.

Lemma assign_floating_ip_no_external_network_witness :
  let private_only :=
    {| c_servers := c_servers demo_cloud; c_images := []; c_flavors := [];
       c_networks := [ {| network_id := "net-1";
                          network_name := Some "auto-app-network";
                          is_router_external := false |} ];
       c_security_groups := []; c_volumes := []; c_ips := []; c_routers := [];
       c_snapshots := []; c_clock := 0; c_broken_servers := [] |} in
  run cloud_sdk (assign_floating_ip "web-1") (World private_only []) =
    (Exn (ValueError "No external network found"),
     World private_only [FindServer "web-1"; ListNetworks]).
Proof.
  cbv zeta.
  eapply (assign_floating_ip_no_external_network cloud_sdk "web-1").
  - reflexivity.
  - reflexivity.
  - by repeat constructor.
Defined.

(** When attaching the address to the server fails, the error reaches the
    caller and the floating IP that [assign_floating_ip] has just created on
    the first external network stays allocated: the method never releases
    it. *)
Theorem assign_floating_ip_attach_failure_leaves_ip {B} (sdk : Sdk B)
    (server_name : string) (server : Server) (nets : list Network)
    (external_net : Network) (ip : FloatingIp) (e : exn) (b1 b2 : B)
    (w : world B) :
  find_server sdk (backend w) server_name = Ok (Some server) ->
  networks sdk (backend w) = Ok nets ->
  first_external nets = Some external_net ->
  create_ip sdk (backend w) (network_id external_net) = (Ok ip, b1) ->
  add_floating_ip_to_server sdk b1 server (floating_ip_address ip) = (Exn e, b2) ->
  run sdk (assign_floating_ip server_name) w =
    (Exn e,
     World b2
       (trace w ++
        [FindServer server_name; ListNetworks;
         CreateIp (network_id external_net);
         Log INFO (MsgStr "Created floating IP: {}" (floating_ip_address ip));
         AddFloatingIpToServer server (floating_ip_address ip)])).
Proof.
  intros Hs Hn Hext Hip Hadd. unfold assign_floating_ip.
  run_step. rewrite Hs. run_step. rewrite Hn, Hext.
  run_step. rewrite Hip. cbn [fst snd]. do 2 run_step. rewrite Hadd.
  cbn [fst snd]. by rewrite <- !app_assoc.
Qed.

Lemma assign_floating_ip_attach_failure_leaves_ip_witness :
  fst (run (faulty_cloud_sdk true false) (assign_floating_ip "web-1") demo_world) =
    Exn (SdkError "port not found")
  /\ length (c_ips (backend (snd (run (faulty_cloud_sdk true false)
                                    (assign_floating_ip "web-1") demo_world))))
     = S (length (c_ips demo_cloud)).
Proof.
  erewrite assign_floating_ip_attach_failure_leaves_ip; cycle 1.
  - reflexivity.
  - reflexivity.
  - reflexivity.
  - reflexivity.
  - reflexivity.
  - split; reflexivity.
Defined.

(** * Further properties of [cleanup_resources] *)

Section CleanupMore.
Context {B : Type} (sdk : Sdk B).

Lemma name_matches_truthy prefix o : name_matches prefix o = true -> truthy o = true.
Proof. destruct o as [s|]; simpl; [|done]. by intros [? _]%andb_prop. Qed.

(** Volumes, routers, networks and security groups without a name are never
    deleted by [cleanup_resources], whatever the prefix (the empty prefix
    included). *)
Theorem cleanup_resources_spares_unnamed (prefix : string) (b : B) :
  Forall deletes_named_only (calls sdk (cleanup_resources prefix) b).
Proof.
  apply only_calls.
  eapply only_mono; [|apply cleanup_resources_scope].
  intros [] Hc; simpl in *; try done; by eapply name_matches_truthy.
Qed.

Lemma skip_unmatched_run {X} (pre : list X) (x : X) (rest : list X)
    (test : X -> bool) (body : X -> prog unit) w :
  Forall (fun y => test y = false) pre -> test x = true ->
  run sdk (for_when (pre ++ x :: rest) test body) w =
    match run sdk (body x) w with
    | (Ok _, w') => run sdk (for_when rest test body) w'
    | (Exn e, w') => (Exn e, w')
    end.
Proof.
  intros Hpre Hx. unfold for_when.
  induction Hpre as [|y pre Hy _ IH]; cbn [app].
  - rewrite run_for_each_cons. rewrite Hx.
    by destruct (run sdk (body x) w) as [[[]|e] w'].
  - rewrite run_for_each_cons. rewrite Hy. cbn [run]. exact IH.
Qed.

(** [cleanup_resources] is not failure tolerant: when deleting the first
    server that matches the prefix raises, the error reaches the caller and
    nothing else is deleted (no other server, no volume, floating IP,
    router, network or security group). *)
Theorem cleanup_resources_stops_at_first_failure (prefix : string)
    (pre rest : list Server) (server : Server) (e : exn) (b1 : B) (w : world B) :
  servers sdk (backend w) = Ok (pre ++ server :: rest) ->
  Forall (fun s => String.prefix prefix (srv_name s) = false) pre ->
  String.prefix prefix (srv_name server) = true ->
  delete_server sdk (backend w) server = (Exn e, b1) ->
  run sdk (cleanup_resources prefix) w =
    (Exn e, World b1 (trace w ++ [ListServers; DeleteServer server])).
Proof.
  intros Hall Hpre Hmatch Hdel. unfold cleanup_resources.
  rewrite run_bind. unfold cleanup_servers. run_step. rewrite Hall.
  rewrite skip_unmatched_run by done.
  run_step. rewrite Hdel. cbn [fst snd]. by rewrite <- app_assoc.
Qed.
End CleanupMore.

Lemma cleanup_resources_stops_at_first_failure_witness :
  run (faulty_cloud_sdk false true) (cleanup_resources "web-2") demo_world =
    (Exn (SdkError "server is locked"),
     World (tick demo_cloud)
       [ListServers; DeleteServer (mk_server "web-2" "SHUTOFF" addr1)]).
Proof.
  apply (cleanup_resources_stops_at_first_failure (faulty_cloud_sdk false true)
           "web-2" [mk_server "web-1" "ACTIVE" addr1]
           [mk_server "web-3" "ACTIVE" ∅; mk_server "web-4" "ACTIVE" addr1;
            mk_server "web-5" "ERROR" addr1; mk_server "db-1" "ACTIVE" addr1]
           (mk_server "web-2" "SHUTOFF" addr1)).
  - reflexivity.
  - by repeat constructor.
  - reflexivity.
  - reflexivity.
Defined.

Section CleanupServers.
Context {B : Type} (sdk : Sdk B).

Lemma delete_servers_run (prefix : string) (l : list Server) w w' :
  run sdk
    (for_when l (fun server => String.prefix prefix (srv_name server))
       (fun server =>
          invoke (DeleteServer server) ;;
          log INFO (MsgStr "Deleted server: {}" (srv_name server)))) w
    = (Ok tt, w') ->
  exists t, trace w' = trace w ++ t
    /\ List.filter is_delete_server t =
         map DeleteServer
           (List.filter (fun server => String.prefix prefix (srv_name server)) l).
Proof.
  unfold for_when. revert w. induction l as [|s l IH]; intros w.
  - intros [= <-]. exists []. by rewrite app_nil_r.
  - rewrite run_for_each_cons. cbn [List.filter].
    destruct (String.prefix prefix (srv_name s)).
    + run_step. destruct (delete_server sdk (backend w) s) as [[[]|e] b']; [|done].
      cbn [fst snd]. run_step. intros Hrun.
      destruct (IH _ Hrun) as (t & Ht & Hdel).
      exists (DeleteServer s ::
              Log INFO (MsgStr "Deleted server: {}" (srv_name s)) :: t).
      split; [rewrite Ht; cbn [trace]; by rewrite <- !app_assoc|].
      cbn [List.filter is_delete_server map]. by rewrite Hdel.
    + cbn [run]. intros Hrun. by apply IH.
Qed.

Lemma prefix_empty s : String.prefix "" s = true.
Proof. by destruct s. Qed.

Lemma filter_all {X} (f : X -> bool) (l : list X) :
  (forall x, f x = true) -> List.filter f l = l.
Proof.
  intros Hf. induction l as [|x l IH]; [done|]. simpl. by rewrite Hf, IH.
Qed.

(** When [cleanup_resources] returns, it has issued a delete for every
    listed server whose name starts with the prefix, in the order of the
    listing, and for no other server; with the empty prefix that is every
    server of the listing. *)
Theorem cleanup_resources_deletes_matching_servers (prefix : string)
    (all : list Server) (b : B) :
  servers sdk b = Ok all ->
  result sdk (cleanup_resources prefix) b = Ok tt ->
  List.filter is_delete_server (calls sdk (cleanup_resources prefix) b) =
    map DeleteServer
      (List.filter (fun server => String.prefix prefix (srv_name server)) all)
  /\ (prefix = "" ->
      List.filter is_delete_server (calls sdk (cleanup_resources prefix) b) =
        map DeleteServer all).
Proof.
  intros Hall Hok.
  assert (List.filter is_delete_server (calls sdk (cleanup_resources prefix) b) =
          map DeleteServer
            (List.filter (fun server => String.prefix prefix (srv_name server)) all))
    as Hdel.
  { revert Hok. unfold result, calls, cleanup_resources.
    set (rest := bind (cleanup_volumes prefix) _).
    assert (only (fun c => is_delete_server c = false) rest) as Hrest.
    { subst rest. unfold cleanup_volumes, cleanup_floating_ips, cleanup_routers,
        cleanup_networks, cleanup_security_groups. only_solve. }
    clearbody rest.
    rewrite run_bind. unfold cleanup_servers. run_step. rewrite Hall.
    destruct (run sdk (for_when all _ _) _) as [[[]|e] w1] eqn:Hloop; [|done].
    apply delete_servers_run in Hloop as (t & Ht & Hdel). cbn [trace app] in Ht.
    rewrite run_world. cbn [fst snd trace]. intros _.
    rewrite Ht. change (ListServers :: t) with ([ListServers] ++ t).
    rewrite !List.filter_app, Hdel.
    rewrite (filter_none is_delete_server (calls sdk rest (backend w1)))
      by by apply only_calls.
    cbn [List.filter is_delete_server app]. by rewrite app_nil_r. }
  split; [exact Hdel|].
  intros ->. rewrite Hdel. f_equal. apply filter_all. intros s. apply prefix_empty.
Qed.
End CleanupServers.

Lemma cleanup_resources_deletes_matching_servers_witness :
  List.filter is_delete_server (calls cloud_sdk (cleanup_resources "") demo_cloud) =
    map DeleteServer (c_servers demo_cloud).
Proof.
  apply (cleanup_resources_deletes_matching_servers cloud_sdk ""
           (c_servers demo_cloud) demo_cloud).
  - reflexivity.
  - by vm_compute.
  - reflexivity.
Defined.

(** * Further properties of the health check *)

Lemma filter_Permutation_list {X} (f : X -> bool) (l1 l2 : list X) :
  Permutation l1 l2 -> Permutation (List.filter f l1) (List.filter f l2).
Proof.
  induction 1 as [|x l1 l2 _ IH|x y l|l1 l2 l3 _ IH1 _ IH2]; simpl.
  - done.
  - destruct (f x); [by constructor|done].
  - destruct (f x), (f y); try done. apply perm_swap.
  - by etrans.
Qed.

(** A health check only observes: it leaves the backend as it was, and a
    second check of the same names on that backend puts the same names in
    each bucket, whatever the two thread schedules (the order inside a bucket
    is the order of completion and may differ). *)
Theorem health_check_repeatable {B} (sdk : Sdk B) (max_workers : Z)
    (server_names : list string) (sc1 sc2 : schedule) (w : world B) :
  0 < max_workers ->
  exists h1 u1 k1 w1 h2 u2 k2 w2,
    health_check_instances sdk max_workers server_names sc1 w =
      (Ok (three_buckets h1 u1 k1), w1)
    /\ health_check_instances sdk max_workers server_names sc2 w1 =
         (Ok (three_buckets h2 u2 k2), w2)
    /\ backend w1 = backend w /\ backend w2 = backend w
    /\ Permutation h1 h2 /\ Permutation u1 u2 /\ Permutation k1 k2.
Proof.
  intros Hpos.
  destruct (health_check_run sdk max_workers server_names sc1 w Hpos)
    as (dn1 & w1 & Hrun1 & Hperm1 & Hb1).
  destruct (health_check_run sdk max_workers server_names sc2 w1 Hpos)
    as (dn2 & w2 & Hrun2 & Hperm2 & Hb2).
  rewrite Hb1 in Hrun2.
  eexists _, _, _, w1, _, _, _, w2.
  split; [exact Hrun1|]. split; [exact Hrun2|].
  split; [done|]. split; [congruence|].
  assert (Permutation dn1 dn2) as Hdn by (etrans; [exact Hperm1|by symmetry]).
  unfold bucket. split; [|split]; by apply filter_Permutation_list.
Qed.

Lemma health_check_repeatable_witness :
  0 < 2
  /\ exists h1 u1 k1 w1 h2 u2 k2 w2,
       health_check_instances cloud_sdk 2 ["web-1"; "web-2"; "ghost"; "web-4"]
         (Schedule [[0; 1]; [1]]%nat [3; 0]%nat) demo_world =
         (Ok (three_buckets h1 u1 k1), w1)
       /\ health_check_instances cloud_sdk 2 ["web-1"; "web-2"; "ghost"; "web-4"]
            (Schedule [] [1; 1; 1]%nat) w1 =
            (Ok (three_buckets h2 u2 k2), w2)
       /\ backend w1 = demo_cloud /\ backend w2 = demo_cloud
       /\ Permutation h1 h2 /\ Permutation u1 u2 /\ Permutation k1 k2.
Proof.
  split; [lia|].
  apply (health_check_repeatable cloud_sdk 2 ["web-1"; "web-2"; "ghost"; "web-4"]
           (Schedule [[0; 1]; [1]]%nat [3; 0]%nat) (Schedule [] [1; 1; 1]%nat)
           demo_world).
  lia.
Defined.

(** * Further properties of the batch launch *)

Section BatchLaunch.
Context {B : Type} (sdk : Sdk B).

Lemma may_end_run {A} (p : prog A) w : may_end p (fst (run sdk p w)).
Proof.
  revert w. induction p as [a|e|c k IH]; intros w; simpl; [constructor..|].
  destruct (perform sdk c w) as [o w']. econstructor. apply IH.
Qed.

(** A launch logs no launch failure: that is left to the batch. *)
Lemma launch_instance_kw_no_failure_log kws :
  only (fun c => launch_failure c = None) (launch_instance_kw kws).
Proof.
  unfold launch_instance_kw.
  destruct (omap unexpected_keyword kws); [|constructor].
  destruct (kw_lookup _ kws); [|constructor].
  unfold launch_instance. only_solve.
Qed.

Lemma launch_failures_app t1 t2 :
  launch_failures (t1 ++ t2) = launch_failures t1 ++ launch_failures t2.
Proof. apply omap_app. Qed.

Lemma launch_failures_none t :
  Forall (fun c => launch_failure c = None) t -> launch_failures t = [].
Proof.
  induction 1 as [|c t Hc _ IH]; [done|].
  unfold launch_failures in *. cbn [omap list_omap]. by rewrite Hc.
Qed.

Lemma unpack_string_keys config :
  string_keys config = true -> unpack config = Ok (omap keyword_of config).
Proof. unfold unpack. by intros ->. Qed.

Lemma unpack_other_keys config :
  string_keys config = false ->
  unpack config = Exn (TypeError "keywords must be strings").
Proof. unfold unpack. by intros ->. Qed.


Lemma launch_serial_run (configs : list (list entry)) :
  forall acc w,
  exists os w',
    run sdk
      (for_each configs (fun config servers =>
         try_except
           (server <- launch_config config ;;
            Ret (servers ++ [server]))
           (fun e =>
              log ERROR (MsgExn "Failed to launch instance: {}" e) ;;
              Ret servers)) acc) w = (Ok (acc ++ successes os), w')
    /\ Forall2 (fun config o => may_end (launch_config config) o) configs os
    /\ exists t, trace w' = trace w ++ t /\ launch_failures t = failures os.
Proof.
  induction configs as [|config configs IH]; intros acc w.
  - exists [], w. rewrite app_nil_r. split; [done|]. split; [constructor|].
    exists []. by rewrite app_nil_r.
  - rewrite run_for_each_cons, run_try_except, run_bind.
    pose proof (may_end_run (launch_config config) w) as Hend.
    assert (launch_failures (calls sdk (launch_config config) (backend w)) = [])
      as Hquiet.
    { apply launch_failures_none, only_calls. unfold launch_config.
      apply only_bind; [apply only_lift_outcome|].
      apply launch_instance_kw_no_failure_log. }
    rewrite (run_world sdk (launch_config config) w) in *. cbn [fst] in Hend.
    destruct (result sdk (launch_config config) (backend w)) as [server|e].
    + cbn [run].
      match goal with
      | |- context [run sdk (for_each configs _ _) ?w1] =>
          destruct (IH (acc ++ [server]) w1) as (os & w' & -> & HF & t & Ht & Hlog)
      end.
      exists (Ok server :: os), w'. cbn [successes failures omap list_omap].
      rewrite <- app_assoc. split; [done|]. split; [by constructor|].
      cbn [trace] in Ht. eexists. split; [rewrite Ht, <- app_assoc; reflexivity|].
      by rewrite launch_failures_app, Hquiet.
    + run_step. cbn [run].
      match goal with
      | |- context [run sdk (for_each configs _ _) ?w1] =>
          destruct (IH acc w1) as (os & w' & -> & HF & t & Ht & Hlog)
      end.
      exists (Exn e :: os), w'. cbn [successes failures omap list_omap].
      split; [done|]. split; [by constructor|].
      cbn [trace] in Ht. eexists. split; [rewrite Ht, <- !app_assoc; reflexivity|].
      rewrite !launch_failures_app, Hquiet, Hlog. done.
Qed.

(** The two loops of the parallel branch. *)
Local Abbreviation launch_submit :=
  (fun (config : list entry) (futures : list nat) =>
     mbind_ (mlift_outcome (unpack config))
       (fun kws =>
          mbind_ (executor_submit (launch_instance_kw kws))
                 (fun future => MRet (futures ++ [future])))).

Local Abbreviation launch_collect :=
  (fun (r : nat * outcome Server) (servers : list Server) =>
     mtry_except
       (mbind_ (future_result (snd r)) (fun server => MRet (servers ++ [server])))
       (fun e =>
          mbind_ (mlog ERROR (MsgExn "Failed to launch instance: {}" e))
                 (fun _ => MRet servers))).

Lemma launch_task_step configs t0 i c (k : outcome (answer c) -> prog Server)
    (w : world B) :
  launch_world t0 w -> launch_task configs i (Do c k) ->
  launch_world t0 (snd (perform sdk c w))
  /\ launch_task configs i (k (fst (perform sdk c w))).
Proof.
  intros (t & Ht & Hquiet) (config & Hi & Honly & Hend).
  apply only_Do_inv in Honly as [Hc Hk]. rewrite perform_eq. cbn [fst snd]. split.
  - exists (t ++ [c]). cbn [trace]. split; [by rewrite Ht, app_assoc|].
    rewrite launch_failures_app, Hquiet. unfold launch_failures.
    cbn [omap list_omap]. by rewrite Hc.
  - exists config. split; [done|]. split; [apply Hk|].
    intros o Ho. apply Hend. econstructor. exact Ho.
Qed.

Lemma launch_task_ret configs i a :
  launch_task configs i (Ret a) -> launch_future configs i (Ok a).
Proof.
  intros (config & Hi & _ & Hend). exists config. split; [done|].
  apply Hend. constructor.
Qed.

Lemma launch_task_throw configs i e :
  launch_task configs i (Throw e) -> launch_future configs i (Exn e).
Proof.
  intros (config & Hi & _ & Hend). exists config. split; [done|].
  apply Hend. constructor.
Qed.

Lemma mrun_mfor_each_app {T X S} W (l1 l2 : list X) (body : X -> S -> mprog T S)
    s (st : exec_state B T) :
  mrun sdk W (mfor_each (l1 ++ l2) body s) st =
    match mrun sdk W (mfor_each l1 body s) st with
    | (Ok s', st') => mrun sdk W (mfor_each l2 body s') st'
    | (Exn e, st') => (Exn e, st')
    end.
Proof.
  revert s st. induction l1 as [|x l1 IH]; intros s st; [done|].
  rewrite <- app_comm_cons, !mrun_mfor_each_cons.
  destruct (mrun sdk W (body x s) st) as [[s'|e] st']; [apply IH|done].
Qed.

Lemma launch_submit_loop W configs t0 mid post :
  forall pre (st : exec_state B Server),
    configs = pre ++ mid ++ post ->
    Forall (fun config => string_keys config = true) mid ->
    st_ok (launch_world t0) (launch_task configs) (launch_future configs) st ->
    submitted (es_pool st) = length pre ->
    exists st',
      mrun sdk W (mfor_each mid launch_submit (seq 0 (length pre))) st =
        (Ok (seq 0 (length (pre ++ mid))), st')
      /\ st_ok (launch_world t0) (launch_task configs) (launch_future configs) st'
      /\ submitted (es_pool st') = length (pre ++ mid).
Proof.
  induction mid as [|config mid IH]; intros pre st Hconfigs Hkeys Hst Hsub.
  - exists st. by rewrite app_nil_r.
  - apply Forall_cons in Hkeys as [Hkey Hkeys].
    rewrite mrun_mfor_each_cons, mrun_bind, mrun_mlift_outcome,
      (unpack_string_keys _ Hkey), mrun_bind, mrun_submit.
    destruct (interleave_ok sdk _ _ _ (launch_task_step configs t0)
                (launch_task_ret configs) (launch_task_throw configs) st Hst)
      as [[HI1 Hpool1] Hsub1].
    destruct (submit_ok (launch_task configs) (launch_future configs) W
                (launch_instance_kw (omap keyword_of config)) _ Hpool1)
      as (Hfst & Hsub2 & Hpool2).
    { exists config. rewrite Hsub1, Hsub, Hconfigs.
      split; [by apply (list_lookup_middle pre (mid ++ post) config)|].
      split; [apply launch_instance_kw_no_failure_log|].
      intros o Ho. unfold launch_config. by rewrite (unpack_string_keys _ Hkey). }
    rewrite Hfst, Hsub1, Hsub. cbn [mrun].
    replace (seq 0 (length pre) ++ [length pre])
      with (seq 0 (length (pre ++ [config])))
      by (rewrite length_app, seq_app; reflexivity).
    match goal with
    | |- context [mrun sdk W (mfor_each mid _ _) ?st1] =>
        destruct (IH (pre ++ [config]) st1) as (st' & Hrun & Hst' & Hsub')
    end.
    { by rewrite <- app_assoc. }
    { done. }
    { split; [exact HI1|exact Hpool2]. }
    { cbn [es_pool]. rewrite Hsub2, Hsub1, Hsub, length_app. simpl. lia. }
    rewrite <- app_assoc in Hrun, Hsub'. cbn [app] in Hrun, Hsub'.
    exists st'. done.
Qed.



(** The parallel branch, up to the config that cannot be unpacked. *)
Lemma launch_parallel_run_bad W pre bad rest sc (w : world B) :
  Forall (fun config => string_keys config = true) pre ->
  string_keys bad = false ->
  exists st,
    mrun sdk W (batch_launch_instances_parallel (pre ++ bad :: rest))
         (ExecState sc empty_pool w) =
      (Exn (TypeError "keywords must be strings"), st).
Proof.
  intros Hpre Hbad. unfold batch_launch_instances_parallel.
  rewrite mrun_bind, mrun_mfor_each_app.
  destruct (launch_submit_loop W (pre ++ bad :: rest) (trace w) pre (bad :: rest)
              [] (ExecState sc empty_pool w)) as (st1 & Hrun1 & _).
  { done. }
  { done. }
  { split; [exists []; by rewrite app_nil_r|apply empty_pool_ok]. }
  { done. }
  cbn [length seq] in Hrun1. rewrite Hrun1.
  rewrite mrun_mfor_each_cons, mrun_bind, mrun_mlift_outcome,
    (unpack_other_keys _ Hbad).
  by eexists.
Qed.
End BatchLaunch.



(** The run of the witness, evaluated: one server, three failures logged. *)
Example batch_launch_demo :
  let run :=
    batch_launch_instances cloud_sdk 2
      [ [entry_kw (kw_name "a")];
        [entry_kw (kw_name "b"); entry_kw (kw_image_name "no-image")];
        [entry_kw (kw_other "size" (PInt 3))];
        [entry_kw (kw_image_name "ubuntu-20.04")] ]
      true (Schedule [[0; 1]; [1; 1; 0]; [5]]%nat [2; 0]%nat) demo_world in
  match fst run with
  | Ok servers => map srv_name servers = ["a"]
  | Exn _ => False
  end
  /\ length (launch_failures (trace (snd run))) = 3%nat.
Proof. by vm_compute. Qed.

(** C4 (the code does not do this in the parallel launch): the dict of a
    config is unpacked by the call of [executor.submit], which no [try]
    encloses.  A config with a key that is not a string makes that call
    raise [TypeError], and the error leaves [batch_launch_instances]: no
    result is returned and the configs after it are never submitted.  The
    serial branch, where the unpacking call is inside the [try], logs the
    same config and goes on. *)
Theorem batch_launch_parallel_raises_on_non_string_key {B} (sdk : Sdk B)
    (max_workers : Z) (pre : list (list entry)) (bad : list entry)
    (rest : list (list entry)) (sc : schedule) (w : world B) :
  0 < max_workers ->
  Forall (fun config => string_keys config = true) pre ->
  string_keys bad = false ->
  fst (batch_launch_instances sdk max_workers (pre ++ bad :: rest) true sc w) =
    Exn (TypeError "keywords must be strings")
  /\ exists servers w',
       batch_launch_instances sdk max_workers (pre ++ bad :: rest) false sc w =
         (Ok servers, w').
Proof.
  intros Hpos Hpre Hbad. unfold batch_launch_instances. split.
  - unfold with_executor.
    destruct (Z.leb_spec max_workers 0) as [|_]; [lia|].
    destruct (launch_parallel_run_bad sdk (Z.to_nat max_workers) pre bad rest sc w
                Hpre Hbad) as (st & ->).
    by destruct (drain sdk _ _ _).
  - unfold batch_launch_instances_serial.
    destruct (launch_serial_run sdk (pre ++ bad :: rest) [] w)
      as (os & w' & -> & _).
    by eexists _, _.
Qed.

Lemma batch_launch_parallel_raises_on_non_string_key_witness :
  let configs :=
    [ [entry_kw (kw_name "a")] ]
    ++ [entry_kw (kw_name "b"); entry_nonstr (KInt 1) (PStr "x")]
       :: [ [entry_kw (kw_name "c")] ] in
  0 < 2
  /\ string_keys [entry_kw (kw_name "b"); entry_nonstr (KInt 1) (PStr "x")] = false
  /\ fst (batch_launch_instances cloud_sdk 2 configs true
            (Schedule [[0]; [0; 0]]%nat []) demo_world) =
       Exn (TypeError "keywords must be strings")
  /\ exists servers w',
       batch_launch_instances cloud_sdk 2 configs false
         (Schedule [[0]; [0; 0]]%nat []) demo_world = (Ok servers, w').
Proof.
  cbv zeta. split; [lia|]. split; [reflexivity|].
  apply (batch_launch_parallel_raises_on_non_string_key cloud_sdk 2
           [ [entry_kw (kw_name "a")] ]
           [entry_kw (kw_name "b"); entry_nonstr (KInt 1) (PStr "x")]
           [ [entry_kw (kw_name "c")] ]
           (Schedule [[0]; [0; 0]]%nat []) demo_world).
  - lia.
  - repeat constructor.
  - reflexivity.
Defined.

(** The runs of the witness, evaluated: the parallel call raises and has
    launched [a] only; the serial call returns [a] and [c] and has logged the
    failure of the second config. *)
Example batch_launch_non_string_key_demo :
  let configs :=
    [ [entry_kw (kw_name "a")];
      [entry_kw (kw_name "b"); entry_nonstr (KInt 1) (PStr "x")];
      [entry_kw (kw_name "c")] ] in
  let par := batch_launch_instances cloud_sdk 2 configs true
               (Schedule [[0]; [0; 0]]%nat []) demo_world in
  let ser := batch_launch_instances cloud_sdk 2 configs false
               (Schedule [] []) demo_world in
  fst par = Exn (TypeError "keywords must be strings")
  /\ List.filter is_create_server (trace (snd par)) =
       [CreateServer {| cs_name := "a"; cs_image_id := "img-cirros";
                        cs_flavor_id := "2"; cs_networks := [];
                        cs_security_groups := []; cs_key_name := None;
                        cs_user_data := None |}]
  /\ launch_failures (trace (snd par)) = []
  /\ match fst ser with
     | Ok servers => map srv_name servers = ["a"; "c"]
     | Exn _ => False
     end
  /\ launch_failures (trace (snd ser)) = [TypeError "keywords must be strings"].
Proof. by vm_compute. Qed.

(** * Further properties of the batch snapshot *)

Section BatchSnapshot.
Context {B : Type} (sdk : Sdk B).

(** The submission loop of [batch_snapshot_instances]. *)
Local Abbreviation snapshot_submit :=
  (fun (server_name : string) (futures : gmap nat string) =>
     mbind_ (minvoke (FindServer server_name)) (fun server =>
       match server with
       | Some server =>
           mbind_ (minvoke Now) (fun t =>
             let snapshot_name := server_name +:+ "-snapshot-" +:+ pretty t in
             mbind_ (executor_submit
                       (invoke (CreateServerImage server snapshot_name)))
                    (fun future => MRet (<[future := snapshot_name]> futures)))
       | None => MRet futures
       end)).

(** Names that do not resolve are passed over: one lookup each, nothing
    submitted. *)
Lemma snapshot_skip_unresolved W (pre suffix : list string)
    (futures : gmap nat string) (b : B) :
  Forall (fun n => find_server sdk b n = Ok None) pre ->
  forall sc t,
  exists sc',
    mrun sdk W (mfor_each (pre ++ suffix) snapshot_submit futures)
         (ExecState sc (@empty_pool string) (World b t)) =
    mrun sdk W (mfor_each suffix snapshot_submit futures)
         (ExecState sc' (@empty_pool string) (World b (t ++ map FindServer pre))).
Proof.
  induction 1 as [|n pre Hn _ IH]; intros sc t.
  - exists sc. simpl. by rewrite app_nil_r.
  - cbn [app]. rewrite mrun_mfor_each_cons, mrun_bind, mrun_minvoke.
    rewrite interleave_idle by done. cbn [es_world es_pool es_sched backend trace handle fst snd].
    rewrite Hn. cbv beta iota. rewrite mrun_MRet. cbv beta iota.
    match goal with
    | |- context [mrun sdk W (mfor_each (pre ++ suffix) _ _) ?st1] =>
        change st1 with
          (ExecState (Schedule (tl (bursts sc)) (completion sc))
                     (@empty_pool string) (World b (t ++ [FindServer n])))
    end.
    destruct (IH (Schedule (tl (bursts sc)) (completion sc)) (t ++ [FindServer n]))
      as (sc' & Hrest).
    exists sc'. etrans; [exact Hrest|]. by rewrite <- app_assoc.
Qed.
End BatchSnapshot.

(** When none of the names resolves, [batch_snapshot_instances] returns the
    empty list after one lookup per name: nothing is submitted, no snapshot
    is created, nothing is logged and the backend is left as it was. *)
Theorem batch_snapshot_nothing_resolves {B} (sdk : Sdk B) (max_workers : Z)
    (server_names : list string) (sc : schedule) (w : world B) :
  0 < max_workers ->
  Forall (fun n => find_server sdk (backend w) n = Ok None) server_names ->
  batch_snapshot_instances sdk max_workers server_names sc w =
    (Ok [], World (backend w) (trace w ++ map FindServer server_names)).
Proof.
  intros Hpos Hnone. unfold batch_snapshot_instances, with_executor.
  destruct (Z.leb_spec max_workers 0) as [|_]; [lia|].
  unfold batch_snapshot_instances_body. rewrite mrun_bind.
  destruct w as [b t].
  destruct (snapshot_skip_unresolved sdk (Z.to_nat max_workers) server_names []
              ∅ b Hnone sc t) as (sc' & Hloop).
  rewrite app_nil_r in Hloop.
  match goal with
  | |- context [mrun sdk ?W0 (mfor_each server_names ?body ?f0) ?st0] =>
      replace (mrun sdk W0 (mfor_each server_names body f0) st0)
        with (@Ok (gmap nat string) ∅,
              ExecState sc' (@empty_pool string)
                (World b (t ++ map FindServer server_names)))
        by (symmetry; exact Hloop)
  end.
  rewrite mrun_bind. rewrite dom_empty_L, elements_empty.
  unfold as_completed. cbn [mrun es_sched es_pool es_world].
  rewrite !drain_idle by done. cbn [finished empty_pool List.filter].
  unfold as_completed_order. cbn [length pick_order mfor_each mrun].
  by rewrite drain_idle.
Qed.

Lemma batch_snapshot_nothing_resolves_witness :
  0 < 3
  /\ batch_snapshot_instances cloud_sdk 3 ["no-such"; "gone"]
       (Schedule [[0]; [1; 2]]%nat [1]%nat) demo_world =
       (Ok [], World demo_cloud [FindServer "no-such"; FindServer "gone"]).
Proof.
  split; [lia|].
  apply (batch_snapshot_nothing_resolves cloud_sdk 3 ["no-such"; "gone"]
           (Schedule [[0]; [1; 2]]%nat [1]%nat) demo_world).
  - lia.
  - by repeat constructor.
Defined.

(** The lookups of [batch_snapshot_instances] are made outside any [try]:
    when the lookup of a name raises (the names before it resolving to
    nothing), the whole call raises that error and the remaining names are
    not looked at. *)
Theorem batch_snapshot_lookup_error_aborts {B} (sdk : Sdk B) (max_workers : Z)
    (pre rest : list string) (name : string) (e : exn)
    (sc : schedule) (w : world B) :
  0 < max_workers ->
  Forall (fun n => find_server sdk (backend w) n = Ok None) pre ->
  find_server sdk (backend w) name = Exn e ->
  batch_snapshot_instances sdk max_workers (pre ++ name :: rest) sc w =
    (Exn e,
     World (backend w) (trace w ++ map FindServer pre ++ [FindServer name])).
Proof.
  intros Hpos Hnone Hraise. unfold batch_snapshot_instances, with_executor.
  destruct (Z.leb_spec max_workers 0) as [|_]; [lia|].
  unfold batch_snapshot_instances_body. rewrite mrun_bind.
  destruct w as [b t].
  destruct (snapshot_skip_unresolved sdk (Z.to_nat max_workers) pre (name :: rest)
              ∅ b Hnone sc t) as (sc' & Hloop).
  match goal with
  | |- context [mrun sdk ?W0 (mfor_each (pre ++ name :: rest) ?body ?f0) ?st0] =>
      replace (mrun sdk W0 (mfor_each (pre ++ name :: rest) body f0) st0)
        with (mrun sdk W0 (mfor_each (name :: rest) body f0)
                (ExecState sc' (@empty_pool string)
                   (World b (t ++ map FindServer pre))))
        by (symmetry; exact Hloop)
  end.
  rewrite mrun_mfor_each_cons, mrun_bind, mrun_minvoke.
  rewrite interleave_idle by done.
  cbn [es_world es_pool es_sched backend trace handle fst snd].
  simpl in Hraise. rewrite Hraise. rewrite drain_idle by done.
  by rewrite <- app_assoc.
Qed.

Lemma batch_snapshot_lookup_error_aborts_witness :
  0 < 3
  /\ batch_snapshot_instances cloud_sdk 3 ["no-such"; "ghost"; "web-1"]
       (Schedule [] []) demo_world =
       (Exn (SdkError "connection reset"),
        World demo_cloud [FindServer "no-such"; FindServer "ghost"]).
Proof.
  split; [lia|].
  apply (batch_snapshot_lookup_error_aborts cloud_sdk 3 ["no-such"] ["web-1"]
           "ghost" (SdkError "connection reset") (Schedule [] []) demo_world).
  - lia.
  - by repeat constructor.
  - reflexivity.
Defined.

(** * Names that do not resolve in a batch snapshot

    ** Snapshot names *)

Lemma string_app_cons c (u v : string) : String c u +:+ v = String c (u +:+ v).
Proof. reflexivity. Qed.

Lemma string_app_nil (v : string) : "" +:+ v = v.
Proof. reflexivity. Qed.

Lemma string_app_assoc (u v w : string) : (u +:+ v) +:+ w = u +:+ (v +:+ w).
Proof.
  induction u as [|c u IH]; [done|]. rewrite !string_app_cons. by rewrite IH.
Qed.

Lemma occurs_app a u v : occurs a (u +:+ v) = occurs a u || occurs a v.
Proof.
  induction u as [|c u IH]; [done|]. rewrite string_app_cons. simpl.
  by rewrite IH, orb_assoc.
Qed.

Lemma occurs_middle a u v : occurs a (u +:+ String a v) = true.
Proof.
  rewrite occurs_app. simpl. rewrite Ascii.eqb_refl. simpl. apply orb_true_r.
Qed.

(** A string is cut in one way only at the last occurrence of a
    character. *)
Lemma string_split_at a (u v d d' : string) :
  occurs a d = false -> occurs a d' = false ->
  u +:+ String a d = v +:+ String a d' -> u = v /\ d = d'.
Proof.
  intros Hd Hd'. revert v.
  induction u as [|c u IH]; intros [|c' v] H;
    rewrite ?string_app_cons, ?string_app_nil in H.
  - by injection H.
  - injection H as <- ->. by rewrite occurs_middle in Hd.
  - injection H as -> <-. by rewrite occurs_middle in Hd'.
  - injection H as <- H. destruct (IH v H) as [-> ->]. done.
Qed.

Lemma string_length_app (u v : string) :
  String.length (u +:+ v) = (String.length u + String.length v)%nat.
Proof.
  induction u as [|c u IH]; [done|]. rewrite string_app_cons. simpl. by rewrite IH.
Qed.

Lemma string_app_inv_tail (u v s : string) : u +:+ s = v +:+ s -> u = v.
Proof.
  revert v.
  induction u as [|c u IH]; intros [|c' v] H;
    rewrite ?string_app_cons, ?string_app_nil in H.
  - done.
  - apply (f_equal String.length) in H. simpl in H.
    rewrite string_length_app in H. lia.
  - apply (f_equal String.length) in H. simpl in H.
    rewrite string_length_app in H. lia.
  - injection H as <- H. by rewrite (IH v H).
Qed.

(** A number is printed without the letter [t]. *)
Lemma pretty_N_go_no_t x s :
  occurs "t" s = false -> occurs "t" (pretty_N_go x s) = false.
Proof.
  revert s. induction (N.lt_wf_0 x) as [x _ IH]; intros s Hs.
  assert (x = 0 \/ 0 < x)%N as [->|?] by lia.
  - by rewrite pretty_N_go_0.
  - rewrite pretty_N_go_step by done. apply IH.
    { by apply N.div_lt. }
    unfold pretty_N_char. by repeat case_match.
Qed.

Lemma pretty_Z_no_t (z : Z) : occurs "t" (pretty z) = false.
Proof.
  assert (forall p : positive, occurs "t" (pretty p) = false) as Hpos.
  { intros p. unfold pretty, pretty_positive, pretty, pretty_N.
    case_decide; [done|]. by apply pretty_N_go_no_t. }
  destruct z as [|p|p]; unfold pretty, pretty_Z; [done|apply Hpos|].
  rewrite occurs_app, Hpos. done.
Qed.

(** The snapshot names of two server names are different. *)
Lemma snapshot_name_inj (n m : string) (t t' : Z) :
  n +:+ "-snapshot-" +:+ pretty t = m +:+ "-snapshot-" +:+ pretty t' -> n = m.
Proof.
  intros H.
  change (n +:+ "-snapsho" +:+ String "t" ("-" +:+ pretty t) =
          m +:+ "-snapsho" +:+ String "t" ("-" +:+ pretty t')) in H.
  rewrite <- !string_app_assoc in H.
  apply string_split_at in H as [H _].
  - by apply string_app_inv_tail in H.
  - rewrite occurs_app, pretty_Z_no_t. done.
  - rewrite occurs_app, pretty_Z_no_t. done.
Qed.

Lemma for_other_name_intro (names : list string) (n m : string) (t : Z) :
  In m names -> m <> n ->
  for_other_name names n (m +:+ "-snapshot-" +:+ pretty t).
Proof.
  intros Hin Hmn. split; [exists m; split; [done|]; split; [done|]; by exists t|].
  intros [t' H]. by apply snapshot_name_inj in H.
Qed.

(** ** The batch, for a name that does not resolve *)

Section SnapshotUnresolved.
Context {B : Type} (sdk : Sdk B) (names : list string) (n : string)
  (t0 : list call).
Hypothesis stable : forall b server nm,
  find_server sdk b n = Ok None ->
  find_server sdk (snd (create_server_image sdk b server nm)) n = Ok None.

Local Abbreviation submit_snapshot :=
  (fun (server_name : string) (futures : gmap nat string) =>
     mbind_ (minvoke (FindServer server_name)) (fun server =>
       match server with
       | Some server =>
           mbind_ (minvoke Now) (fun t =>
             let snapshot_name := server_name +:+ "-snapshot-" +:+ pretty t in
             mbind_ (executor_submit
                       (invoke (CreateServerImage server snapshot_name)))
                    (fun future => MRet (<[future := snapshot_name]> futures)))
       | None => MRet futures
       end)).

Local Abbreviation collect_snapshot :=
  (fun (futures : gmap nat string) (r : nat * outcome string)
       (snapshots : list Snapshot) =>
     mbind_ (future_get futures (fst r)) (fun snapshot_name =>
       mtry_except
         (mbind_ (future_result (snd r)) (fun image_id =>
            mbind_ (mlog INFO (MsgStr "Created snapshot: {}" snapshot_name))
              (fun _ =>
                 MRet (snapshots
                       ++ [ {| snap_name := snapshot_name; snap_id := image_id |} ]))))
         (fun e =>
            mbind_ (mlog ERROR
                      (MsgStrExn "Failed to create snapshot {}: {}" snapshot_name e))
                   (fun _ => MRet snapshots)))).

Local Abbreviation snap_ok :=
  (st_ok (snap_world sdk names n t0) (snap_task names n) snap_future).

Lemma snap_task_step i c (k : outcome (answer c) -> prog string) (w : world B) :
  snap_world sdk names n t0 w -> snap_task names n i (Do c k) ->
  snap_world sdk names n t0 (snd (perform sdk c w))
  /\ snap_task names n i (k (fst (perform sdk c w))).
Proof.
  intros (Hn & t & Ht & Hspares) Htask.
  apply only_Do_inv in Htask as [Hc Hk]. split; [|apply Hk].
  rewrite perform_eq. cbn [snd]. destruct c; try done.
  cbn [handle backend trace]. split; [by apply stable|].
  exists (t ++ [CreateServerImage s name]). split; [by rewrite Ht, app_assoc|].
  apply Forall_app. split; [done|]. by constructor.
Qed.

Lemma snap_interleave (st : exec_state B string) :
  snap_ok st ->
  snap_ok (interleave sdk st)
  /\ submitted (es_pool (interleave sdk st)) = submitted (es_pool st).
Proof.
  apply (interleave_ok sdk _ _ _ snap_task_step); done.
Qed.

(** A call of the calling thread that changes nothing. *)
Lemma snap_world_call (w : world B) c :
  snap_world sdk names n t0 w -> spares names n c ->
  snap_world sdk names n t0 (World (backend w) (trace w ++ [c])).
Proof.
  intros (Hn & t & Ht & Hspares) Hc. split; [done|].
  exists (t ++ [c]). cbn [trace]. split; [by rewrite Ht, app_assoc|].
  apply Forall_app. split; [done|]. by constructor.
Qed.

Lemma submit_snapshot_step W m (futures : gmap nat string)
    (st : exec_state B string) :
  In m names ->
  snap_ok st ->
  (forall i, is_Some (futures !! i) <-> (i < submitted (es_pool st))%nat) ->
  (forall i nm, futures !! i = Some nm -> for_other_name names n nm) ->
  exists o st',
    mrun sdk W (submit_snapshot m futures) st = (o, st')
    /\ snap_ok st'
    /\ match o with
       | Ok futures' =>
           (forall i, is_Some (futures' !! i) <-> (i < submitted (es_pool st'))%nat)
           /\ (forall i nm, futures' !! i = Some nm -> for_other_name names n nm)
       | Exn e => exists b, find_server sdk b m = Exn e
       end.
Proof.
  intros Hin Hst Hdom Hnames. cbv beta. rewrite mrun_bind, mrun_minvoke.
  destruct (snap_interleave st Hst) as [[HI1 Hpool1] Hsub1].
  cbn [handle fst snd].
  pose proof (snap_world_call _ (FindServer m) HI1 I) as HI2.
  destruct (find_server sdk (backend (es_world (interleave sdk st))) m)
    as [[server|]|e] eqn:Hfind.
  - assert (m <> n) as Hmn.
    { intros ->. destruct HI1 as [Hn _]. congruence. }
    rewrite mrun_bind, mrun_minvoke.
    match goal with
    | |- context [interleave sdk ?st2] =>
        destruct (snap_interleave st2 (conj HI2 Hpool1)) as [[HI3 Hpool3] Hsub3];
        set (st3 := interleave sdk st2) in *
    end.
    cbn [handle fst snd]. cbv zeta.
    pose proof (snap_world_call _ Now HI3 I) as HI4.
    rewrite mrun_bind, mrun_submit. cbn [answer].
    match goal with
    | |- context [submit W ?task (es_pool (interleave sdk ?st4))] =>
        destruct (snap_interleave st4 (conj HI4 Hpool3)) as [[HI5 Hpool5] Hsub5];
        destruct (submit_ok (snap_task names n) snap_future W task _ Hpool5)
          as (Hfst & Hsub6 & Hpool6);
        [apply (only_invoke _ (CreateServerImage _ _));
         exact (for_other_name_intro names n m _ Hin Hmn)|]
    end.
    rewrite Hfst. rewrite mrun_MRet.
    eexists _, _. split; [reflexivity|]. split; [by split|].
    cbn [es_pool] in *. rewrite Hsub6, Hsub5, Hsub3, Hsub1. split.
    + intros i. rewrite lookup_insert_is_Some', Hdom. lia.
    + intros i nm. destruct (decide (submitted (es_pool st) = i)) as [<-|Hi].
      * rewrite lookup_insert_eq. intros [= <-].
        exact (for_other_name_intro names n m _ Hin Hmn).
      * rewrite lookup_insert_ne by done. apply Hnames.
  - rewrite mrun_MRet. eexists _, _. split; [reflexivity|].
    split; [by split|]. cbn [es_pool]. rewrite Hsub1. done.
  - eexists _, _. split; [reflexivity|]. split; [by split|]. eauto.
Qed.

Lemma submit_snapshot_loop W rest :
  forall (futures : gmap nat string) (st : exec_state B string),
    (forall m, In m rest -> In m names) ->
    snap_ok st ->
    (forall i, is_Some (futures !! i) <-> (i < submitted (es_pool st))%nat) ->
    (forall i nm, futures !! i = Some nm -> for_other_name names n nm) ->
    exists o st',
      mrun sdk W (mfor_each rest submit_snapshot futures) st = (o, st')
      /\ snap_ok st'
      /\ match o with
         | Ok futures' =>
             (forall i, is_Some (futures' !! i) <-> (i < submitted (es_pool st'))%nat)
             /\ (forall i nm, futures' !! i = Some nm -> for_other_name names n nm)
         | Exn e => exists m b, In m names /\ find_server sdk b m = Exn e
         end.
Proof.
  induction rest as [|m rest IH]; intros futures st Hin Hst Hdom Hnames.
  - exists (Ok futures), st. done.
  - rewrite mrun_mfor_each_cons.
    destruct (submit_snapshot_step W m futures st (Hin m (or_introl eq_refl))
                Hst Hdom Hnames)
      as (o1 & st1 & Hstep & Hst1 & Ho1).
    match goal with
    | |- context [mrun sdk W ?p st] =>
        replace (mrun sdk W p st) with (o1, st1) by (symmetry; exact Hstep)
    end.
    destruct o1 as [futures1|e].
    + destruct Ho1 as [Hdom1 Hnames1].
      destruct (IH futures1 st1 (fun m' Hm' => Hin m' (or_intror Hm'))
                  Hst1 Hdom1 Hnames1) as (o & st' & Hrun & Hst' & Ho).
      exists o, st'. split; [exact Hrun|]. split; [exact Hst'|exact Ho].
    + exists (Exn e), st1. split; [done|]. split; [done|].
      destruct Ho1 as [b Hb]. exists m, b. split; [by apply Hin; left|done].
Qed.

Lemma collect_snapshot_loop W (futures : gmap nat string)
    (done : list (nat * outcome string)) :
  (forall i nm, futures !! i = Some nm -> for_other_name names n nm) ->
  Forall (fun r => is_Some (futures !! fst r)) done ->
  forall acc (st : exec_state B string),
    pool_idle (es_pool st) ->
    exists new t st',
      mrun sdk W (mfor_each done (collect_snapshot futures) acc) st =
        (Ok (acc ++ new), st')
      /\ pool_idle (es_pool st')
      /\ Forall (fun e => for_other_name names n (snap_name e)) new
      /\ trace (es_world st') = trace (es_world st) ++ t
      /\ Forall (spares names n) t.
Proof.
  intros Hnames. induction 1 as [|[i o] done [nm Hi] _ IH]; intros acc st Hidle.
  - exists [], [], st. by rewrite !app_nil_r.
  - cbn [fst snd] in *. rewrite mrun_mfor_each_cons. cbn [fst snd].
    rewrite (future_get_Some futures i nm Hi). cbn [mbind_].
    rewrite mrun_mtry_except, mrun_bind, mrun_future_result.
    pose proof (Hnames i nm Hi) as Hnm.
    destruct o as [image_id|e]; cbv beta iota.
    + rewrite mrun_bind, mrun_mlog, interleave_idle by done. cbv beta iota.
      rewrite mrun_MRet. cbv beta iota.
      match goal with
      | |- context [mrun sdk W (mfor_each done _ ?acc1) ?st1] =>
          destruct (IH acc1 st1) as (new & t & st' & Hrun & Hidle' & Hnew & Ht & Hsp)
      end; [done|].
      eexists (_ :: new), (_ :: t), st'.
      split; [rewrite Hrun, <- app_assoc; reflexivity|].
      split; [done|]. split; [by constructor|].
      split; [rewrite Ht; cbn [es_world trace]; by rewrite <- app_assoc|].
      by constructor.
    + rewrite mrun_bind, mrun_mlog, interleave_idle by done. cbv beta iota.
      rewrite mrun_MRet. cbv beta iota.
      match goal with
      | |- context [mrun sdk W (mfor_each done _ ?acc1) ?st1] =>
          destruct (IH acc1 st1) as (new & t & st' & Hrun & Hidle' & Hnew & Ht & Hsp)
      end; [done|].
      eexists new, (_ :: t), st'.
      split; [exact Hrun|].
      split; [done|]. split; [done|].
      split; [rewrite Ht; cbn [es_world trace]; by rewrite <- app_assoc|].
      by constructor.
Qed.
End SnapshotUnresolved.

(** C7: a name that does not resolve to a server (when the batch starts,
    and it does not start to resolve because a snapshot is requested) is
    passed over by [batch_snapshot_instances].  Whatever the thread schedule
    and the other names, the calls the batch makes are lookups, clock
    readings, and snapshot requests, success logs and failure logs that
    carry a snapshot name of another input name, never one of that name; and
    every entry of the list returned has a snapshot name of another input
    name, never one of that name.  The batch returns a list unless the
    lookup of an input name raises. *)
Theorem batch_snapshot_skips_unresolved {B} (sdk : Sdk B) (max_workers : Z)
    (server_names : list string) (sc : schedule) (w : world B) (n : string) :
  0 < max_workers ->
  find_server sdk (backend w) n = Ok None ->
  (forall b server nm,
     find_server sdk b n = Ok None ->
     find_server sdk (snd (create_server_image sdk b server nm)) n = Ok None) ->
  exists o w' t,
    batch_snapshot_instances sdk max_workers server_names sc w = (o, w')
    /\ trace w' = trace w ++ t
    /\ Forall (spares server_names n) t
    /\ match o with
       | Ok snapshots =>
           Forall (fun e => for_other_name server_names n (snap_name e)) snapshots
       | Exn e => exists m b, In m server_names /\ find_server sdk b m = Exn e
       end.
Proof.
  intros Hpos Hn Hstable. unfold batch_snapshot_instances, with_executor.
  destruct (Z.leb_spec max_workers 0) as [|_]; [lia|].
  unfold batch_snapshot_instances_body. rewrite mrun_bind.
  destruct (submit_snapshot_loop sdk server_names n (trace w) Hstable
              (Z.to_nat max_workers) server_names ∅ (ExecState sc empty_pool w))
    as (o1 & st1 & Hrun1 & Hst1 & Ho1).
  { done. }
  { split; [|apply empty_pool_ok]. split; [exact Hn|].
    exists []. by rewrite app_nil_r. }
  { intros i. rewrite lookup_empty. cbn [es_pool empty_pool submitted].
    split; [by intros [? ?]|lia]. }
  { intros i nm. by rewrite lookup_empty. }
  match goal with
  | |- context [mrun sdk ?W0 (mfor_each server_names ?body ?f0) ?st0] =>
      replace (mrun sdk W0 (mfor_each server_names body f0) st0)
        with (o1, st1) by (symmetry; exact Hrun1)
  end.
  destruct o1 as [futures|e].
  - destruct Ho1 as [Hdom Hnames]. rewrite mrun_bind.
    destruct (mrun_as_completed sdk _ _ _
                (snap_task_step sdk server_names n (trace w) Hstable)
                (fun _ _ _ => I) (fun _ _ _ => I)
                (Z.to_nat max_workers) (elements (dom futures)) st1 Hst1)
      as (dn & st2 & -> & [(_ & t2 & Ht2 & Hsp2) _] & Hidle2 & Hperm & _).
    { intros i Hi. by apply elem_of_elements, elem_of_dom, Hdom. }
    assert (Forall (fun r : nat * outcome string => is_Some (futures !! fst r)) dn)
      as Hdn.
    { apply List.Forall_forall. intros r Hr. apply Hdom.
      assert (In (fst r) (seq 0 (submitted (es_pool st1)))) as Hin.
      { eapply Permutation_in; [exact Hperm|]. by apply in_map. }
      apply in_seq in Hin. lia. }
    destruct (collect_snapshot_loop sdk server_names n (Z.to_nat max_workers)
                futures dn Hnames Hdn [] st2 Hidle2)
      as (new & t3 & st3 & Hrun3 & Hidle3 & Hnew & Ht3 & Hsp3).
    match goal with
    | |- context [mrun sdk ?W0 (mfor_each dn ?body ?a0) st2] =>
        replace (mrun sdk W0 (mfor_each dn body a0) st2)
          with (@Ok (list Snapshot) ([] ++ new), st3) by (symmetry; exact Hrun3)
    end.
    rewrite drain_idle by done.
    exists (Ok new), (es_world st3), (t2 ++ t3).
    split; [reflexivity|]. split; [by rewrite Ht3, Ht2, app_assoc|].
    split; [by apply Forall_app|done].
  - destruct Hst1 as [HI1 Hpool1].
    destruct (drain_ok sdk _ _ _
                (snap_task_step sdk server_names n (trace w) Hstable)
                (fun _ _ _ => I) (fun _ _ _ => I)
                (concat (bursts (es_sched st1))) _ _ HI1 Hpool1)
      as ((_ & t2 & Ht2 & Hsp2) & _).
    destruct (drain sdk _ _ _) as [pl w'] eqn:Hdrain. cbn [snd] in *.
    exists (Exn e), w', t2. done.
Qed.

Lemma batch_snapshot_skips_unresolved_witness :
  0 < 2
  /\ find_server cloud_sdk demo_cloud "no-such" = Ok None
  /\ exists o w' t,
       batch_snapshot_instances cloud_sdk 2 ["web-1"; "no-such"; "web-2"]
         (Schedule [[0]; []; [0; 1]]%nat [1; 0]%nat) demo_world = (o, w')
       /\ trace w' = [] ++ t
       /\ Forall (spares ["web-1"; "no-such"; "web-2"] "no-such") t
       /\ match o with
          | Ok snapshots =>
              Forall (fun e => for_other_name ["web-1"; "no-such"; "web-2"]
                                 "no-such" (snap_name e)) snapshots
          | Exn e =>
              exists m b, In m ["web-1"; "no-such"; "web-2"]
                          /\ find_server cloud_sdk b m = Exn e
          end.
Proof.
  split; [lia|]. split; [reflexivity|].
  apply (batch_snapshot_skips_unresolved cloud_sdk 2 ["web-1"; "no-such"; "web-2"]
           (Schedule [[0]; []; [0; 1]]%nat [1; 0]%nat) demo_world "no-such").
  - lia.
  - reflexivity.
  - intros b server nm Hb. exact Hb.
Defined.

(** The run of the witness, evaluated: two snapshots, of [web-1] and
    [web-2]; for [no-such] there is the lookup and nothing else. *)
Example batch_snapshot_demo :
  let run :=
    batch_snapshot_instances cloud_sdk 2 ["web-1"; "no-such"; "web-2"]
      (Schedule [[0]; []; [0; 1]]%nat [1; 0]%nat) demo_world in
  match fst run with
  | Ok snapshots =>
      map snap_name snapshots =
        ["web-2-snapshot-1700000000"; "web-1-snapshot-1700000000"]
  | Exn _ => False
  end
  /\ List.filter (fun c => match c with FindServer _ => true | _ => false end)
       (trace (snd run)) =
     [FindServer "web-1"; FindServer "no-such"; FindServer "web-2"].
Proof. by vm_compute. Qed.
